(** * Adept: project / task / membership model

    A shallow embedding of the decision logic of the Adept front end
    (React pages and components under [frontend/src]) together with the
    REST operations they call.  Every page handler is embedded as a pure
    function from the component state and the handler arguments to the
    next state or to the request that is sent.  The REST back end is not
    part of the front-end sources; the operations the pages rely on are
    modelled in [Module Backend] from the written specification and are
    marked as such.

    Conventions.
    - A JavaScript string is a [string]; a character is one code unit in
      the range 0..255.  [===] on strings is [String.eqb].
    - A number in a request or a response is the rational [Q] its JSON
      text denotes; [NaN] appears only as a result of [parseInt] and is
      explicit in [JS.number].  Where a page computes with numbers the
      arithmetic is a parameter ([Arith]), with IEEE binary64 as one
      instance.
    - Timestamps are milliseconds since the epoch, in [Z].
    - [null] / [undefined] are [None]. *)

From Stdlib Require Import ZArith QArith Qround String Ascii List Lia Bool.
From Stdlib Require Import Floats.SpecFloat.
From stdpp Require Import gmap strings list fin_maps.

Local Open Scope string_scope.
Local Open Scope Z_scope.
Local Open Scope list_scope.

(* ===================================================================== *)
(** * JavaScript primitives used by the pages                             *)
(* ===================================================================== *)

Module JS.

(** [WhiteSpace] and [LineTerminator] code units below 256: TAB, LF,
    VT, FF, CR, SP and NBSP. *)
Definition isWhiteSpace (c : ascii) : bool :=
  let n := nat_of_ascii c in
  (((9 <=? n) && (n <=? 13)) || (n =? 32) || (n =? 160))%nat.

Fixpoint trimStart (s : string) : string :=
  match s with
  | EmptyString => EmptyString
  | String c s' => if isWhiteSpace c then trimStart s' else s
  end.

Definition reverse (s : string) : string :=
  string_of_list_ascii (rev (list_ascii_of_string s)).

Definition trimEnd (s : string) : string :=
  reverse (trimStart (reverse s)).

(** [String.prototype.trim]. *)
Definition trim (s : string) : string := trimEnd (trimStart s).

(** [ToBoolean] on a string: only the empty string is falsy. *)
Definition truthy (s : string) : bool :=
  match s with EmptyString => false | String _ _ => true end.

(** [s || d] on strings. *)
Definition orElse (s d : string) : string := if truthy s then s else d.

(** [s || null]. *)
Definition orNull (s : string) : option string :=
  if truthy s then Some s else None.

(** A number as [parseInt] and zod see it. *)
Inductive number : Type :=
| NaN
| Num (q : Q).

(** Value of a digit in the given radix, if the code unit is one. *)
Definition digitValue (radix : Z) (c : ascii) : option Z :=
  let n := Z.of_nat (nat_of_ascii c) in
  let v :=
    if (48 <=? n) && (n <=? 57) then Some (n - 48)
    else if (97 <=? n) && (n <=? 122) then Some (n - 87)
    else if (65 <=? n) && (n <=? 90) then Some (n - 55)
    else None in
  match v with
  | Some d => if d <? radix then Some d else None
  | None => None
  end.

(** Longest prefix of digits, read left to right; [None] when the
    prefix is empty. *)
Fixpoint digits (radix : Z) (acc : option Z) (s : string) : option Z :=
  match s with
  | EmptyString => acc
  | String c s' =>
      match digitValue radix c with
      | Some d =>
          digits radix
            (Some (match acc with Some a => a * radix + d | None => d end)) s'
      | None => acc
      end
  end.

(** [parseInt(s)] with no radix argument: leading white space, an
    optional sign, an optional [0x] / [0X] prefix, then digits; [None]
    is [NaN].  The result is the mathematical integer: the rounding to
    a double above 2^53 is not modelled. *)
Definition parseInt (s : string) : option Z :=
  let s1 := trimStart s in
  let '(sign, s2) :=
    match s1 with
    | String "-" r => (-1, r)
    | String "+" r => (1, r)
    | _ => (1, s1)
    end in
  let '(radix, s3) :=
    match s2 with
    | String "0" (String "x" r) => (16, r)
    | String "0" (String "X" r) => (16, r)
    | _ => (10, s2)
    end in
  match digits radix None s3 with
  | Some n => Some (sign * n)
  | None => None
  end.

Definition ofParseInt (r : option Z) : number :=
  match r with Some n => Num (inject_Z n) | None => NaN end.

(** [x || 0] on the result of [parseInt]: [NaN] and [0] are falsy. *)
Definition intOrZero (r : option Z) : Z :=
  match r with Some n => n | None => 0 end.

End JS.

(* ===================================================================== *)
(** * lib/types.ts                                                        *)
(* ===================================================================== *)

Inductive ProjectRole : Type := Owner | Editor | Viewer.
Inductive TaskPriority : Type := low | medium | high.
Inductive CreatedBy : Type := ai | user.

Global Instance ProjectRole_eq_dec : EqDecision ProjectRole.
Proof. solve_decision. Defined.
Global Instance TaskPriority_eq_dec : EqDecision TaskPriority.
Proof. solve_decision. Defined.
Global Instance CreatedBy_eq_dec : EqDecision CreatedBy.
Proof. solve_decision. Defined.

(** [Task] as the API returns it.  [status] is kept as the wire string:
    the pages compare it with string literals. *)
Record Task : Type := mkTask {
  task_id : string;
  task_project_id : string;
  task_title : string;
  task_description : option string;
  task_priority : TaskPriority;
  task_status : string;
  task_effort_estimate : option Q;
  task_ai_generated : bool;
  task_ai_priority_suggestion : option TaskPriority;
  task_ai_effort_suggestion : option Q;
  task_created_by : CreatedBy
}.

(* ===================================================================== *)
(** * components/PermissionsTable.tsx                                     *)
(* ===================================================================== *)

Module PermissionsTable.

Record Permission : Type := mkPermission {
  name : string;
  owner : bool;
  editor : bool;
  viewer : bool
}.

Definition permissions : list Permission :=
  [ mkPermission "View Tasks" true true true;
    mkPermission "Create Tasks" true true false;
    mkPermission "Edit Tasks" true true false;
    mkPermission "Delete Tasks" true true false;
    mkPermission "Manage Team" true false false;
    mkPermission "Project Settings" true false false ].

(** The cell rendered with a check mark for role [r] in row [p]. *)
Definition granted (r : ProjectRole) (p : Permission) : bool :=
  match r with
  | Owner => owner p
  | Editor => editor p
  | Viewer => viewer p
  end.

Definition grantedNames (r : ProjectRole) : list string :=
  map name (filter (fun p => granted r p = true) permissions).

End PermissionsTable.

(** The total order Viewer < Editor < Owner. *)
Definition roleRank (r : ProjectRole) : nat :=
  match r with Viewer => 0 | Editor => 1 | Owner => 2 end.

Definition role_le (r1 r2 : ProjectRole) : Prop := (roleRank r1 <= roleRank r2)%nat.

Definition role_leb (r1 r2 : ProjectRole) : bool := (roleRank r1 <=? roleRank r2)%nat.

(* ===================================================================== *)
(** * pages/Dashboard.tsx                                                 *)
(* ===================================================================== *)

Module Dashboard.

Record TaskStats : Type := mkTaskStats {
  completed : nat;
  in_progress : nat;
  todo : nat
}.

(** The callback of [allTasks.reduce] in [fetchTaskStats]. *)
Definition countTask (acc : TaskStats) (task : Task) : TaskStats :=
  if String.eqb (task_status task) "done" then
    mkTaskStats (S (completed acc)) (in_progress acc) (todo acc)
  else if String.eqb (task_status task) "in_progress" then
    mkTaskStats (completed acc) (S (in_progress acc)) (todo acc)
  else
    mkTaskStats (completed acc) (in_progress acc) (S (todo acc)).

(** The [for ... of] loop: [allTasks = [...allTasks, ...projectTasks]]. *)
Definition collectTasks (projectTasks : list (list Task)) : list Task :=
  fold_left (fun allTasks ts => allTasks ++ ts) projectTasks [].

Definition taskStats (allTasks : list Task) : TaskStats :=
  fold_left countTask allTasks (mkTaskStats 0 0 0).

(** [fetchTaskStats] once every request has answered: one task list
    per project, in the order of [/projects]. *)
Definition fetchTaskStats (projectTasks : list (list Task)) : TaskStats :=
  taskStats (collectTasks projectTasks).

End Dashboard.

(* ===================================================================== *)
(** * lib/api.ts and the requests the pages send                          *)
(* ===================================================================== *)

Record User : Type := mkUser {
  user_id : string;
  user_email : string;
  user_username : option string
}.

Record Project : Type := mkProject {
  project_id : string;
  project_owner_id : string;
  project_title : string;
  project_description : option string
}.

(** Body of [POST /projects/:id/tasks] and an item of
    [POST /projects/:id/tasks/bulk]. *)
Record TaskCreate : Type := mkTaskCreate {
  tc_title : string;
  tc_description : option string;
  tc_priority : TaskPriority;
  tc_effort_estimate : option Q;
  tc_ai_generated : bool;
  tc_ai_priority_suggestion : option TaskPriority;
  tc_ai_effort_suggestion : option Q;
  tc_created_by : CreatedBy
}.

Module Api.

Inductive Request : Type :=
| PutMember (projectId userId : string) (role : ProjectRole)
| DeleteMember (projectId userId : string)
| PostAcceptInvitation (invitationId : string)
| DeleteInvitation (invitationId : string)
| PostTask (projectId : string) (body : TaskCreate)
| PostTasksBulk (projectId : string) (tasks : list TaskCreate).

(** What an awaited [apiClient] call gives back: the response data, or
    the [Error] thrown by the response interceptor. *)
Inductive Result (A : Type) : Type :=
| Resolved (data : A)
| Rejected (message : string).
Arguments Resolved {A} data.
Arguments Rejected {A} message.

(** The interceptor's message:
    [detail || error.message || 'An error occurred']. *)
Definition errorMessage (detail message : string) : string :=
  JS.orElse detail (JS.orElse message "An error occurred").

End Api.

(* ===================================================================== *)
(** * pages/InvitationPage.tsx                                            *)
(* ===================================================================== *)

Module InvitationPage.

(** The invitation as [GET /team/invitations/by-token/:token] returns
    it; [accepted_at] is [null] until the invitation is accepted. *)
Record Invitation : Type := mkInvitation {
  id : string;
  project_id : string;
  invited_email : string;
  role : ProjectRole;
  expires_at : Z;
  accepted_at : option Z
}.

Record State : Type := mkState {
  invitation : option Invitation;
  project : option Project;
  error : string
}.

Definition initial : State := mkState None None "".

Definition setError (msg : string) (st : State) : State :=
  mkState (invitation st) (project st) msg.

(** [fetchInvitation]: [now] is [new Date()] at the expiry test. *)
Definition fetchInvitation (now : Z)
    (invitationRes : Api.Result (option Invitation))
    (projectRes : Api.Result Project) (st : State) : State :=
  match invitationRes with
  | Api.Rejected msg => setError msg st
  | Api.Resolved None => setError "Invitation not found or has expired" st
  | Api.Resolved (Some invitationData) =>
      match accepted_at invitationData with
      | Some _ => setError "This invitation has already been accepted" st
      | None =>
          if expires_at invitationData <? now then
            setError "This invitation has expired" st
          else
            match projectRes with
            | Api.Resolved projectData =>
                mkState (Some invitationData) (Some projectData) (error st)
            | Api.Rejected msg =>
                mkState (Some invitationData) (project st) msg
            end
      end
  end.

(** What the page renders once loading is over. *)
Inductive View : Type :=
| InvalidInvitation (message : string)
| InvitationCard.

Definition view (st : State) : View :=
  if JS.truthy (error st) then InvalidInvitation (error st) else InvitationCard.

(** [disabled] of the accept button. *)
Definition acceptDisabled (processing : bool) (user : option User)
    (inv : Invitation) : bool :=
  processing ||
  match user with
  | None => true
  | Some u => negb (String.eqb (user_email u) (invited_email inv))
  end.

Inductive Outcome : Type :=
| NavigateToAuth
| Toast (message : string)
| Send (request : Api.Request).

Definition handleAccept (user : option User) (inv : Invitation) : Outcome :=
  match user with
  | None => NavigateToAuth
  | Some u =>
      if negb (String.eqb (user_email u) (invited_email inv)) then
        Toast "Please log in with the invited email address"
      else
        Send (Api.PostAcceptInvitation (id inv))
  end.

Definition handleDecline (inv : Invitation) : Outcome :=
  Send (Api.DeleteInvitation (id inv)).

Definition permissions (r : ProjectRole) : list string :=
  match r with
  | Owner => ["View all tasks"; "Create new tasks"; "Edit and delete tasks";
              "Manage team members"; "Project settings"]
  | Editor => ["View all tasks"; "Create new tasks"; "Edit and delete tasks"]
  | Viewer => ["View all tasks"]
  end.

Definition cannotDo (r : ProjectRole) : list string :=
  match r with
  | Owner => []
  | Editor => ["Manage team members"; "Project settings"]
  | Viewer => ["Create new tasks"; "Edit or delete tasks";
               "Manage team members"; "Project settings"]
  end.

End InvitationPage.

(* ===================================================================== *)
(** * components/TeamMemberCard.tsx and pages/TeamPage.tsx                *)
(* ===================================================================== *)

Module TeamMemberCard.

Record TeamMember : Type := mkTeamMember {
  user_id : string;
  email : string;
  username : option string;
  role : ProjectRole;
  joined_at : string
}.

Definition canManage (currentUserRole : ProjectRole) (isCurrentUser : bool) : bool :=
  bool_decide (currentUserRole = Owner) && negb isCurrentUser.

Definition isOwner (member : TeamMember) : bool :=
  bool_decide (role member = Owner).

Inductive Action : Type :=
| ChangeTo (newRole : ProjectRole)
| RemoveMember.

(** An entry of the drop-down menu and its [disabled] flag. *)
Definition MenuItem : Type := (Action * bool)%type.

(** The entries rendered for a member card, top to bottom. *)
Definition menu (member : TeamMember) (isCurrentUser : bool)
    (currentUserRole : ProjectRole) : list MenuItem :=
  if canManage currentUserRole isCurrentUser then
    (if negb (isOwner member) then
       [(ChangeTo Owner, false); (ChangeTo Editor, false); (ChangeTo Viewer, false)]
     else [])
    ++ [(RemoveMember, isOwner member)]
  else [].

(** The entries a click can trigger. *)
Definition enabled (member : TeamMember) (isCurrentUser : bool)
    (currentUserRole : ProjectRole) : list Action :=
  map fst (filter (fun it : MenuItem => snd it = false)
                  (menu member isCurrentUser currentUserRole)).

End TeamMemberCard.

Module TeamPage.

Import TeamMemberCard.

Record State : Type := mkState {
  projectId : string;
  members : list TeamMember;
  currentUserId : string;
  currentUserRole : ProjectRole
}.

(** The part of [fetchData] that fills the member state;
    [currentUserRole] keeps its value when the user is not listed. *)
Definition fetchData (me : string) (membersData : list TeamMember)
    (st : State) : State :=
  mkState (projectId st) membersData me
    (match List.find (fun m => String.eqb (user_id m) me) membersData with
     | Some currentMember => role currentMember
     | None => currentUserRole st
     end).

Definition handleChangeRole (st : State) (userId : string)
    (newRole : ProjectRole) : Api.Request :=
  Api.PutMember (projectId st) userId newRole.

Definition handleRemoveMember (st : State) (userId : string) : Api.Request :=
  Api.DeleteMember (projectId st) userId.

(** The request a menu action of [member]'s card ends in (removal goes
    through the confirmation dialog first). *)
Definition request (st : State) (member : TeamMember) (a : Action) : Api.Request :=
  match a with
  | ChangeTo newRole => handleChangeRole st (user_id member) newRole
  | RemoveMember => handleRemoveMember st (user_id member)
  end.

(** Every member-management request the rendered page can send. *)
Definition requests (st : State) : list Api.Request :=
  flat_map
    (fun member =>
       map (request st member)
           (enabled member (String.eqb (user_id member) (currentUserId st))
                    (currentUserRole st)))
    (members st).

End TeamPage.

(* ===================================================================== *)
(** * components/CreateTaskDialog.tsx                                     *)
(* ===================================================================== *)

Module CreateTaskDialog.

(** A zod issue: the field it is about, its kind, and the message given
    in the schema ([None]: zod's own text). *)
Inductive IssueCode : Type := invalid_type | too_small | too_big.

Record Issue : Type := mkIssue {
  path : string;
  code : IssueCode;
  message : option string
}.

(** The object handed to [taskSchema.safeParse]. *)
Record Input : Type := mkInput {
  title : string;
  description : option string;
  effort_estimate : option JS.number
}.

(** [z.string().trim().min(1, 'Title is required').max(200, 'Title too long')] *)
Definition titleIssues (t : string) : list Issue :=
  let t' := JS.trim t in
  (if (String.length t' <? 1)%nat
   then [mkIssue "title" too_small (Some "Title is required")] else [])
  ++
  (if (200 <? String.length t')%nat
   then [mkIssue "title" too_big (Some "Title too long")] else []).

(** [z.string().trim().max(1000, 'Description too long').optional()] *)
Definition descriptionIssues (d : option string) : list Issue :=
  match d with
  | None => []
  | Some d =>
      if (1000 <? String.length (JS.trim d))%nat
      then [mkIssue "description" too_big (Some "Description too long")] else []
  end.

(** [z.number().min(0).max(1000).optional()]; [z.number()] refuses [NaN]. *)
Definition effortIssues (e : option JS.number) : list Issue :=
  match e with
  | None => []
  | Some JS.NaN => [mkIssue "effort_estimate" invalid_type None]
  | Some (JS.Num q) =>
      (if Qle_bool 0 q then [] else [mkIssue "effort_estimate" too_small None])
      ++
      (if Qle_bool q 1000 then [] else [mkIssue "effort_estimate" too_big None])
  end.

Inductive SafeParse : Type :=
| Success (data : Input)
| Failure (errors : list Issue).

(** [taskSchema.safeParse]: issues in the order of the schema's keys;
    on success the strings come back trimmed. *)
Definition taskSchema (i : Input) : SafeParse :=
  match titleIssues (title i) ++ descriptionIssues (description i)
        ++ effortIssues (effort_estimate i) with
  | [] => Success (mkInput (JS.trim (title i)) (JS.trim <$> description i)
                           (effort_estimate i))
  | errors => Failure errors
  end.

(** The form state. *)
Record Form : Type := mkForm {
  form_title : string;
  form_description : string;
  form_priority : TaskPriority;
  form_effortEstimate : string
}.

Inductive Outcome : Type :=
| ShowErrors (fieldErrors : gmap string (option string))
| Send (request : Api.Request).

(** [effortEstimate ? parseInt(effortEstimate) : undefined] *)
Definition effortOf (f : Form) : option JS.number :=
  if JS.truthy (form_effortEstimate f)
  then Some (JS.ofParseInt (JS.parseInt (form_effortEstimate f)))
  else None.

(** [effort || null]: [undefined], [NaN] and [0] become [null]. *)
Definition effortOrNull (e : option JS.number) : option Q :=
  match e with
  | Some (JS.Num q) => if Qeq_bool q 0 then None else Some q
  | _ => None
  end.

Definition handleSubmit (projectId : string) (f : Form) : Outcome :=
  let effort := effortOf f in
  match taskSchema (mkInput (form_title f) (Some (form_description f)) effort) with
  | Failure errors =>
      ShowErrors
        (fold_left
           (fun fieldErrors err =>
              if JS.truthy (path err)
              then <[path err := message err]> fieldErrors
              else fieldErrors)
           errors ∅)
  | Success _ =>
      Send (Api.PostTask projectId
              (mkTaskCreate (JS.trim (form_title f))
                            (JS.orNull (JS.trim (form_description f)))
                            (form_priority f)
                            (effortOrNull effort)
                            false None None user))
  end.

End CreateTaskDialog.

(* ===================================================================== *)
(** * components/TaskCard.tsx                                             *)
(* ===================================================================== *)

Module TaskCard.

(** [a !== b] on [number | null]. *)
Definition numberNe (a b : option Q) : bool :=
  match a, b with
  | Some x, Some y => negb (Qeq_bool x y)
  | None, None => false
  | _, _ => true
  end.

(** [a !== b] on a priority and [priority | null]. *)
Definition priorityNe (a : TaskPriority) (b : option TaskPriority) : bool :=
  negb (bool_decide (Some a = b)).

Definition wasModified (task : Task) : bool :=
  task_ai_generated task &&
  (priorityNe (task_priority task) (task_ai_priority_suggestion task)
   || numberNe (task_effort_estimate task) (task_ai_effort_suggestion task)).

(** The [Partial<Task>] objects the card passes to [onUpdate]: a key
    that is absent is [None]; [description] and [effort_estimate] may
    be present and [null]. *)
Record TaskUpdates : Type := mkTaskUpdates {
  tu_title : option string;
  tu_description : option (option string);
  tu_priority : option TaskPriority;
  tu_effort_estimate : option (option Q);
  tu_status : option string
}.

(** [onValueChange] of the status select: [{ status: value }]. *)
Definition statusUpdates (value : string) : TaskUpdates :=
  mkTaskUpdates None None None None (Some value).

(** [onValueChange] of the priority select: [{ priority: value }]. *)
Definition priorityUpdates (value : TaskPriority) : TaskUpdates :=
  mkTaskUpdates None None (Some value) None None.

End TaskCard.

(* ===================================================================== *)
(** * pages/AIGeneratePage.tsx                                            *)
(* ===================================================================== *)

Module AIGeneratePage.

Record AISuggestion : Type := mkAISuggestion {
  suggestion_id : string;
  title : string;
  description : string;
  priority : TaskPriority;
  priority_reasoning : option string;
  effort_estimate : Q;
  effort_confidence : option string;
  effort_reasoning : option string;
  is_editable : bool;
  source : string;
  modified : bool
}.

(** [Partial<AISuggestion>] restricted to the fields the page updates. *)
Record Updates : Type := mkUpdates {
  upd_title : option string;
  upd_description : option string;
  upd_priority : option TaskPriority;
  upd_effort_estimate : option Q
}.

(** [{ ...s, ...updates, modified: true }] *)
Definition applyUpdates (s : AISuggestion) (u : Updates) : AISuggestion :=
  mkAISuggestion
    (suggestion_id s)
    (default (title s) (upd_title u))
    (default (description s) (upd_description u))
    (default (priority s) (upd_priority u))
    (priority_reasoning s)
    (default (effort_estimate s) (upd_effort_estimate u))
    (effort_confidence s)
    (effort_reasoning s)
    (is_editable s)
    (source s)
    true.

(** [handleGenerate] on a well-formed response: every suggestion
    starts unmodified ([freshId] stands for the generated temporary
    id used when the response carries none). *)
Definition handleGenerate (freshId : nat -> string)
    (response : list AISuggestion) : list AISuggestion :=
  imap (fun i s =>
          mkAISuggestion
            (JS.orElse (suggestion_id s) (freshId i))
            (title s) (description s) (priority s) (priority_reasoning s)
            (effort_estimate s) (effort_confidence s) (effort_reasoning s)
            (is_editable s) (source s) false)
       response.

Definition handleUpdate (suggestions : list AISuggestion) (id : string)
    (updates : Updates) : list AISuggestion :=
  (fun s => if String.eqb (suggestion_id s) id
            then applyUpdates s updates else s) <$> suggestions.

(** [onChange] of the title input and of the description text area:
    [{ ...s, title: e.target.value, modified: true }]. *)
Definition changeTitle (suggestions : list AISuggestion) (id : string)
    (value : string) : list AISuggestion :=
  (fun s => if String.eqb (suggestion_id s) id
            then applyUpdates s (mkUpdates (Some value) None None None) else s)
    <$> suggestions.

Definition changeDescription (suggestions : list AISuggestion) (id : string)
    (value : string) : list AISuggestion :=
  (fun s => if String.eqb (suggestion_id s) id
            then applyUpdates s (mkUpdates None (Some value) None None) else s)
    <$> suggestions.

(** [onValueChange] of the priority select. *)
Definition changePriority (suggestions : list AISuggestion) (id : string)
    (value : TaskPriority) : list AISuggestion :=
  handleUpdate suggestions id (mkUpdates None None (Some value) None).

(** [onChange] of the effort input:
    [effort_estimate: parseInt(e.target.value) || 0]. *)
Definition changeEffort (suggestions : list AISuggestion) (id : string)
    (value : string) : list AISuggestion :=
  handleUpdate suggestions id
    (mkUpdates None None None
               (Some (inject_Z (JS.intOrZero (JS.parseInt value))))).

Definition handleRemove (suggestions : list AISuggestion) (id : string)
    : list AISuggestion :=
  filter (fun s => suggestion_id s ≠ id) suggestions.

(** [handleAddManual]; [newId] is the generated [manual-...] id. *)
Definition handleAddManual (suggestions : list AISuggestion) (newId : string)
    : list AISuggestion :=
  suggestions ++
  [mkAISuggestion newId "" "" medium None (4#1) None None true "user" false].

(** [s => s.title.trim()] as a filter predicate. *)
Definition hasTitle (s : AISuggestion) : Prop :=
  JS.truthy (JS.trim (title s)) = true.

Global Instance hasTitle_dec s : Decision (hasTitle s).
Proof. unfold hasTitle. apply _. Defined.

Definition isGemini (s : AISuggestion) : bool := String.eqb (source s) "gemini".

(** The object built by the [.map] of [handleSave]. *)
Definition toTaskCreate (s : AISuggestion) : TaskCreate :=
  mkTaskCreate
    (JS.trim (title s))
    (JS.orNull (JS.trim (description s)))
    (priority s)
    (Some (effort_estimate s))
    (isGemini s)
    (if isGemini s then Some (priority s) else None)
    (if isGemini s then Some (effort_estimate s) else None)
    (if isGemini s then ai else user).

Definition tasksToCreate (suggestions : list AISuggestion) : list TaskCreate :=
  toTaskCreate <$> filter hasTitle suggestions.

Definition handleSave (projectId : string) (suggestions : list AISuggestion)
    : Api.Request :=
  Api.PostTasksBulk projectId (tasksToCreate suggestions).

(** [handleConfirm]: [true] when the page moves on to step 3. *)
Definition handleConfirm (suggestions : list AISuggestion) : bool :=
  negb (length (filter hasTitle suggestions) =? 0)%nat.

(** The counts of the summary: [suggestions.filter(...).length]. *)
Definition modifiedCount (suggestions : list AISuggestion) : nat :=
  length (filter (fun s => modified s = true) suggestions).

Definition aiGeneratedCount (suggestions : list AISuggestion) : nat :=
  length (filter (fun s => source s = "gemini") suggestions).

Definition manualCount (suggestions : list AISuggestion) : nat :=
  length (filter (fun s => source s = "user") suggestions).

End AIGeneratePage.

(* ===================================================================== *)
(** * JavaScript numbers, and pages/ProjectDetail.tsx                     *)
(* ===================================================================== *)

(** The arithmetic of JavaScript numbers, as far as the progress bar
    uses it: number literals, [+], [*], [/], [>], [ToBoolean] and
    [Math.round].  [Math_round] gives [None] when the result is not an
    integer ([NaN] or an infinity). *)
Class Arith : Type := mkArith {
  num : Type;
  lit : Q -> num;
  add : num -> num -> num;
  mul : num -> num -> num;
  div : num -> num -> num;
  gtb : num -> num -> bool;
  truthy : num -> bool;
  Math_round : num -> option Z
}.

(** Rounding to the nearest representable value: monotone, the identity
    on representable values, exact on 0, 1 and 100. *)
Class Rounding : Type := mkRounding {
  rnd : Q -> Q;
  rnd_mono : forall x y : Q, (x <= y)%Q -> (rnd x <= rnd y)%Q;
  rnd_idem : forall x : Q, (rnd (rnd x) == rnd x)%Q;
  rnd_0 : (rnd 0 == 0)%Q;
  rnd_1 : (rnd 1 == 1)%Q;
  rnd_100 : (rnd 100 == 100)%Q
}.

(** Floating point without overflow: every operation returns the exact
    rational result, rounded.  This is double arithmetic as long as no
    operation leaves the range of the finite doubles and no divisor is
    zero: a quotient by zero, an infinity or [NaN] in doubles, has no
    counterpart in [Q], where [x / 0] is 0. *)
Definition unbounded (R : Rounding) : Arith :=
  mkArith Q rnd
          (fun x y => rnd (x + y)%Q)
          (fun x y => rnd (x * y)%Q)
          (fun x y => rnd (x / y)%Q)
          (fun x y => if Qlt_le_dec y x then true else false)
          (fun x => negb (Qeq_bool x 0))
          (fun x => Some (Qfloor (x + (1 # 2)))).

(** IEEE 754 binary64, the arithmetic of JavaScript, on the reference
    implementation of the standard library. *)
Module Binary64.

Definition prec : Z := 53.
Definition emax : Z := 1024.

(** The double nearest to a rational (ties to even). *)
Definition ofQ (q : Q) : spec_float :=
  match Qnum q with
  | Z0 => S754_zero false
  | Zpos n => SFdiv prec emax (S754_finite false n 0) (S754_finite false (Qden q) 0)
  | Zneg n => SFdiv prec emax (S754_finite true n 0) (S754_finite false (Qden q) 0)
  end.

(** [ToBoolean]: zeros and [NaN] are falsy. *)
Definition toBoolean (x : spec_float) : bool :=
  match x with
  | S754_zero _ | S754_nan => false
  | _ => true
  end.

(** [Math.round] of a finite double [m * 2^e]: the floor of the value
    plus one half. *)
Definition round (x : spec_float) : option Z :=
  match x with
  | S754_zero _ => Some 0
  | S754_finite s m e =>
      let n := if s then Z.neg m else Z.pos m in
      Some (if 0 <=? e then n * 2 ^ e
            else (n + 2 ^ (- e - 1)) / 2 ^ (- e))
  | S754_infinity _ | S754_nan => None
  end.

Definition arith : Arith :=
  mkArith spec_float ofQ (SFadd prec emax) (SFmul prec emax) (SFdiv prec emax)
          (fun x y => SFltb y x) toBoolean round.

End Binary64.

Module ProjectDetail.

Section WithArith.

Context {A : Arith}.

(** [t.effort_estimate || 0] *)
Definition effortOrZero (t : Task) : num :=
  match task_effort_estimate t with
  | Some q => if truthy (lit q) then lit q else lit 0
  | None => lit 0
  end.

Definition isDone (t : Task) : Prop := task_status t = "done".

Definition todoTasks (tasks : list Task) : list Task :=
  filter (fun t => task_status t = "todo") tasks.
Definition inProgressTasks (tasks : list Task) : list Task :=
  filter (fun t => task_status t = "in_progress") tasks.
Definition doneTasks (tasks : list Task) : list Task :=
  filter isDone tasks.

(** [ts.reduce((sum, t) => sum + (t.effort_estimate || 0), 0)] *)
Definition sumEffort (ts : list Task) : num :=
  fold_left (fun sum t => add sum (effortOrZero t)) ts (lit 0).

Definition totalEffort (tasks : list Task) : num := sumEffort tasks.
Definition completedEffort (tasks : list Task) : num := sumEffort (doneTasks tasks).

(** [totalEffort > 0 ? Math.round((completedEffort / totalEffort) * 100) : 0] *)
Definition progressPercent (tasks : list Task) : option Z :=
  if gtb (totalEffort tasks) (lit 0) then
    Math_round (mul (div (completedEffort tasks) (totalEffort tasks)) (lit 100))
  else Some 0.

End WithArith.

(** [{ ...t, ...updates }] *)
Definition mergeTask (t : Task) (updates : TaskCard.TaskUpdates) : Task :=
  mkTask (task_id t) (task_project_id t)
         (default (task_title t) (TaskCard.tu_title updates))
         (default (task_description t) (TaskCard.tu_description updates))
         (default (task_priority t) (TaskCard.tu_priority updates))
         (default (task_status t) (TaskCard.tu_status updates))
         (default (task_effort_estimate t) (TaskCard.tu_effort_estimate updates))
         (task_ai_generated t) (task_ai_priority_suggestion t)
         (task_ai_effort_suggestion t) (task_created_by t).

(** [handleTaskUpdated]: the new task list, given the list the page
    shows and the outcome of [PUT /tasks/:id]. *)
Definition handleTaskUpdated (tasks : list Task) (taskId : string)
    (updates : TaskCard.TaskUpdates) (res : Api.Result unit) : list Task :=
  match res with
  | Api.Resolved _ =>
      (fun t => if String.eqb (task_id t) taskId then mergeTask t updates else t)
        <$> tasks
  | Api.Rejected _ => tasks
  end.

(** [handleTaskDeleted], given the outcome of [DELETE /tasks/:id]. *)
Definition handleTaskDeleted (tasks : list Task) (taskId : string)
    (res : Api.Result unit) : list Task :=
  match res with
  | Api.Resolved _ => filter (fun t => task_id t ≠ taskId) tasks
  | Api.Rejected _ => tasks
  end.

End ProjectDetail.

(* ===================================================================== *)
(** * The REST back end                                                   *)
(* ===================================================================== *)

Module Backend.

(** Modelled from the spec: the error kinds of the API. *)
Inductive ErrorKind : Type :=
| ValidationError | Unauthorized | Forbidden | NotFound
| Conflict | Gone | Expired | AIServiceError.

(** Modelled from the spec: a stored invitation. *)
Record Invitation : Type := mkInvitation {
  inv_id : string;
  inv_project : string;
  inv_email : string;
  inv_role : ProjectRole;
  inv_created_at : Z;
  inv_expires_at : Z;
  inv_accepted_at : option Z
}.

(** Modelled from the spec: the relational store behind the REST
    routes, which is not among the front-end sources.  Memberships map
    (project, user) to a role, invitations are found by their token,
    tasks are kept in the order they were persisted. *)
Record Store : Type := mkStore {
  projects : gset string;
  memberships : gmap (string * string) ProjectRole;
  invitations : gmap string Invitation;
  tasks : list (string * TaskCreate)
}.

Definition empty : Store := mkStore ∅ ∅ ∅ [].

(** The outcome of one API call: the store to commit, or the error
    kind returned to the caller. *)
Inductive Result : Type :=
| Done (s : Store)
| Fail (e : ErrorKind).

(** Modelled from the spec: one transaction per API call, so a failed
    call leaves the store as it was. *)
Definition commit (s : Store) (r : Result) : Store :=
  match r with
  | Done s' => s'
  | Fail _ => s
  end.

(** Modelled from the spec: [checkAccess(project, user, requiredRole)],
    [NotFound] for a missing project, [Forbidden] without a membership
    or with an insufficient role. *)
Definition checkAccess (s : Store) (project user : string)
    (required : ProjectRole) : option ErrorKind :=
  if decide (project ∈ projects s) then
    match memberships s !! (project, user) with
    | Some r => if role_leb required r then None else Some Forbidden
    | None => Some Forbidden
    end
  else Some NotFound.

(** Modelled from the spec: [createProject(owner, title, description)],
    title 1 to 100 characters, description at most 1000; the project
    and its Owner membership are created together.  [project] stands
    for the generated id. *)
Definition createProject (owner project title : string)
    (description : option string) (s : Store) : Result :=
  if ((1 <=? String.length title) && (String.length title <=? 100)
      && (from_option String.length 0 description <=? 1000))%nat
  then Done (mkStore ({[project]} ∪ projects s)
                     (<[(project, owner) := Owner]> (memberships s))
                     (invitations s) (tasks s))
  else Fail ValidationError.

Definition isOwnerOf (project : string) (kv : string * string * ProjectRole) : Prop :=
  kv.1.1 = project ∧ kv.2 = Owner.

Global Instance isOwnerOf_dec project kv : Decision (isOwnerOf project kv).
Proof. unfold isOwnerOf. apply _. Defined.

(** The Owner memberships of a project. *)
Definition owners (s : Store) (project : string) : gmap (string * string) ProjectRole :=
  filter (isOwnerOf project) (memberships s).

Definition ownerCount (s : Store) (project : string) : nat :=
  size (owners s project).


(** Modelled from the spec: member removal (the route is not among the
    front-end sources).  The caller must be Owner, and the membership of
    the target is deleted.  The spec asks for [Conflict] when the target
    is the last remaining Owner, and reports in its sections 3 and 9
    that the source makes no such check: none is made here. *)
Definition removeMember (actor project target : string) (s : Store) : Result :=
  match checkAccess s project actor Owner with
  | Some e => Fail e
  | None =>
      match memberships s !! (project, target) with
      | None => Fail NotFound
      | Some _ =>
          Done (mkStore (projects s)
                        (delete (project, target) (memberships s))
                        (invitations s) (tasks s))
      end
  end.

(** Modelled from the spec: role change (the route is not among the
    front-end sources).  The caller must be Owner, and the membership of
    the target gets the new role; as for the removal, the source is
    reported not to protect the last Owner. *)
Definition changeMemberRole (actor project target : string)
    (newRole : ProjectRole) (s : Store) : Result :=
  match checkAccess s project actor Owner with
  | Some e => Fail e
  | None =>
      match memberships s !! (project, target) with
      | None => Fail NotFound
      | Some _ =>
          Done (mkStore (projects s)
                        (<[(project, target) := newRole]> (memberships s))
                        (invitations s) (tasks s))
      end
  end.

(** The member-management calls. *)
Inductive Op : Type :=
| RemoveMember (actor project target : string)
| ChangeMemberRole (actor project target : string) (newRole : ProjectRole).

Definition exec (o : Op) (s : Store) : Result :=
  match o with
  | RemoveMember actor project target => removeMember actor project target s
  | ChangeMemberRole actor project target newRole =>
      changeMemberRole actor project target newRole s
  end.

(** The store after a sequence of calls, each committed or rolled back. *)
Definition run (ops : list Op) (s : Store) : Store :=
  fold_left (fun s o => commit s (exec o s)) ops s.

Definition hasOwner (s : Store) (project : string) : Prop :=
  ∃ u, memberships s !! (project, u) = Some Owner.

(** Modelled from the spec: the fixed invitation lifetime, 7 days. *)
Definition invitationTTL : Z := 7 * 24 * 60 * 60 * 1000.

(** Modelled from the spec: [createInvitation(actor, project, email,
    role)], Owner only; [token] and [newId] stand for the generated
    token and row id. *)
Definition createInvitation (actor project email : string) (role : ProjectRole)
    (now : Z) (token newId : string) (s : Store) : Result :=
  match checkAccess s project actor Owner with
  | Some e => Fail e
  | None =>
      Done (mkStore (projects s) (memberships s)
                    (<[token := mkInvitation newId project email role now
                                             (now + invitationTTL) None]>
                       (invitations s))
                    (tasks s))
  end.

(** Modelled from the spec: [acceptInvitation(token, acceptingUser)]:
    [NotFound] for an unknown token, [Gone] once accepted, [Expired]
    past the expiry time, [Forbidden] when the user's email is not the
    invited one (exact string equality); on success the membership is
    created or updated with the invited role and the invitation is
    marked accepted. *)
Definition acceptInvitation (token : string) (acceptingUser : User) (now : Z)
    (s : Store) : Result :=
  match invitations s !! token with
  | None => Fail NotFound
  | Some inv =>
      match inv_accepted_at inv with
      | Some _ => Fail Gone
      | None =>
          if inv_expires_at inv <? now then Fail Expired
          else if negb (String.eqb (user_email acceptingUser) (inv_email inv))
          then Fail Forbidden
          else
            Done (mkStore (projects s)
                          (<[(inv_project inv, user_id acceptingUser) := inv_role inv]>
                             (memberships s))
                          (<[token := mkInvitation (inv_id inv) (inv_project inv)
                                                   (inv_email inv) (inv_role inv)
                                                   (inv_created_at inv)
                                                   (inv_expires_at inv) (Some now)]>
                             (invitations s))
                          (tasks s))
      end
  end.

(** Modelled from the spec: the per-item validation of [createTask],
    title 1 to 200 characters and effort estimate, if present, at
    least 0. *)
Definition validTask (t : TaskCreate) : bool :=
  ((1 <=? String.length (tc_title t)) && (String.length (tc_title t) <=? 200))%nat
  && match tc_effort_estimate t with
     | Some q => Qle_bool 0 q
     | None => true
     end.

(** Modelled from the spec: [createTask(actor, project, fields)],
    Editor or Owner. *)
Definition createTask (actor project : string) (fields : TaskCreate)
    (s : Store) : Result :=
  match checkAccess s project actor Editor with
  | Some e => Fail e
  | None =>
      if validTask fields then
        Done (mkStore (projects s) (memberships s) (invitations s)
                      (tasks s ++ [(project, fields)]))
      else Fail ValidationError
  end.

(** Modelled from the spec: [bulkCreateTasks(actor, project, list)],
    the validation of [createTask] on every item, the whole batch
    rejected if one item fails, the tasks persisted in the order
    supplied. *)
Definition bulkCreateTasks (actor project : string) (items : list TaskCreate)
    (s : Store) : Result :=
  match checkAccess s project actor Editor with
  | Some e => Fail e
  | None =>
      if forallb validTask items then
        Done (mkStore (projects s) (memberships s) (invitations s)
                      (tasks s ++ (pair project <$> items)))
      else Fail ValidationError
  end.

End Backend.

(* ===================================================================== *)
(** * Regular expressions, and components/InviteMemberForm.tsx            *)
(* ===================================================================== *)

(** The fragment of regular expressions the forms use, matched against
    a whole string (the patterns are anchored with [^] and [$]). *)
Module Regex.

Inductive re : Type :=
| Void
| Eps
| Class (p : ascii -> bool)
| Cat (r1 r2 : re)
| Alt (r1 r2 : re)
| Star (r : re).

(** [r+] *)
Definition Plus (r : re) : re := Cat r (Star r).

Fixpoint nullable (r : re) : bool :=
  match r with
  | Void => false
  | Eps => true
  | Class _ => false
  | Cat r1 r2 => nullable r1 && nullable r2
  | Alt r1 r2 => nullable r1 || nullable r2
  | Star _ => true
  end.

(** The expression matching what may follow the character [c]. *)
Fixpoint deriv (c : ascii) (r : re) : re :=
  match r with
  | Void => Void
  | Eps => Void
  | Class p => if p c then Eps else Void
  | Cat r1 r2 =>
      if nullable r1 then Alt (Cat (deriv c r1) r2) (deriv c r2)
      else Cat (deriv c r1) r2
  | Alt r1 r2 => Alt (deriv c r1) (deriv c r2)
  | Star r1 => Cat (deriv c r1) (Star r1)
  end.

(** [/^r$/.test(s)] *)
Fixpoint test (r : re) (s : string) : bool :=
  match s with
  | EmptyString => nullable r
  | String c s' => test (deriv c r) s'
  end.

(** The strings an expression denotes. *)
Inductive Matches : re -> string -> Prop :=
| MEps : Matches Eps ""
| MClass (p : ascii -> bool) (c : ascii) : p c = true -> Matches (Class p) (String c "")
| MCat (r1 r2 : re) (s1 s2 : string) :
    Matches r1 s1 -> Matches r2 s2 -> Matches (Cat r1 r2) (s1 +:+ s2)
| MAltL (r1 r2 : re) (s : string) : Matches r1 s -> Matches (Alt r1 r2) s
| MAltR (r1 r2 : re) (s : string) : Matches r2 s -> Matches (Alt r1 r2) s
| MStarNil (r : re) : Matches (Star r) ""
| MStarCons (r : re) (s1 s2 : string) :
    Matches r s1 -> Matches (Star r) s2 -> Matches (Star r) (s1 +:+ s2).

End Regex.

Module InviteMemberForm.

(** [[^\s@]]: neither white space nor an at sign. *)
Definition plain (c : ascii) : bool :=
  negb (JS.isWhiteSpace c) && negb (Ascii.eqb c "@").

(** [/^[^\s@]+@[^\s@]+\.[^\s@]+$/] *)
Definition emailRegex : Regex.re :=
  Regex.Cat (Regex.Plus (Regex.Class plain))
    (Regex.Cat (Regex.Class (Ascii.eqb "@"))
       (Regex.Cat (Regex.Plus (Regex.Class plain))
          (Regex.Cat (Regex.Class (Ascii.eqb "."))
             (Regex.Plus (Regex.Class plain))))).

Definition validateEmail (email : string) : bool := Regex.test emailRegex email.

(** The form state: the email typed and the role selected. *)
Record State : Type := mkState {
  email : string;
  role : ProjectRole
}.

Definition initial : State := mkState "" Editor.

Inductive Outcome : Type :=
| Toast (message : string)
| PostInvitation (projectId invited_email : string) (role : ProjectRole).

Definition handleInvite (projectId : string) (st : State) : Outcome :=
  if negb (JS.truthy (JS.trim (email st))) then
    Toast "Please enter an email address"
  else if negb (validateEmail (email st)) then
    Toast "Please enter a valid email address"
  else
    PostInvitation projectId (JS.trim (email st)) (role st).

End InviteMemberForm.

(* ===================================================================== *)
(** * components/CreateProjectDialog.tsx and pages/Auth.tsx               *)
(* ===================================================================== *)

(** The checks of the two pages all carry their message, so an issue
    is the field and the message; [fieldErrors] keeps the last message
    of each field. *)
Module Forms.

Definition Issue : Type := (string * string)%type.

(** [validation.error.errors.forEach(err => { if (err.path[0])
    fieldErrors[err.path[0]] = err.message })] *)
Definition fieldErrors (errors : list Issue) : gmap string string :=
  fold_left
    (fun fe (err : Issue) => if JS.truthy err.1 then <[err.1 := err.2]> fe else fe)
    errors ∅.

(** [.min(lo, tooShort)] then [.max(hi, tooLong)] on a string. *)
Definition lengthIssues (path : string) (lo : nat) (tooShort : string)
    (hi : nat) (tooLong : string) (s : string) : list Issue :=
  (if (String.length s <? lo)%nat then [(path, tooShort)] else [])
  ++ (if (hi <? String.length s)%nat then [(path, tooLong)] else []).

End Forms.

Module CreateProjectDialog.

Record Form : Type := mkForm {
  title : string;
  description : string
}.

(** Body of [POST /projects]. *)
Record ProjectCreate : Type := mkProjectCreate {
  pc_title : string;
  pc_description : option string
}.

(** [projectSchema.safeParse({ title, description })]: the issues, in the
    order of the schema's keys. *)
Definition projectSchema (f : Form) : list Forms.Issue :=
  Forms.lengthIssues "title" 1 "Title is required" 100 "Title too long"
                     (JS.trim (title f))
  ++ (if (1000 <? String.length (JS.trim (description f)))%nat
      then [("description", "Description too long")] else []).

Inductive Outcome : Type :=
| ShowErrors (fieldErrors : gmap string string)
| PostProject (body : ProjectCreate).

Definition handleSubmit (f : Form) : Outcome :=
  match projectSchema f with
  | [] => PostProject (mkProjectCreate (JS.trim (title f))
                                       (JS.orNull (JS.trim (description f))))
  | errors => ShowErrors (Forms.fieldErrors errors)
  end.

End CreateProjectDialog.

Module AuthPage.

Section WithEmailCheck.

(** zod's [.email()] check, which is part of the library. *)
Variable isEmail : string -> bool.

Record SignUpData : Type := mkSignUpData {
  su_email : string;
  su_password : string;
  su_username : string
}.

Record SignInData : Type := mkSignInData {
  si_email : string;
  si_password : string
}.

(** [z.string().email('Invalid email address').max(255, 'Email too long')] *)
Definition emailIssues (e : string) : list Forms.Issue :=
  (if isEmail e then [] else [("email", "Invalid email address")])
  ++ (if (255 <? String.length e)%nat then [("email", "Email too long")] else []).

(** [z.string().min(6, ...).max(100, 'Password too long')] *)
Definition passwordIssues (p : string) : list Forms.Issue :=
  Forms.lengthIssues "password" 6 "Password must be at least 6 characters"
                     100 "Password too long" p.

(** [z.string().trim().min(2, ...).max(50, 'Username too long')] *)
Definition usernameIssues (u : string) : list Forms.Issue :=
  Forms.lengthIssues "username" 2 "Username must be at least 2 characters"
                     50 "Username too long" (JS.trim u).

Definition signUpSchema (d : SignUpData) : list Forms.Issue :=
  emailIssues (su_email d) ++ passwordIssues (su_password d)
  ++ usernameIssues (su_username d).

Definition signInSchema (d : SignInData) : list Forms.Issue :=
  emailIssues (si_email d) ++ passwordIssues (si_password d).

Inductive Outcome : Type :=
| ShowErrors (fieldErrors : gmap string string)
| SignUp (email password username : string)
| SignIn (email password : string).

Definition handleSignUp (d : SignUpData) : Outcome :=
  match signUpSchema d with
  | [] => SignUp (su_email d) (su_password d) (su_username d)
  | errors => ShowErrors (Forms.fieldErrors errors)
  end.

Definition handleSignIn (d : SignInData) : Outcome :=
  match signInSchema d with
  | [] => SignIn (si_email d) (si_password d)
  | errors => ShowErrors (Forms.fieldErrors errors)
  end.

End WithEmailCheck.

End AuthPage.

(* ===================================================================== *)
(** * pages/Dashboard.tsx: the projects and the counters on the page      *)
(* ===================================================================== *)

Module DashboardPage.

(** The part of the page state the statistics cards and the project
    list read. *)
Record State : Type := mkState {
  projects : list Project;
  taskStats : Dashboard.TaskStats
}.

Definition initial : State := mkState [] (Dashboard.mkTaskStats 0 0 0).

(** [fetchProjects]: [setProjects(data || [])], nothing on an error. *)
Definition fetchProjects (res : Api.Result (option (list Project))) (st : State)
    : State :=
  match res with
  | Api.Resolved data => mkState (default [] data) (taskStats st)
  | Api.Rejected _ => st
  end.

(** [fetchTaskStats]: the task lists of the projects, one per project,
    or the error of the first request that failed. *)
Definition fetchTaskStats (res : Api.Result (list (list Task))) (st : State)
    : State :=
  match res with
  | Api.Resolved projectTasks =>
      mkState (projects st) (Dashboard.fetchTaskStats projectTasks)
  | Api.Rejected _ => st
  end.

(** [handleProjectDeleted], given the outcome of [DELETE /projects/:id]. *)
Definition handleProjectDeleted (projectId : string) (res : Api.Result unit)
    (st : State) : State :=
  match res with
  | Api.Resolved _ =>
      mkState (filter (fun p => project_id p ≠ projectId) (projects st))
              (taskStats st)
  | Api.Rejected _ => st
  end.

(** [totalProjects={projects.length}] of [StatisticsCards]. *)
Definition totalProjects (st : State) : nat := length (projects st).

End DashboardPage.

(* ===================================================================== *)
(** * components/PendingInvitation.tsx and its handlers in TeamPage.tsx   *)
(* ===================================================================== *)

Module PendingInvitation.

Inductive Toast : Type :=
| Success (message : string)
| Error (message : string).

(** What an awaited handler did by the time its promise settled: the
    toasts it showed, in order, and how the promise settled. *)
Definition Effect : Type := (list Toast * Api.Result unit)%type.

(** [handleResendInvitation] of the team page, given the outcome of
    [POST /team/invitations/:id/resend]: the error is caught there. *)
Definition handleResendInvitation (res : Api.Result unit) : Effect :=
  match res with
  | Api.Resolved _ => ([Success "Invitation resent successfully"], Api.Resolved tt)
  | Api.Rejected message => ([Error message], Api.Resolved tt)
  end.

(** [handleCancelInvitation] of the team page, given the outcome of
    [DELETE /team/invitations/:id].  The [fetchData()] it starts on
    success is not awaited: what that shows comes later. *)
Definition handleCancelInvitation (res : Api.Result unit) : Effect :=
  match res with
  | Api.Resolved _ => ([Success "Invitation cancelled"], Api.Resolved tt)
  | Api.Rejected message => ([Error message], Api.Resolved tt)
  end.

(** [handleResend]: [await onResend(invitation.id)], then the card's own
    toast. *)
Definition handleResend (onResend : Effect) : list Toast :=
  fst onResend ++
  match snd onResend with
  | Api.Resolved _ => [Success "Invitation resent successfully"]
  | Api.Rejected message => [Error (JS.orElse message "Failed to resend invitation")]
  end.

Definition handleCancel (onCancel : Effect) : list Toast :=
  fst onCancel ++
  match snd onCancel with
  | Api.Resolved _ => [Success "Invitation cancelled"]
  | Api.Rejected message => [Error (JS.orElse message "Failed to cancel invitation")]
  end.

(** [new Date(invitation.expires_at) < new Date()] *)
Definition isExpired (now expires_at : Z) : bool := expires_at <? now.

End PendingInvitation.

(* ===================================================================== *)
(** * Vocabulary of the properties and running examples                 *)
(* ===================================================================== *)

(** ** Status classes of the dashboard *)

Section DashboardVocabulary.

Import Dashboard.

Definition isCompleted (t : Task) : Prop := task_status t = "done".
Definition isInProgress (t : Task) : Prop := task_status t = "in_progress".
Definition isTodo (t : Task) : Prop :=
  task_status t ≠ "done" ∧ task_status t ≠ "in_progress".

End DashboardVocabulary.

(** ** Bounds on the task form *)

Section CreateTaskVocabulary.

Import CreateTaskDialog.

(** What the form hands to the schema. *)
Definition inputOf (f : Form) : Input :=
  mkInput (form_title f) (Some (form_description f)) (effortOf f).

Definition titleWithinBounds (t : string) : Prop :=
  (1 <= String.length (JS.trim t) <= 200)%nat.

Definition descriptionWithinBounds (d : option string) : Prop :=
  match d with
  | Some d => (String.length (JS.trim d) <= 1000)%nat
  | None => True
  end.

Definition effortWithinBounds (e : option JS.number) : Prop :=
  match e with
  | None => True
  | Some JS.NaN => False
  | Some (JS.Num q) => (0 <= q)%Q ∧ (q <= 1000)%Q
  end.

(** The bounds the schema enforces. *)
Definition withinBounds (i : Input) : Prop :=
  titleWithinBounds (title i)
  ∧ descriptionWithinBounds (description i)
  ∧ effortWithinBounds (effort_estimate i).

(** The bounds as the written rule has them: a trimmed title of 1 to
    200 characters and an effort estimate that, if present, is at
    least 0. *)
Definition statedBounds (i : Input) : Prop :=
  titleWithinBounds (title i)
  ∧ match effort_estimate i with
    | None => True
    | Some JS.NaN => False
    | Some (JS.Num q) => (0 <= q)%Q
    end.

End CreateTaskVocabulary.

(** ** Running examples: suggestions, a project, an invitation *)

Section SaveVocabulary.

Import AIGeneratePage.

(** The task the API returns for a stored item. *)
Definition taskOfRow (id status : string) (row : string * TaskCreate) : Task :=
  mkTask id row.1 (tc_title row.2) (tc_description row.2) (tc_priority row.2)
         status (tc_effort_estimate row.2) (tc_ai_generated row.2)
         (tc_ai_priority_suggestion row.2) (tc_ai_effort_suggestion row.2)
         (tc_created_by row.2).

(** The save path end to end: the bulk request of [handleSave] served
    by the back end. *)
Definition savePath (actor project : string) (suggestions : list AISuggestion)
    (s : Backend.Store) : Backend.Store :=
  Backend.commit s
    (Backend.bulkCreateTasks actor project (tasksToCreate suggestions) s).

(** The suggestion the AI service returned in the running example. *)
Definition suggested : AISuggestion :=
  mkAISuggestion "s1" "Design schema" "Tables and keys" high
                 (Some "Blocks everything else") (8 # 1) (Some "medium")
                 (Some "Similar to past work") true "gemini" false.

(** A suggestion the user added and left without a title, and one
    added with a title. *)
Definition untitled : AISuggestion :=
  mkAISuggestion "manual-1" "   " "" medium None (4 # 1) None None true "user" false.

Definition titled : AISuggestion :=
  mkAISuggestion "manual-2" "Write docs" "" medium None (4 # 1) None None true "user" false.

(** A store with one project, "p1", owned by "u1". *)
Definition launchStore : Backend.Store :=
  Backend.commit Backend.empty
    (Backend.createProject "u1" "p1" "Launch" None Backend.empty).

(** Bob is invited to "Launch" as Editor at time 0 and tries to accept
    eight days later. *)
Definition invitedStore : Backend.Store :=
  Backend.commit launchStore
    (Backend.createInvitation "u1" "p1" "bob@x.com" Editor 0 "tok" "i1" launchStore).

End SaveVocabulary.

(** ** A team *)

Section MembershipVocabulary.

Import Backend.

(** "Launch" shared by two Owners and an Editor. *)
Definition teamStore : Store :=
  mkStore {["p1"]}
          (<[("p1", "u1") := Owner]>
             (<[("p1", "u2") := Owner]> (<[("p1", "u3") := Editor]> ∅)))
          ∅ [].

(** One Owner removes the other, then steps down. *)
Definition teamOps : list Op :=
  [RemoveMember "u1" "p1" "u2";
   ChangeMemberRole "u1" "p1" "u1" Editor].

(** The caller of the call is its own target. *)
Definition selfTargeting (o : Op) : Prop :=
  match o with
  | RemoveMember actor _ target => actor = target
  | ChangeMemberRole actor _ target _ => actor = target
  end.

End MembershipVocabulary.

(** ** Efforts and roundings *)

Section ProgressVocabulary.

(** The value is one the arithmetic can produce. *)
Definition representable `{R : Rounding} (x : Q) : Prop := (rnd x == x)%Q.

Definition nonNegativeEffort (t : Task) : Prop :=
  match task_effort_estimate t with
  | Some q => (0 <= q)%Q
  | None => True
  end.

(** Exact arithmetic. *)
Definition exactRounding : Rounding :=
  mkRounding (fun x => x) (fun x y H => H) (fun x => Qeq_refl x)
             (Qeq_refl 0%Q) (Qeq_refl 1%Q) (Qeq_refl 100%Q).

(** Binary fixed point with ten fractional bits: the nearest multiple
    of 1/1024, ties upwards. *)
Definition round10 (x : Q) : Q := (Qfloor (x * 1024 + (1 # 2)) # 1024)%Q.

(** 29 of 200 hours done. *)
Definition sprint : list Task :=
  [mkTask "t1" "p1" "Design schema" None high "done" (Some 29%Q) true
          (Some high) (Some 29%Q) ai;
   mkTask "t2" "p1" "Build API" None medium "in_progress" (Some 171%Q) false
          None None user;
   mkTask "t3" "p1" "Write docs" None low "todo" None false None None user].

(** Two finished tasks estimated at 1e308 hours each. *)
Definition hugeTasks : list Task :=
  [mkTask "t1" "p1" "Boil the ocean" None high "done"
          (Some (inject_Z (10 ^ 308))) false None None user;
   mkTask "t2" "p1" "Boil it again" None high "done"
          (Some (inject_Z (10 ^ 308))) false None None user].

End ProgressVocabulary.

(** ** Trimmed strings, well-formed addresses and the bounds of the forms *)

Section FormVocabulary.

(** [trimStart] and [trim] on the list of characters. *)
Fixpoint ltrim (l : list ascii) : list ascii :=
  match l with
  | [] => []
  | c :: l' => if JS.isWhiteSpace c then ltrim l' else l
  end.

Definition clean (l : list ascii) : Prop :=
  match l with
  | [] => True
  | c :: _ => JS.isWhiteSpace c = false
  end.

(** A trimmed string is empty or starts and ends with a character that
    is not white space. *)
Definition trimmed (s : string) : Prop :=
  clean (list_ascii_of_string s) ∧ clean (rev (list_ascii_of_string s)).

End FormVocabulary.

Section InviteVocabulary.

Import InviteMemberForm.

(** A non-empty run of characters that are neither white space nor
    at signs. *)
Definition plainText (s : string) : Prop :=
  s ≠ "" ∧ Forall (fun c => plain c = true) (list_ascii_of_string s).

(** local@domain.tld, each part plain text (the domain may itself
    contain dots). *)
Definition wellFormedEmail (s : string) : Prop :=
  exists l a b : string,
    s = l +:+ "@" +:+ a +:+ "." +:+ b
    ∧ plainText l ∧ plainText a ∧ plainText b.

End InviteVocabulary.

Section DialogVocabulary.

Import CreateProjectDialog.

Definition projectTitleOk (f : Form) : Prop :=
  (1 <= String.length (JS.trim (title f)) <= 100)%nat.

Definition projectDescriptionOk (f : Form) : Prop :=
  (String.length (JS.trim (description f)) <= 1000)%nat.

End DialogVocabulary.

Section AuthVocabulary.

Definition credentialsOk (isEmail : string -> bool) (email password : string) : Prop :=
  isEmail email = true
  ∧ (String.length email <= 255)%nat
  ∧ (6 <= String.length password <= 100)%nat.

Definition usernameOk (username : string) : Prop :=
  (2 <= String.length (JS.trim username) <= 50)%nat.

End AuthVocabulary.

(** ** Task lists, the dashboard and the outcome of requests *)

Section PageVocabulary.

(** The status is one of the three the project page has a column for. *)
Definition knownStatus (t : Task) : Prop :=
  task_status t = "todo" ∨ task_status t = "in_progress" ∨ task_status t = "done".

(** The dashboard once [fetchProjects] and [fetchTaskStats] have both
    answered for the same projects, each with its tasks. *)
Definition dashboardOf (ps : list (Project * list Task)) : DashboardPage.State :=
  DashboardPage.fetchTaskStats (Api.Resolved (snd <$> ps))
    (DashboardPage.fetchProjects (Api.Resolved (Some (fst <$> ps)))
                                 DashboardPage.initial).

(** The number of tasks the three counters on the dashboard add up to. *)
Definition shownTasks (st : DashboardPage.State) : nat :=
  (Dashboard.completed (DashboardPage.taskStats st)
   + Dashboard.in_progress (DashboardPage.taskStats st)
   + Dashboard.todo (DashboardPage.taskStats st))%nat.

(** A rejection carries a message that is not empty, as those of the
    response interceptor do. *)
Definition rejectedWithMessage {A} (res : Api.Result A) : Prop :=
  match res with
  | Api.Rejected message => JS.truthy message = true
  | Api.Resolved _ => True
  end.

(** A small board. *)
Definition board : list Task :=
  [mkTask "t1" "p1" "Design schema" None high "done" (Some 3%Q) true
          (Some high) (Some 3%Q) ai;
   mkTask "t2" "p1" "Build API" None medium "todo" (Some 5%Q) false
          None None user;
   mkTask "t3" "p1" "Triage" None low "blocked" None false None None user].

End PageVocabulary.

(* ===================================================================== *)
(** * Properties                                                          *)
(* ===================================================================== *)

(** ** The primitives on examples *)

Section PrimitiveExamples.

Example parseInt_examples :
  JS.parseInt "8" = Some 8
  ∧ JS.parseInt "  -12px" = Some (-12)
  ∧ JS.parseInt "+7.9" = Some 7
  ∧ JS.parseInt "0x1F" = Some 31
  ∧ JS.parseInt "1e3" = Some 1
  ∧ JS.parseInt "abc" = None
  ∧ JS.parseInt "-" = None.
Proof. repeat split; reflexivity. Qed.

Example trim_examples :
  JS.trim "  Design schema " = "Design schema"
  ∧ JS.trim "   " = ""
  ∧ JS.trim "a b" = "a b"
  ∧ JS.orNull (JS.trim "  ") = None.
Proof. repeat split; reflexivity. Qed.

Example Math_round_examples :
  Binary64.round (Binary64.ofQ (1 # 2)) = Some 1
  ∧ Binary64.round (Binary64.ofQ (5 # 2)) = Some 3
  ∧ Binary64.round (Binary64.ofQ (- 5 # 2)) = Some (-2)
  ∧ Binary64.round (Binary64.ofQ (- 1 # 2)) = Some 0
  ∧ Binary64.round (Binary64.ofQ (149 # 10)) = Some 15
  ∧ Binary64.round (Binary64.ofQ (inject_Z (10 ^ 21))) = Some (10 ^ 21)
  ∧ Binary64.round (SFdiv Binary64.prec Binary64.emax
                          (Binary64.ofQ 0) (Binary64.ofQ 0)) = None.
Proof. repeat split; vm_compute; reflexivity. Qed.

(** 0.1 + 0.2 is not 0.3 in binary64. *)
Example binary64_sum :
  SFadd Binary64.prec Binary64.emax (Binary64.ofQ (1 # 10)) (Binary64.ofQ (2 # 10))
  = S754_finite false 5404319552844596 (-54)
  ∧ Binary64.ofQ (3 # 10) = S754_finite false 5404319552844595 (-54).
Proof. split; vm_compute; reflexivity. Qed.

End PrimitiveExamples.

(** ** Role order *)

Section RoleOrder.

Lemma role_leb_le r1 r2 : role_leb r1 r2 = true <-> role_le r1 r2.
Proof. unfold role_leb, role_le. apply Nat.leb_le. Qed.

Lemma role_le_refl r : role_le r r.
Proof. unfold role_le. lia. Qed.

Lemma role_le_trans r1 r2 r3 : role_le r1 r2 -> role_le r2 r3 -> role_le r1 r3.
Proof. unfold role_le. lia. Qed.

Lemma role_le_antisym r1 r2 : role_le r1 r2 -> role_le r2 r1 -> r1 = r2.
Proof. unfold role_le. destruct r1, r2; simpl; intros; (reflexivity || lia). Qed.

Lemma role_le_total r1 r2 : role_le r1 r2 \/ role_le r2 r1.
Proof. unfold role_le. lia. Qed.

Lemma role_chain : role_le Viewer Editor /\ role_le Editor Owner.
Proof. unfold role_le. simpl. lia. Qed.

End RoleOrder.

(** ** Dashboard statistics *)

Section DashboardFacts.

Import Dashboard.

Lemma collectTasks_from (acc : list Task) (pts : list (list Task)) :
  fold_left (fun allTasks ts => allTasks ++ ts) pts acc = acc ++ concat pts.
Proof.
  revert acc. induction pts as [|ts pts IH]; intros acc; simpl.
  - by rewrite app_nil_r.
  - by rewrite IH, app_assoc.
Qed.

Lemma collectTasks_concat (pts : list (list Task)) :
  collectTasks pts = concat pts.
Proof. unfold collectTasks. by rewrite collectTasks_from. Qed.

(** One step of the reduction moves exactly one counter. *)
Lemma countTask_cases (acc : TaskStats) (t : Task) :
  (isCompleted t ∧ countTask acc t =
     mkTaskStats (S (completed acc)) (in_progress acc) (todo acc))
  ∨ (isInProgress t ∧ task_status t ≠ "done" ∧ countTask acc t =
       mkTaskStats (completed acc) (S (in_progress acc)) (todo acc))
  ∨ (isTodo t ∧ countTask acc t =
       mkTaskStats (completed acc) (in_progress acc) (S (todo acc))).
Proof.
  unfold countTask, isCompleted, isInProgress, isTodo.
  destruct (String.eqb_spec (task_status t) "done") as [Hd|Hd].
  - left. done.
  - destruct (String.eqb_spec (task_status t) "in_progress") as [Hp|Hp].
    + right; left. done.
    + right; right. done.
Qed.

Lemma taskStats_from (acc : TaskStats) (ts : list Task) :
  let r := fold_left countTask ts acc in
  completed r = (completed acc + length (filter isCompleted ts))%nat
  ∧ in_progress r = (in_progress acc + length (filter isInProgress ts))%nat
  ∧ todo r = (todo acc + length (filter isTodo ts))%nat.
Proof.
  revert acc. induction ts as [|t ts IH]; intros acc; simpl.
  - repeat split; lia.
  - specialize (IH (countTask acc t)). simpl in IH.
    destruct IH as (Hc & Hp & Ht). rewrite Hc, Hp, Ht.
    rewrite !filter_cons.
    destruct (countTask_cases acc t) as [[H1 ->]|[(H1 & H2 & ->)|[[H1 H2] ->]]];
      unfold isCompleted, isInProgress, isTodo in *; simpl;
      repeat case_decide; simpl; try (repeat split; lia);
      try congruence; try tauto.
    all: exfalso; rewrite H1 in *; try discriminate; tauto.
Qed.

Lemma status_classes_length (ts : list Task) :
  (length (filter isCompleted ts) + length (filter isInProgress ts)
   + length (filter isTodo ts) = length ts)%nat.
Proof.
  induction ts as [|t ts IH]; [done|].
  rewrite !filter_cons. simpl.
  unfold isCompleted, isInProgress, isTodo in *.
  repeat case_decide; simpl; try lia; try tauto.
  all: exfalso; destruct (decide (task_status t = "done"));
    destruct (decide (task_status t = "in_progress")); try tauto; congruence.
Qed.

Lemma taskStats_counts (allTasks : list Task) :
  completed (taskStats allTasks) = length (filter isCompleted allTasks)
  ∧ in_progress (taskStats allTasks) = length (filter isInProgress allTasks)
  ∧ todo (taskStats allTasks) = length (filter isTodo allTasks).
Proof.
  unfold taskStats.
  destruct (taskStats_from (mkTaskStats 0 0 0) allTasks) as (Hc & Hp & Ht).
  simpl in *. by rewrite Hc, Hp, Ht.
Qed.

(** C9.  The three counters computed by the dashboard partition the
    task list: completed counts the tasks whose status is "done",
    in_progress those whose status is "in_progress", todo every other
    task (whatever its status string), and the three add up to the
    number of tasks. *)
Theorem taskStats_partition (allTasks : list Task) :
  let st := taskStats allTasks in
  (completed st + in_progress st + todo st = length allTasks)%nat
  ∧ completed st = length (filter isCompleted allTasks)
  ∧ in_progress st = length (filter isInProgress allTasks)
  ∧ todo st = length (filter isTodo allTasks).
Proof.
  simpl. destruct (taskStats_counts allTasks) as (Hc & Hp & Ht).
  rewrite Hc, Hp, Ht. split; [apply status_classes_length | done].
Qed.

(** The same for the tasks gathered project by project. *)
Lemma fetchTaskStats_total (projectTasks : list (list Task)) :
  let st := fetchTaskStats projectTasks in
  (completed st + in_progress st + todo st = length (concat projectTasks))%nat.
Proof.
  simpl. unfold fetchTaskStats. rewrite collectTasks_concat.
  destruct (taskStats_counts (concat projectTasks)) as (Hc & Hp & Ht).
  rewrite Hc, Hp, Ht. apply status_classes_length.
Qed.

(** A status outside the three known values is counted as todo. *)
Example taskStats_unknown_status :
  taskStats
    [mkTask "t1" "p" "a" None low "done" None false None None user;
     mkTask "t2" "p" "b" None low "blocked" None false None None user;
     mkTask "t3" "p" "c" None low "in_progress" None false None None user;
     mkTask "t4" "p" "d" None low "todo" None false None None user]
  = mkTaskStats 1 1 2.
Proof. reflexivity. Qed.

End DashboardFacts.

(** ** Permission table *)

Section PermissionFacts.

Import PermissionsTable.

Lemma granted_monotone_row (p : Permission) :
  p ∈ permissions ->
  (viewer p = true -> editor p = true) ∧ (editor p = true -> owner p = true).
Proof.
  unfold permissions. intros Hp.
  repeat (apply elem_of_cons in Hp as [-> | Hp]; [simpl; tauto|]).
  by apply elem_of_nil in Hp.
Qed.

Lemma invitation_permissions_monotone (r1 r2 : ProjectRole) (x : string) :
  role_le r1 r2 ->
  x ∈ InvitationPage.permissions r1 -> x ∈ InvitationPage.permissions r2.
Proof.
  unfold role_le. destruct r1, r2; simpl; intros Hle Hx; try lia; try done.
  all: repeat (apply elem_of_cons in Hx as [-> | Hx]; [set_solver|]).
  all: by apply elem_of_nil in Hx.
Qed.

(** C7.  The permission table is monotone in Viewer < Editor < Owner:
    a permission granted to a role is granted to every higher role.
    Viewer is granted viewing only, Editor also creating, editing and
    deleting tasks, Owner also team management and project settings;
    the lists shown on the invitation page grow with the role in the
    same way. *)
Theorem permissions_monotone :
  (forall (p : Permission) (r1 r2 : ProjectRole),
      p ∈ permissions -> role_le r1 r2 ->
      granted r1 p = true -> granted r2 p = true)
  ∧ grantedNames Viewer = ["View Tasks"]
  ∧ grantedNames Editor =
      ["View Tasks"; "Create Tasks"; "Edit Tasks"; "Delete Tasks"]
  ∧ grantedNames Owner =
      ["View Tasks"; "Create Tasks"; "Edit Tasks"; "Delete Tasks";
       "Manage Team"; "Project Settings"]
  ∧ (forall (r1 r2 : ProjectRole) (x : string),
        role_le r1 r2 ->
        x ∈ InvitationPage.permissions r1 -> x ∈ InvitationPage.permissions r2).
Proof.
  split; [|repeat split; try reflexivity; apply invitation_permissions_monotone].
  intros p r1 r2 Hp Hle Hg.
  destruct (granted_monotone_row p Hp) as [Hve Heo].
  unfold role_le in Hle.
  destruct r1, r2; simpl in *; try lia; auto.
Qed.

Lemma permissions_monotone_witness :
  granted Owner (mkPermission "Create Tasks" true true false) = true.
Proof.
  apply (proj1 permissions_monotone
           (mkPermission "Create Tasks" true true false) Editor Owner).
  - apply list_elem_of_In. simpl. auto.
  - unfold role_le. simpl. lia.
  - reflexivity.
Defined.

End PermissionFacts.

(** ** Task form validation *)

Section CreateTaskFacts.

Import CreateTaskDialog.

Lemma titleIssues_nil (t : string) : titleIssues t = [] <-> titleWithinBounds t.
Proof.
  unfold titleIssues, titleWithinBounds.
  destruct (Nat.ltb_spec (String.length (JS.trim t)) 1);
    destruct (Nat.ltb_spec 200 (String.length (JS.trim t)));
    simpl; split; intros; try discriminate; try lia; done.
Qed.

Lemma descriptionIssues_nil (d : option string) :
  descriptionIssues d = [] <-> descriptionWithinBounds d.
Proof.
  destruct d as [d|]; simpl; [|done].
  destruct (Nat.ltb_spec 1000 (String.length (JS.trim d)));
    split; intros; try discriminate; try lia; done.
Qed.

Lemma Qle_bool_false (x y : Q) : Qle_bool x y = false <-> (y < x)%Q.
Proof.
  split; intros H.
  - apply Qnot_le_lt. intros Hle. apply Qle_bool_iff in Hle. congruence.
  - apply not_true_is_false. intros Hle. apply Qle_bool_iff in Hle.
    by apply Qlt_not_le in H.
Qed.

Lemma effortIssues_nil (e : option JS.number) :
  effortIssues e = [] <-> effortWithinBounds e.
Proof.
  destruct e as [[|q]|]; simpl; [split; [discriminate|tauto] | | done].
  destruct (Qle_bool 0 q) eqn:H0; destruct (Qle_bool q 1000) eqn:H1; simpl.
  - apply Qle_bool_iff in H0, H1. done.
  - apply Qle_bool_false in H1. split; [discriminate|].
    intros [_ Hle]. by apply Qlt_not_le in H1.
  - apply Qle_bool_false in H0. split; [discriminate|].
    intros [Hle _]. by apply Qlt_not_le in H0.
  - apply Qle_bool_false in H0. split; [discriminate|].
    intros [Hle _]. by apply Qlt_not_le in H0.
Qed.

Lemma taskSchema_issues (i : Input) :
  (exists d, taskSchema i = Success d)
  <-> titleIssues (title i) ++ descriptionIssues (description i)
      ++ effortIssues (effort_estimate i) = [].
Proof.
  unfold taskSchema.
  destruct (titleIssues (title i) ++ descriptionIssues (description i)
            ++ effortIssues (effort_estimate i)) as [|x l].
  - split; [done | eauto].
  - split; [intros [d Hd]; discriminate | discriminate].
Qed.

Lemma taskSchema_success (i : Input) :
  (exists d, taskSchema i = Success d) <-> withinBounds i.
Proof.
  rewrite taskSchema_issues. unfold withinBounds.
  rewrite <- titleIssues_nil, <- descriptionIssues_nil, <- effortIssues_nil.
  split.
  - intros H. apply app_eq_nil in H as [Ht H].
    apply app_eq_nil in H as [Hd He]. done.
  - intros (-> & -> & ->). done.
Qed.

Lemma handleSubmit_sends (projectId : string) (f : Form) :
  (exists req, handleSubmit projectId f = Send req)
  <-> exists d, taskSchema (inputOf f) = Success d.
Proof.
  unfold handleSubmit, inputOf.
  destruct (taskSchema _) as [d|errors].
  - split; eauto.
  - split; [intros [req Hr]; discriminate | intros [d Hd]; discriminate].
Qed.

(** A negative estimate stops the submission with an error on the
    effort field, whatever the other fields hold. *)
Lemma handleSubmit_negative_effort (projectId : string) (f : Form) (q : Q) :
  effortOf f = Some (JS.Num q) -> (q < 0)%Q ->
  exists fieldErrors,
    handleSubmit projectId f = ShowErrors fieldErrors
    ∧ fieldErrors !! "effort_estimate" = Some None.
Proof.
  intros He Hq. unfold handleSubmit, taskSchema. rewrite He.
  cbn [effort_estimate title description effortIssues].
  assert (H0 : Qle_bool 0 q = false) by by apply Qle_bool_false.
  assert (H1 : Qle_bool q 1000 = true).
  { apply Qle_bool_iff. apply Qlt_le_weak. eapply Qlt_trans; [exact Hq|done]. }
  rewrite H0, H1. unfold titleIssues, descriptionIssues.
  destruct (_ <? 1)%nat; destruct (200 <? _)%nat; destruct (1000 <? _)%nat;
    simpl; eexists; (split; [reflexivity|]); reflexivity.
Qed.

(** C6, as amended.  The task form is submitted exactly when the
    trimmed title has 1 to 200 characters, the trimmed description has
    at most 1000, and the effort estimate, if present, is a number
    between 0 and 1000; a negative estimate yields a validation error
    on the effort field and no request is sent. *)
Theorem createTask_validation :
  (forall i : Input, (exists d, taskSchema i = Success d) <-> withinBounds i)
  ∧ (forall (projectId : string) (f : Form),
        (exists req, handleSubmit projectId f = Send req)
        <-> withinBounds (inputOf f))
  ∧ (forall (projectId : string) (f : Form) (q : Q),
        effortOf f = Some (JS.Num q) -> (q < 0)%Q ->
        exists fieldErrors,
          handleSubmit projectId f = ShowErrors fieldErrors
          ∧ fieldErrors !! "effort_estimate" = Some None).
Proof.
  split; [exact taskSchema_success|]. split.
  - intros projectId f. rewrite handleSubmit_sends. apply taskSchema_success.
  - exact handleSubmit_negative_effort.
Qed.

Lemma createTask_validation_witness :
  exists fieldErrors,
    handleSubmit "p1" (mkForm "Write tests" "" medium "-1") = ShowErrors fieldErrors
    ∧ fieldErrors !! "effort_estimate" = Some None.
Proof.
  apply (proj2 (proj2 createTask_validation) "p1"
           (mkForm "Write tests" "" medium "-1") (-1)%Q).
  - reflexivity.
  - reflexivity.
Defined.

(** An estimate of 1001 hours meets the stated bounds and is refused. *)
Lemma createTask_validation_counterexample :
  statedBounds (inputOf (mkForm "Write tests" "" medium "1001"))
  ∧ taskSchema (inputOf (mkForm "Write tests" "" medium "1001"))
    = Failure [mkIssue "effort_estimate" too_big None]
  ∧ ~ (exists req,
          handleSubmit "p1" (mkForm "Write tests" "" medium "1001") = Send req).
Proof.
  split; [|split].
  - split; [vm_compute; lia | vm_compute; discriminate].
  - reflexivity.
  - intros [req Hreq]. vm_compute in Hreq. discriminate.
Qed.

End CreateTaskFacts.

(** ** AI generation: what is saved *)

Section AIGenerateFacts.

Import AIGeneratePage.

Lemma isGemini_spec (s : AISuggestion) : isGemini s = true <-> source s = "gemini".
Proof. unfold isGemini. apply String.eqb_eq. Qed.

(** Provenance follows the source of the suggestion. *)
Lemma toTaskCreate_provenance (s : AISuggestion) :
  (tc_created_by (toTaskCreate s) = ai <-> source s = "gemini")
  ∧ (tc_created_by (toTaskCreate s) = user <-> source s ≠ "gemini")
  ∧ (tc_ai_generated (toTaskCreate s) = true <-> source s = "gemini").
Proof.
  rewrite <- isGemini_spec. unfold toTaskCreate. simpl.
  destruct (isGemini s); repeat split; intros; try done.
Qed.

(** The suggestion fields of a saved task are copies of the values it
    is saved with. *)
Lemma toTaskCreate_suggestion_fields (s : AISuggestion) :
  isGemini s = true ->
  tc_ai_priority_suggestion (toTaskCreate s) = Some (tc_priority (toTaskCreate s))
  ∧ tc_ai_effort_suggestion (toTaskCreate s) = tc_effort_estimate (toTaskCreate s).
Proof. intros H. unfold toTaskCreate. simpl. by rewrite H. Qed.

Lemma numberNe_same (a : option Q) : TaskCard.numberNe a a = false.
Proof.
  destruct a as [q|]; simpl; [|done].
  apply negb_false_iff, Qeq_bool_iff. reflexivity.
Qed.

(** Hence no freshly saved task is ever shown as modified. *)
Lemma saved_task_never_modified (id status project : string) (s : AISuggestion) :
  TaskCard.wasModified (taskOfRow id status (project, toTaskCreate s)) = false.
Proof.
  unfold TaskCard.wasModified, taskOfRow, toTaskCreate. simpl.
  destruct (isGemini s); simpl; [|done].
  apply orb_false_iff. split.
  - unfold TaskCard.priorityNe. by rewrite bool_decide_eq_true_2.
  - apply negb_false_iff, Qeq_bool_iff. reflexivity.
Qed.

(** An edit of the priority replaces the value the suggestion came with. *)
Lemma changePriority_overwrites (s : AISuggestion) (value : TaskPriority) :
  changePriority [s] (suggestion_id s) value
  = [applyUpdates s (mkUpdates None None (Some value) None)].
Proof.
  unfold changePriority, handleUpdate. simpl. by rewrite String.eqb_refl.
Qed.

(** C3, evaluated.  The AI suggests priority high and 8 hours; the user
    lowers the priority and changes the estimate to 3 before saving.
    The saved task is tagged as AI generated, and its stored "AI
    suggestion" fields hold the edited values low and 3, not the
    suggested high and 8; the task card then reports it as unmodified. *)
Theorem handleSave_stores_edited_values :
  let shown := handleGenerate (fun _ => "temp") [suggested] in
  let edited := changeEffort (changePriority shown "s1" low) "s1" "3" in
  priority <$> shown = [high]
  ∧ effort_estimate <$> shown = [8 # 1]
  ∧ tasksToCreate edited =
      [mkTaskCreate "Design schema" (Some "Tables and keys") low (Some (3 # 1))
                    true (Some low) (Some (3 # 1)) ai]
  ∧ (TaskCard.wasModified <$>
       (taskOfRow "t1" "todo" <$> (pair "p1" <$> tasksToCreate edited)))
    = [false].
Proof. repeat split; reflexivity. Qed.

End AIGenerateFacts.

(** ** Bulk creation: order and atomicity *)

Section BulkSaveFacts.

Import AIGeneratePage.

(** Positions in a sublist map to positions of the full list. *)
Lemma sublist_lookup {A} (l1 l2 : list A) :
  l1 `sublist_of` l2 ->
  forall i a, l1 !! i = Some a -> exists i', (i <= i')%nat ∧ l2 !! i' = Some a.
Proof.
  induction 1 as [|x l1 l2 _ IH|x l1 l2 _ IH]; intros i a Hi.
  - by rewrite lookup_nil in Hi.
  - destruct i as [|i]; simpl in Hi.
    + exists 0%nat. split; [lia|done].
    + destruct (IH i a Hi) as (i' & Hle & Hi'). exists (S i'). split; [lia|done].
  - destruct (IH i a Hi) as (i' & Hle & Hi'). exists (S i'). split; [lia|done].
Qed.

(** ... and keep their relative order. *)
Lemma sublist_lookup_order {A} (l1 l2 : list A) :
  l1 `sublist_of` l2 ->
  forall i j a b, (i < j)%nat -> l1 !! i = Some a -> l1 !! j = Some b ->
    exists i' j', (i' < j')%nat ∧ l2 !! i' = Some a ∧ l2 !! j' = Some b.
Proof.
  induction 1 as [|x l1 l2 Hsub IH|x l1 l2 Hsub IH]; intros i j a b Hij Hi Hj.
  - by rewrite lookup_nil in Hi.
  - destruct j as [|j]; [lia|]. simpl in Hj. destruct i as [|i]; simpl in Hi.
    + destruct (sublist_lookup _ _ Hsub j b Hj) as (j' & _ & Hj').
      exists 0%nat, (S j'). repeat split; [lia|done|done].
    + destruct (IH i j a b ltac:(lia) Hi Hj) as (i' & j' & Hlt & Hi' & Hj').
      exists (S i'), (S j'). repeat split; [lia|done|done].
  - destruct (IH i j a b Hij Hi Hj) as (i' & j' & Hlt & Hi' & Hj').
    exists (S i'), (S j'). repeat split; [lia|done|done].
Qed.

Lemma filter_all {A} (P : A -> Prop) `{!forall x, Decision (P x)} (l : list A) :
  Forall P l -> filter P l = l.
Proof.
  induction 1 as [|x l Hx _ IH]; [done|].
  rewrite filter_cons. rewrite decide_True by done. by rewrite IH.
Qed.

(** The items of the request are the suggestions with a title, each
    turned into a task, in the order of the list. *)
Lemma tasksToCreate_lookup (suggestions : list AISuggestion) (i : nat) (t : TaskCreate) :
  tasksToCreate suggestions !! i = Some t ->
  exists s, filter hasTitle suggestions !! i = Some s ∧ t = toTaskCreate s.
Proof.
  unfold tasksToCreate. rewrite list_lookup_fmap.
  destruct (filter hasTitle suggestions !! i) as [s|]; simpl; [|done].
  intros [= <-]. eauto.
Qed.

Lemma tasksToCreate_order (suggestions : list AISuggestion) (i j : nat)
    (a b : TaskCreate) :
  (i < j)%nat ->
  tasksToCreate suggestions !! i = Some a ->
  tasksToCreate suggestions !! j = Some b ->
  exists i' j' sa sb,
    (i' < j')%nat
    ∧ suggestions !! i' = Some sa ∧ suggestions !! j' = Some sb
    ∧ a = toTaskCreate sa ∧ b = toTaskCreate sb.
Proof.
  intros Hij Hi Hj.
  apply tasksToCreate_lookup in Hi as (sa & Hi & ->).
  apply tasksToCreate_lookup in Hj as (sb & Hj & ->).
  destruct (sublist_lookup_order _ _ (sublist_filter hasTitle suggestions)
              i j sa sb Hij Hi Hj) as (i' & j' & Hlt & Hi' & Hj').
  exists i', j', sa, sb. done.
Qed.

Lemma tasksToCreate_elem (suggestions : list AISuggestion) (t : TaskCreate) :
  t ∈ tasksToCreate suggestions
  <-> exists s, s ∈ suggestions ∧ hasTitle s ∧ t = toTaskCreate s.
Proof.
  unfold tasksToCreate. rewrite list_elem_of_fmap. split.
  - intros (s & -> & Hs). apply list_elem_of_filter in Hs as [Ht Hs]. eauto.
  - intros (s & Hs & Ht & ->). exists s. split; [done|].
    by apply list_elem_of_filter.
Qed.

Lemma tasksToCreate_all_titled (suggestions : list AISuggestion) :
  Forall hasTitle suggestions ->
  forall i, tasksToCreate suggestions !! i = toTaskCreate <$> suggestions !! i.
Proof.
  intros Hall i. unfold tasksToCreate.
  by rewrite (filter_all hasTitle suggestions Hall), list_lookup_fmap.
Qed.

(** A successful bulk call appends the items, in order, to the stored
    tasks. *)
Lemma bulkCreateTasks_done (actor project : string) (items : list TaskCreate)
    (s s' : Backend.Store) :
  Backend.bulkCreateTasks actor project items s = Backend.Done s' ->
  Backend.tasks s' = Backend.tasks s ++ (pair project <$> items)
  ∧ Backend.memberships s' = Backend.memberships s
  ∧ forallb Backend.validTask items = true.
Proof.
  unfold Backend.bulkCreateTasks.
  destruct (Backend.checkAccess s project actor Editor); [discriminate|].
  destruct (forallb Backend.validTask items); [|discriminate].
  intros [= <-]. done.
Qed.

(** C8.  The bulk request built by [handleSave] holds exactly the
    suggestions that have a title, in the order of the suggestion list:
    items keep their relative order, and when every suggestion has a
    title the i-th item is the i-th suggestion.  When the call succeeds
    the i-th newly stored task is the i-th item of the request. *)
Theorem bulk_save_preserves_order (suggestions : list AISuggestion) :
  filter hasTitle suggestions `sublist_of` suggestions
  ∧ tasksToCreate suggestions = toTaskCreate <$> filter hasTitle suggestions
  ∧ (forall t : TaskCreate,
        t ∈ tasksToCreate suggestions
        <-> exists s, s ∈ suggestions ∧ hasTitle s ∧ t = toTaskCreate s)
  ∧ (forall (i j : nat) (a b : TaskCreate),
        (i < j)%nat ->
        tasksToCreate suggestions !! i = Some a ->
        tasksToCreate suggestions !! j = Some b ->
        exists i' j' sa sb,
          (i' < j')%nat
          ∧ suggestions !! i' = Some sa ∧ suggestions !! j' = Some sb
          ∧ a = toTaskCreate sa ∧ b = toTaskCreate sb)
  ∧ (Forall hasTitle suggestions ->
     forall i, tasksToCreate suggestions !! i = toTaskCreate <$> suggestions !! i)
  ∧ (forall (actor project : string) (s s' : Backend.Store),
        Backend.bulkCreateTasks actor project (tasksToCreate suggestions) s
        = Backend.Done s' ->
        forall i t, tasksToCreate suggestions !! i = Some t ->
          Backend.tasks s' !! (length (Backend.tasks s) + i)%nat = Some (project, t)).
Proof.
  split; [apply sublist_filter|]. split; [reflexivity|].
  split; [apply tasksToCreate_elem|].
  split; [apply tasksToCreate_order|]. split; [apply tasksToCreate_all_titled|].
  intros actor project s s' Hdone i t Hi.
  apply bulkCreateTasks_done in Hdone as (-> & _ & _).
  rewrite lookup_app_r by lia.
  replace (length (Backend.tasks s) + i - length (Backend.tasks s))%nat with i by lia.
  by rewrite list_lookup_fmap, Hi.
Qed.

Lemma bulk_save_preserves_order_witness :
  exists i' j' sa sb,
    (i' < j')%nat
    ∧ [suggested; untitled; titled] !! i' = Some sa
    ∧ [suggested; untitled; titled] !! j' = Some sb
    ∧ toTaskCreate suggested = toTaskCreate sa
    ∧ toTaskCreate titled = toTaskCreate sb.
Proof.
  apply (proj1 (proj2 (proj2 (proj2
           (bulk_save_preserves_order [suggested; untitled; titled]))))
           0%nat 1%nat (toTaskCreate suggested) (toTaskCreate titled)).
  - lia.
  - reflexivity.
  - reflexivity.
Defined.

Lemma bulkCreateTasks_rejects (actor project : string) (items : list TaskCreate)
    (s : Backend.Store) (t : TaskCreate) :
  t ∈ items -> Backend.validTask t = false ->
  exists e, Backend.bulkCreateTasks actor project items s = Backend.Fail e.
Proof.
  intros Hin Hbad. unfold Backend.bulkCreateTasks.
  destruct (Backend.checkAccess s project actor Editor) as [e|]; [eauto|].
  destruct (forallb Backend.validTask items) eqn:Hall; [|eauto].
  exfalso. rewrite forallb_forall in Hall.
  apply list_elem_of_In in Hin. specialize (Hall t Hin). congruence.
Qed.

(** A call stores nothing or the whole batch. *)
Lemma bulkCreateTasks_whole (actor project : string) (items : list TaskCreate)
    (s : Backend.Store) :
  Backend.commit s (Backend.bulkCreateTasks actor project items s) = s
  ∨ (Backend.tasks (Backend.commit s (Backend.bulkCreateTasks actor project items s))
     = Backend.tasks s ++ (pair project <$> items)
     ∧ forallb Backend.validTask items = true).
Proof.
  destruct (Backend.bulkCreateTasks actor project items s) as [s'|e] eqn:Hcall.
  - right. apply bulkCreateTasks_done in Hcall as (Ht & _ & Hv). done.
  - by left.
Qed.

Lemma validTask_empty_title (t : TaskCreate) :
  tc_title t = "" -> Backend.validTask t = false.
Proof. unfold Backend.validTask. by intros ->. Qed.

(** One item of the request that fails the validation and nothing of
    the suggestion list is stored. *)
Lemma savePath_rejects (actor project : string) (suggestions : list AISuggestion)
    (s : Backend.Store) (x : AISuggestion) :
  x ∈ suggestions -> hasTitle x ->
  Backend.validTask (toTaskCreate x) = false ->
  savePath actor project suggestions s = s.
Proof.
  intros Hx Ht Hbad. unfold savePath.
  destruct (bulkCreateTasks_rejects actor project (tasksToCreate suggestions) s
              (toTaskCreate x)) as [e He]; [|done|by rewrite He].
  apply tasksToCreate_elem. eauto.
Qed.

(** C2.  The bulk call is all-or-nothing: if one item of the batch
    fails the validation (an item with an empty title does) the call
    fails and the store is left as it was, so that no task of the batch
    is persisted; in every case the call stores nothing or the whole
    batch, in order, never a part of it.  For the save of the AI page,
    which submits its tasks in one such call: when one of the submitted
    suggestions fails the validation, none of them is stored. *)
Theorem bulkCreateTasks_all_or_nothing :
  (forall (actor project : string) (items : list TaskCreate) (s : Backend.Store)
          (t : TaskCreate),
      t ∈ items -> Backend.validTask t = false ->
      (exists e, Backend.bulkCreateTasks actor project items s = Backend.Fail e)
      ∧ Backend.commit s (Backend.bulkCreateTasks actor project items s) = s)
  ∧ (forall (actor project : string) (items : list TaskCreate) (s : Backend.Store),
        Backend.commit s (Backend.bulkCreateTasks actor project items s) = s
        ∨ (Backend.tasks
             (Backend.commit s (Backend.bulkCreateTasks actor project items s))
           = Backend.tasks s ++ (pair project <$> items)
           ∧ forallb Backend.validTask items = true))
  ∧ (forall t : TaskCreate, tc_title t = "" -> Backend.validTask t = false)
  ∧ (forall (actor project : string) (suggestions : list AISuggestion)
            (s : Backend.Store) (x : AISuggestion),
        x ∈ suggestions -> hasTitle x ->
        Backend.validTask (toTaskCreate x) = false ->
        savePath actor project suggestions s = s).
Proof.
  split; [|split; [|split]].
  - intros actor project items s t Hin Hbad.
    destruct (bulkCreateTasks_rejects actor project items s t Hin Hbad) as [e He].
    split; [eauto|]. by rewrite He.
  - apply bulkCreateTasks_whole.
  - apply validTask_empty_title.
  - apply savePath_rejects.
Qed.

Lemma bulkCreateTasks_all_or_nothing_witness :
  (exists e,
      Backend.bulkCreateTasks "u1" "p1"
        [toTaskCreate suggested; toTaskCreate untitled] launchStore = Backend.Fail e)
  ∧ Backend.commit launchStore
      (Backend.bulkCreateTasks "u1" "p1"
         [toTaskCreate suggested; toTaskCreate untitled] launchStore)
    = launchStore.
Proof.
  apply (proj1 bulkCreateTasks_all_or_nothing "u1" "p1"
           [toTaskCreate suggested; toTaskCreate untitled] launchStore
           (toTaskCreate untitled)).
  - apply list_elem_of_In. simpl. auto.
  - reflexivity.
Defined.

(** An estimate edited to -5 hours on one suggestion: the request holds
    both suggestions and nothing is stored, the valid one neither. *)
Example savePath_negative_effort :
  tasksToCreate (changeEffort [suggested; titled] "s1" "-5")
  = [mkTaskCreate "Design schema" (Some "Tables and keys") high (Some (-5 # 1))
                  true (Some high) (Some (-5 # 1)) ai;
     toTaskCreate titled]
  ∧ savePath "u1" "p1" (changeEffort [suggested; titled] "s1" "-5") launchStore
    = launchStore.
Proof. split; reflexivity. Qed.

End BulkSaveFacts.

(** ** Invitations *)

Section InvitationFacts.

Import InvitationPage.

Lemma handleAccept_sends (u : User) (inv : Invitation) :
  handleAccept (Some u) inv = Send (Api.PostAcceptInvitation (id inv))
  <-> user_email u = invited_email inv.
Proof.
  unfold handleAccept.
  destruct (String.eqb_spec (user_email u) (invited_email inv)) as [He|He]; simpl.
  - done.
  - split; [discriminate|done].
Qed.

Lemma handleAccept_refuses (u : User) (inv : Invitation) :
  user_email u ≠ invited_email inv ->
  handleAccept (Some u) inv = Toast "Please log in with the invited email address"
  ∧ forall processing, acceptDisabled processing (Some u) inv = true.
Proof.
  intros Hne. unfold handleAccept, acceptDisabled.
  destruct (String.eqb_spec (user_email u) (invited_email inv)) as [He|He]; [done|].
  simpl. split; [done|]. intros processing. apply orb_true_r.
Qed.

(** Every failure of the accept call leaves the store untouched. *)
Lemma commit_fail (s : Backend.Store) (r : Backend.Result) (e : Backend.ErrorKind) :
  r = Backend.Fail e -> Backend.commit s r = s.
Proof. by intros ->. Qed.

Lemma acceptInvitation_wrong_email (token : string) (u : User) (now : Z)
    (s : Backend.Store) (inv : Backend.Invitation) :
  Backend.invitations s !! token = Some inv ->
  user_email u ≠ Backend.inv_email inv ->
  (exists e, Backend.acceptInvitation token u now s = Backend.Fail e)
  ∧ (Backend.inv_accepted_at inv = None -> Backend.inv_expires_at inv >= now ->
     Backend.acceptInvitation token u now s = Backend.Fail Backend.Forbidden).
Proof.
  intros Hinv Hne. unfold Backend.acceptInvitation. rewrite Hinv.
  destruct (String.eqb_spec (user_email u) (Backend.inv_email inv)) as [He|He]; [done|].
  destruct (Backend.inv_accepted_at inv); [split; [eauto|done]|].
  destruct (Z.ltb_spec (Backend.inv_expires_at inv) now); simpl.
  - split; [eauto|]. intros _ Hge. lia.
  - split; [eauto|done].
Qed.

(** C4.  A logged-in user's click on accept sends the accept request
    exactly when the user's email equals the invited email as a string;
    when they differ (a difference in letter case is one) the page
    refuses without sending anything and keeps the button disabled, and
    the accept call itself fails, with Forbidden for a pending unexpired
    invitation, leaving the memberships as they were. *)
Theorem accept_requires_exact_email (u : User) (inv : Invitation) :
  (handleAccept (Some u) inv = Send (Api.PostAcceptInvitation (id inv))
   <-> user_email u = invited_email inv)
  ∧ (user_email u ≠ invited_email inv ->
     handleAccept (Some u) inv = Toast "Please log in with the invited email address"
     ∧ forall processing, acceptDisabled processing (Some u) inv = true)
  ∧ (forall (token : string) (now : Z) (s : Backend.Store) (stored : Backend.Invitation),
        Backend.invitations s !! token = Some stored ->
        user_email u ≠ Backend.inv_email stored ->
        Backend.memberships
          (Backend.commit s (Backend.acceptInvitation token u now s))
        = Backend.memberships s
        ∧ (Backend.inv_accepted_at stored = None ->
           Backend.inv_expires_at stored >= now ->
           Backend.acceptInvitation token u now s = Backend.Fail Backend.Forbidden)).
Proof.
  split; [apply handleAccept_sends|]. split; [apply handleAccept_refuses|].
  intros token now s stored Hinv Hne.
  destruct (acceptInvitation_wrong_email token u now s stored Hinv Hne) as [[e He] Hf].
  split; [by rewrite He | exact Hf].
Qed.

(** Bob, invited as "bob@x.com", logged in as "Bob@x.com". *)
Lemma accept_requires_exact_email_witness :
  handleAccept (Some (mkUser "u2" "Bob@x.com" None))
               (mkInvitation "i1" "p1" "bob@x.com" Editor 604800000 None)
  = Toast "Please log in with the invited email address"
  ∧ forall processing,
      acceptDisabled processing (Some (mkUser "u2" "Bob@x.com" None))
                     (mkInvitation "i1" "p1" "bob@x.com" Editor 604800000 None)
      = true.
Proof.
  apply (proj1 (proj2 (accept_requires_exact_email
                         (mkUser "u2" "Bob@x.com" None)
                         (mkInvitation "i1" "p1" "bob@x.com" Editor 604800000 None)))).
  simpl. discriminate.
Defined.

(** The three refusals of the accept call. *)
Lemma acceptInvitation_not_found (token : string) (u : User) (now : Z)
    (s : Backend.Store) :
  Backend.invitations s !! token = None ->
  Backend.acceptInvitation token u now s = Backend.Fail Backend.NotFound.
Proof. intros H. unfold Backend.acceptInvitation. by rewrite H. Qed.

Lemma acceptInvitation_gone (token : string) (u : User) (now : Z)
    (s : Backend.Store) (inv : Backend.Invitation) :
  Backend.invitations s !! token = Some inv ->
  is_Some (Backend.inv_accepted_at inv) ->
  Backend.acceptInvitation token u now s = Backend.Fail Backend.Gone.
Proof.
  intros H [t Ht]. unfold Backend.acceptInvitation. by rewrite H, Ht.
Qed.

Lemma acceptInvitation_expired (token : string) (u : User) (now : Z)
    (s : Backend.Store) (inv : Backend.Invitation) :
  Backend.invitations s !! token = Some inv ->
  Backend.inv_accepted_at inv = None ->
  Backend.inv_expires_at inv < now ->
  Backend.acceptInvitation token u now s = Backend.Fail Backend.Expired.
Proof.
  intros H Ha Hexp. unfold Backend.acceptInvitation. rewrite H, Ha.
  destruct (Z.ltb_spec (Backend.inv_expires_at inv) now); [done|lia].
Qed.

(** After a successful acceptance the invitation is marked accepted. *)
Lemma acceptInvitation_marks (token : string) (u : User) (now : Z)
    (s s' : Backend.Store) :
  Backend.acceptInvitation token u now s = Backend.Done s' ->
  exists inv, Backend.invitations s' !! token = Some inv
              ∧ Backend.inv_accepted_at inv = Some now.
Proof.
  unfold Backend.acceptInvitation.
  destruct (Backend.invitations s !! token) as [inv|]; [|discriminate].
  destruct (Backend.inv_accepted_at inv); [discriminate|].
  destruct (_ <? _); [discriminate|].
  destruct (negb _); [discriminate|].
  intros [= <-]. simpl. rewrite lookup_insert_eq. eauto.
Qed.

(** An invitation just created expires [invitationTTL] later. *)
Lemma createInvitation_expiry (actor project email : string) (role : ProjectRole)
    (created : Z) (token newId : string) (s s' : Backend.Store) :
  Backend.createInvitation actor project email role created token newId s
  = Backend.Done s' ->
  Backend.memberships s' = Backend.memberships s
  ∧ exists inv, Backend.invitations s' !! token = Some inv
                ∧ Backend.inv_accepted_at inv = None
                ∧ Backend.inv_expires_at inv = created + Backend.invitationTTL.
Proof.
  unfold Backend.createInvitation.
  destruct (Backend.checkAccess s project actor Owner); [discriminate|].
  intros [= <-]. simpl. split; [done|]. rewrite lookup_insert_eq. eauto.
Qed.

(** A failed request always carries a message, so the page shows the
    error card for it. *)
Lemma errorMessage_truthy (detail message : string) :
  JS.truthy (Api.errorMessage detail message) = true.
Proof.
  unfold Api.errorMessage, JS.orElse.
  destruct detail; [destruct message|]; done.
Qed.

Lemma fetchInvitation_rejected (now : Z) (detail message : string)
    (projectRes : Api.Result Project) (st : State) :
  view (fetchInvitation now (Api.Rejected (Api.errorMessage detail message))
                        projectRes st)
  = InvalidInvitation (Api.errorMessage detail message).
Proof. unfold view. simpl. by rewrite errorMessage_truthy. Qed.

(** What the invitation page shows for the three refusals: the error
    card, which carries no accept button. *)
Lemma fetchInvitation_refusals (now : Z) (projectRes : Api.Result Project)
    (st : State) :
  view (fetchInvitation now (Api.Resolved None) projectRes st)
  = InvalidInvitation "Invitation not found or has expired"
  ∧ (forall inv, is_Some (accepted_at inv) ->
        view (fetchInvitation now (Api.Resolved (Some inv)) projectRes st)
        = InvalidInvitation "This invitation has already been accepted")
  ∧ (forall inv, accepted_at inv = None -> expires_at inv < now ->
        view (fetchInvitation now (Api.Resolved (Some inv)) projectRes st)
        = InvalidInvitation "This invitation has expired").
Proof.
  split; [done|]. split.
  - intros inv [t Ht]. unfold fetchInvitation. by rewrite Ht.
  - intros inv Ha Hexp. unfold fetchInvitation. rewrite Ha.
    destruct (Z.ltb_spec (expires_at inv) now); [done|lia].
Qed.

(** C5.  The accept call fails with NotFound for an unknown token, with
    Gone for an invitation already accepted (so a second acceptance
    with the same token fails), and with Expired once the current time
    is past the expiry, in particular any time later than the lifetime
    after the creation; every failed call leaves the store, hence the
    memberships, as they were.  For the same three cases the invitation
    page shows the error card instead of the invitation. *)
Theorem acceptInvitation_failures (token : string) (u : User) (now : Z)
    (s : Backend.Store) :
  (Backend.invitations s !! token = None ->
   Backend.acceptInvitation token u now s = Backend.Fail Backend.NotFound)
  ∧ (forall inv, Backend.invitations s !! token = Some inv ->
        is_Some (Backend.inv_accepted_at inv) ->
        Backend.acceptInvitation token u now s = Backend.Fail Backend.Gone)
  ∧ (forall inv, Backend.invitations s !! token = Some inv ->
        Backend.inv_accepted_at inv = None ->
        Backend.inv_expires_at inv < now ->
        Backend.acceptInvitation token u now s = Backend.Fail Backend.Expired)
  ∧ (forall e, Backend.acceptInvitation token u now s = Backend.Fail e ->
        Backend.commit s (Backend.acceptInvitation token u now s) = s)
  ∧ (forall s', Backend.acceptInvitation token u now s = Backend.Done s' ->
        forall (u' : User) (now' : Z),
          Backend.acceptInvitation token u' now' s' = Backend.Fail Backend.Gone
          ∧ Backend.commit s' (Backend.acceptInvitation token u' now' s') = s')
  ∧ (forall (actor project email : string) (role : ProjectRole) (created : Z)
            (newId : string) (s0 : Backend.Store),
        Backend.createInvitation actor project email role created token newId s0
        = Backend.Done s ->
        created + Backend.invitationTTL < now ->
        Backend.acceptInvitation token u now s = Backend.Fail Backend.Expired
        ∧ Backend.memberships
            (Backend.commit s (Backend.acceptInvitation token u now s))
          = Backend.memberships s0)
  ∧ (forall (projectRes : Api.Result Project) (st : State),
        view (fetchInvitation now (Api.Resolved None) projectRes st)
        = InvalidInvitation "Invitation not found or has expired"
        ∧ (forall inv, is_Some (accepted_at inv) ->
              view (fetchInvitation now (Api.Resolved (Some inv)) projectRes st)
              = InvalidInvitation "This invitation has already been accepted")
        ∧ (forall inv, accepted_at inv = None -> expires_at inv < now ->
              view (fetchInvitation now (Api.Resolved (Some inv)) projectRes st)
              = InvalidInvitation "This invitation has expired")).
Proof.
  split; [apply acceptInvitation_not_found|].
  split; [apply acceptInvitation_gone|].
  split; [apply acceptInvitation_expired|].
  split; [intros e He; by apply (commit_fail _ _ e)|].
  split; [|split; [|intros; apply fetchInvitation_refusals]].
  - intros s' Hdone u' now'.
    destruct (acceptInvitation_marks _ _ _ _ _ Hdone) as (inv & Hinv & Hacc).
    assert (Hg : Backend.acceptInvitation token u' now' s' = Backend.Fail Backend.Gone).
    { apply (acceptInvitation_gone _ _ _ _ inv Hinv). rewrite Hacc. eauto. }
    split; [exact Hg | by rewrite Hg].
  - intros actor project email role created newId s0 Hcreate Hlate.
    destruct (createInvitation_expiry _ _ _ _ _ _ _ _ _ Hcreate)
      as (Hm & inv & Hinv & Hacc & Hexp).
    assert (He : Backend.acceptInvitation token u now s = Backend.Fail Backend.Expired).
    { apply (acceptInvitation_expired _ _ _ _ inv Hinv Hacc). lia. }
    split; [exact He | by rewrite He].
Qed.

Lemma acceptInvitation_failures_witness :
  Backend.acceptInvitation "tok" (mkUser "u2" "bob@x.com" None)
                           (8 * 24 * 60 * 60 * 1000) invitedStore
  = Backend.Fail Backend.Expired
  ∧ Backend.memberships
      (Backend.commit invitedStore
         (Backend.acceptInvitation "tok" (mkUser "u2" "bob@x.com" None)
                                   (8 * 24 * 60 * 60 * 1000) invitedStore))
    = Backend.memberships launchStore.
Proof.
  apply (proj1 (proj2 (proj2 (proj2 (proj2 (proj2
           (acceptInvitation_failures "tok" (mkUser "u2" "bob@x.com" None)
              (8 * 24 * 60 * 60 * 1000) invitedStore))))))
           "u1" "p1" "bob@x.com" Editor 0 "i1" launchStore).
  - reflexivity.
  - reflexivity.
Defined.

End InvitationFacts.

(** ** Memberships: the last Owner *)

Section MembershipFacts.

Import Backend.




(** Whoever passes the access check for Owner is an Owner. *)
Lemma checkAccess_owner (s : Store) (project actor : string) :
  checkAccess s project actor Owner = None ->
  memberships s !! (project, actor) = Some Owner.
Proof.
  unfold checkAccess. case_decide; [|discriminate].
  destruct (memberships s !! (project, actor)) as [[| |]|]; done.
Qed.




(** A call whose caller is not its target keeps an Owner: when it
    succeeds on the project the caller is an Owner and stays one. *)
Lemma exec_keeps_owner (o : Op) (s : Store) (project : string) :
  ¬ selfTargeting o ->
  hasOwner s project -> hasOwner (commit s (exec o s)) project.
Proof.
  intros Hself [u Hu].
  destruct o as [actor p target|actor p target newRole]; simpl in *.
  - unfold removeMember.
    destruct (checkAccess s p actor Owner) eqn:Hacc; [by exists u|].
    destruct (memberships s !! (p, target)); [|by exists u]. simpl.
    destruct (decide (p = project)) as [->|Hp].
    + exists actor. simpl. rewrite lookup_delete_ne by congruence.
      by apply checkAccess_owner.
    + exists u. simpl. by rewrite lookup_delete_ne by congruence.
  - unfold changeMemberRole.
    destruct (checkAccess s p actor Owner) eqn:Hacc; [by exists u|].
    destruct (memberships s !! (p, target)); [|by exists u]. simpl.
    destruct (decide (p = project)) as [->|Hp].
    + exists actor. simpl. rewrite lookup_insert_ne by congruence.
      by apply checkAccess_owner.
    + exists u. simpl. by rewrite lookup_insert_ne by congruence.
Qed.

Lemma run_keeps_owner (ops : list Op) (s : Store) (project : string) :
  Forall (fun o => ¬ selfTargeting o) ops ->
  hasOwner s project -> hasOwner (run ops s) project.
Proof.
  intros Hops. revert s. induction Hops as [|o ops Ho _ IH]; intros s Hs; [done|].
  simpl. apply IH. by apply exec_keeps_owner.
Qed.

(** What a member card lets the user do. *)
Lemma enabled_cases (member : TeamMemberCard.TeamMember) (isCurrentUser : bool)
    (currentUserRole : ProjectRole) :
  TeamMemberCard.enabled member isCurrentUser currentUserRole =
    if TeamMemberCard.canManage currentUserRole isCurrentUser
       && negb (TeamMemberCard.isOwner member)
    then [TeamMemberCard.ChangeTo Owner; TeamMemberCard.ChangeTo Editor;
          TeamMemberCard.ChangeTo Viewer; TeamMemberCard.RemoveMember]
    else [].
Proof.
  unfold TeamMemberCard.enabled, TeamMemberCard.menu.
  destruct (TeamMemberCard.canManage _ _); [|done].
  destruct (TeamMemberCard.isOwner member); done.
Qed.

(** The team page only sends member-management requests when the
    current user is shown as Owner, and only for members other than the
    current user who are not shown as Owner. *)
Lemma team_page_requests (st : TeamPage.State) (r : Api.Request) :
  r ∈ TeamPage.requests st ->
  exists member,
    member ∈ TeamPage.members st
    ∧ TeamMemberCard.role member ≠ Owner
    ∧ TeamMemberCard.user_id member ≠ TeamPage.currentUserId st
    ∧ TeamPage.currentUserRole st = Owner
    ∧ (r = Api.DeleteMember (TeamPage.projectId st) (TeamMemberCard.user_id member)
       ∨ exists newRole,
           r = Api.PutMember (TeamPage.projectId st)
                             (TeamMemberCard.user_id member) newRole).
Proof.
  unfold TeamPage.requests. rewrite list_elem_of_In, in_flat_map.
  intros (member & Hm & Hr). apply in_map_iff in Hr as (a & <- & Ha).
  rewrite enabled_cases in Ha.
  unfold TeamMemberCard.canManage, TeamMemberCard.isOwner in Ha.
  destruct (bool_decide_reflect (TeamPage.currentUserRole st = Owner)) as [Hrole|];
    [|done].
  destruct (String.eqb_spec (TeamMemberCard.user_id member)
                            (TeamPage.currentUserId st)) as [|Hself]; [done|].
  destruct (bool_decide_reflect (TeamMemberCard.role member = Owner)) as [|Hnot];
    [done|].
  exists member. apply list_elem_of_In in Hm.
  repeat (split; [done|]).
  simpl in Ha. destruct Ha as [<-|[<-|[<-|[<-|[]]]]]; simpl; eauto.
Qed.



Example teamOps_outcome :
  exec (RemoveMember "u1" "p1" "u2") teamStore
  = Done (mkStore {["p1"]}
                  (delete ("p1", "u2") (memberships teamStore)) ∅ [])
  ∧ memberships (run teamOps teamStore) !! ("p1", "u1") = Some Editor
  ∧ memberships (run teamOps teamStore) !! ("p1", "u2") = None
  ∧ memberships (run teamOps teamStore) !! ("p1", "u3") = Some Editor
  ∧ exec (RemoveMember "u1" "p1" "u3") (run teamOps teamStore) = Fail Forbidden.
Proof. repeat split; vm_compute; reflexivity. Qed.

(** Accepting an invitation sets the invited role: an Owner who accepts
    an invitation of their own address as Viewer is Owner no more. *)
Example acceptInvitation_lowers_owner :
  let invited :=
    commit launchStore
      (createInvitation "u1" "p1" "ann@x.com" Viewer 0 "tok" "i1" launchStore) in
  let accepted :=
    commit invited
      (acceptInvitation "tok" (mkUser "u1" "ann@x.com" None) 1 invited) in
  memberships accepted !! ("p1", "u1") = Some Viewer
  ∧ ownerCount accepted "p1" = 0%nat.
Proof. split; vm_compute; reflexivity. Qed.

End MembershipFacts.

(** ** Project progress *)

Section ProgressFacts.

Context {R : Rounding}.

Import ProjectDetail.

Local Open Scope Q_scope.

Local Existing Instance unbounded.

Lemma rnd_nonneg (x : Q) : 0 <= x -> 0 <= rnd x.
Proof.
  intros Hx. apply Qle_trans with (rnd 0).
  - rewrite rnd_0. apply Qle_refl.
  - by apply rnd_mono.
Qed.

Lemma rnd_below (x b : Q) : representable b -> x <= b -> rnd x <= b.
Proof.
  unfold representable. intros Hb Hx. apply Qle_trans with (rnd b).
  - by apply rnd_mono.
  - rewrite Hb. apply Qle_refl.
Qed.

Lemma rnd_above (x b : Q) : representable b -> b <= x -> b <= rnd x.
Proof.
  unfold representable. intros Hb Hx. apply Qle_trans with (rnd b).
  - rewrite Hb. apply Qle_refl.
  - by apply rnd_mono.
Qed.

Lemma effortOrZero_nonneg (t : Task) :
  nonNegativeEffort t -> 0 <= effortOrZero (A := unbounded R) t.
Proof.
  unfold nonNegativeEffort, effortOrZero. simpl.
  destruct (task_effort_estimate t) as [q|].
  - intros Hq. destruct (negb _); apply rnd_nonneg; [done|apply Qle_refl].
  - intros _. apply rnd_nonneg, Qle_refl.
Qed.

(** The two sums side by side: the completed effort never exceeds the
    total. *)
Lemma sums_ordered (ts : list Task) (c t : Q) :
  Forall nonNegativeEffort ts ->
  representable c -> representable t -> 0 <= c -> c <= t ->
  let c' := fold_left (fun sum x => add (Arith := unbounded R) sum (effortOrZero x))
                      (doneTasks ts) c in
  let t' := fold_left (fun sum x => add (Arith := unbounded R) sum (effortOrZero x))
                      ts t in
  representable c' ∧ representable t' ∧ 0 <= c' ∧ c' <= t'.
Proof.
  intros Hall. revert c t.
  induction Hall as [|x ts Hx _ IH]; intros c t Hc Ht H0 Hct; simpl.
  - done.
  - pose proof (effortOrZero_nonneg x Hx) as He.
    unfold doneTasks. rewrite filter_cons. fold (doneTasks ts).
    case_decide; simpl.
    + apply IH.
      * apply rnd_idem.
      * apply rnd_idem.
      * apply rnd_nonneg.
        rewrite <- (Qplus_0_r 0). by apply Qplus_le_compat.
      * apply rnd_mono. apply Qplus_le_compat; [done|apply Qle_refl].
    + apply IH; [done | apply rnd_idem | done |].
      apply rnd_above; [done|].
      apply Qle_trans with t; [done|].
      rewrite <- (Qplus_0_r t) at 1. apply Qplus_le_compat; [apply Qle_refl|done].
Qed.

Lemma efforts_ordered (tasks : list Task) :
  Forall nonNegativeEffort tasks ->
  0 <= completedEffort (A := unbounded R) tasks
  ∧ completedEffort (A := unbounded R) tasks <= totalEffort (A := unbounded R) tasks.
Proof.
  intros Hall.
  assert (Hz : representable (rnd 0)) by apply rnd_idem.
  assert (H0 : 0 <= rnd 0) by apply rnd_nonneg, Qle_refl.
  destruct (sums_ordered tasks (rnd 0) (rnd 0) Hall Hz Hz H0 (Qle_refl _))
    as (_ & _ & Hc & Hle).
  done.
Qed.

Lemma round_bounds (x : Q) :
  0 <= x -> x <= 100 -> (0 <= Qfloor (x + (1 # 2)) <= 100)%Z.
Proof.
  intros H0 H100. split.
  - change 0%Z with (Qfloor 0). apply Qfloor_resp_le.
    apply Qle_trans with x; [done|].
    rewrite <- (Qplus_0_r x) at 1. apply Qplus_le_compat; [apply Qle_refl|done].
  - change 100%Z with (Qfloor (100 + (1 # 2))). apply Qfloor_resp_le.
    apply Qplus_le_compat; [done|apply Qle_refl].
Qed.

Lemma ratio_bounds (c t : Q) : 0 < t -> 0 <= c -> c <= t -> 0 <= c / t ∧ c / t <= 1.
Proof.
  intros Ht Hc Hct. split.
  - apply Qle_shift_div_l; [done|]. by rewrite Qmult_0_l.
  - apply Qle_shift_div_r; [done|]. by rewrite Qmult_1_l.
Qed.

(** The guard: in whatever arithmetic, a total that is not greater
    than 0 gives 0, and the quotient is not looked at. *)
Lemma progressPercent_guarded (A : Arith) (tasks : list Task) :
  gtb (totalEffort (A := A) tasks) (lit 0) = false ->
  progressPercent (A := A) tasks = Some 0%Z.
Proof. intros Hgt. unfold progressPercent. by rewrite Hgt. Qed.

(** C10, as amended.  In arithmetic without overflow, for tasks whose
    effort estimates are absent or at least 0, the progress percentage
    is an integer between 0 and 100, and it is 0 whenever the total
    effort is 0 or is not positive.  In every arithmetic, whatever its
    division does with a zero divisor, a total that is not greater than
    0 gives the percentage 0: the division is only reached with a total
    greater than 0. *)
Theorem progressPercent_bounded (tasks : list Task) :
  Forall nonNegativeEffort tasks ->
  (exists n : Z,
      progressPercent (A := unbounded R) tasks = Some n ∧ (0 <= n <= 100)%Z)
  ∧ (totalEffort (A := unbounded R) tasks == 0 ->
     progressPercent (A := unbounded R) tasks = Some 0%Z)
  ∧ (~ 0 < totalEffort (A := unbounded R) tasks ->
     progressPercent (A := unbounded R) tasks = Some 0%Z)
  ∧ (forall A : Arith,
        gtb (totalEffort (A := A) tasks) (lit 0) = false ->
        progressPercent (A := A) tasks = Some 0%Z).
Proof.
  intros Hall. destruct (efforts_ordered tasks Hall) as [Hc Hct].
  split; [|split; [|split; [|intros A; apply progressPercent_guarded]]];
    unfold progressPercent; simpl;
    destruct (Qlt_le_dec _ _) as [Hpos|Hzero]; try done.
  - assert (Hpos' : 0 < totalEffort (A := unbounded R) tasks).
    { apply Qle_lt_trans with (rnd 0); [apply rnd_nonneg, Qle_refl|done]. }
    destruct (ratio_bounds _ _ Hpos' Hc Hct) as [Hr0 Hr1].
    eexists. split; [reflexivity|].
    apply round_bounds.
    + apply rnd_nonneg. apply Qmult_le_0_compat; apply rnd_nonneg; done.
    + apply rnd_below; [apply rnd_100|]. rewrite rnd_100.
      apply Qle_trans with (1 * 100); [|done].
      apply Qmult_le_compat_r; [|done].
      apply rnd_below; [apply rnd_1|done].
  - exists 0%Z. split; [done|lia].
  - intros Heq. exfalso.
    assert (Hpos' : 0 < totalEffort (A := unbounded R) tasks).
    { apply Qle_lt_trans with (rnd 0); [apply rnd_nonneg, Qle_refl|done]. }
    rewrite Heq in Hpos'. by apply Qlt_irrefl in Hpos'.
  - intros Hn. exfalso. apply Hn.
    apply Qle_lt_trans with (rnd 0); [apply rnd_nonneg, Qle_refl|done].
Qed.

End ProgressFacts.

(** ** Roundings, and the progress bar in binary64 *)

Section RoundingInstances.

Local Open Scope Q_scope.

Lemma round10_mono (x y : Q) : x <= y -> round10 x <= round10 y.
Proof.
  intros Hxy. unfold round10.
  assert (H : (Qfloor (x * 1024 + (1 # 2)) <= Qfloor (y * 1024 + (1 # 2)))%Z).
  { apply Qfloor_resp_le. apply Qplus_le_compat; [|apply Qle_refl].
    apply Qmult_le_compat_r; [done|]. done. }
  unfold Qle. cbn [Qnum Qden]. lia.
Qed.

Lemma round10_grid (z : Z) : round10 (z # 1024) = z # 1024.
Proof.
  unfold round10. f_equal.
  unfold Qfloor, Qplus, Qmult. simpl.
  symmetry. apply (Z.div_unique _ _ _ 1024%Z); lia.
Qed.

Lemma round10_idem (x : Q) : round10 (round10 x) == round10 x.
Proof. unfold round10 at 2 3. by rewrite round10_grid. Qed.

Definition fixedRounding : Rounding :=
  mkRounding round10 round10_mono round10_idem
             (eq_refl : round10 0 == 0) (eq_refl : round10 1 == 1)
             (eq_refl : round10 100 == 100).

Lemma progressPercent_bounded_witness :
  (exists n : Z,
      ProjectDetail.progressPercent (A := unbounded fixedRounding) sprint = Some n
      ∧ (0 <= n <= 100)%Z)
  ∧ (ProjectDetail.totalEffort (A := unbounded fixedRounding) sprint == 0 ->
     ProjectDetail.progressPercent (A := unbounded fixedRounding) sprint = Some 0%Z)
  ∧ (~ 0 < ProjectDetail.totalEffort (A := unbounded fixedRounding) sprint ->
     ProjectDetail.progressPercent (A := unbounded fixedRounding) sprint = Some 0%Z)
  ∧ (forall A : Arith,
        gtb (ProjectDetail.totalEffort (A := A) sprint) (lit 0) = false ->
        ProjectDetail.progressPercent (A := A) sprint = Some 0%Z).
Proof.
  apply (@progressPercent_bounded fixedRounding sprint).
  repeat constructor; vm_compute; discriminate.
Defined.

(** Without the guard the empty task list would divide 0 by 0, which is
    [NaN] in binary64; with it the percentage is 0. *)
Example progressPercent_guard :
  ProjectDetail.totalEffort (A := Binary64.arith) [] = S754_zero false
  ∧ div (Arith := Binary64.arith)
        (ProjectDetail.completedEffort (A := Binary64.arith) [])
        (ProjectDetail.totalEffort (A := Binary64.arith) []) = S754_nan
  ∧ Math_round (Arith := Binary64.arith)
      (mul (Arith := Binary64.arith)
           (div (Arith := Binary64.arith)
                (ProjectDetail.completedEffort (A := Binary64.arith) [])
                (ProjectDetail.totalEffort (A := Binary64.arith) []))
           (lit 100)) = None
  ∧ ProjectDetail.progressPercent (A := Binary64.arith) [] = Some 0%Z.
Proof. repeat split; vm_compute; reflexivity. Qed.

(** The rounding of the quotient shows in the result: 14.5 in exact
    arithmetic, just below it in binary64. *)
Example progressPercent_sprint :
  ProjectDetail.progressPercent (A := unbounded exactRounding) sprint = Some 15%Z
  ∧ ProjectDetail.progressPercent (A := Binary64.arith) sprint = Some 14%Z
  ∧ ProjectDetail.progressPercent (A := Binary64.arith) [] = Some 0%Z
  ∧ ProjectDetail.progressPercent (A := Binary64.arith) (ProjectDetail.doneTasks sprint)
    = Some 100%Z.
Proof. repeat split; vm_compute; reflexivity. Qed.

(** In binary64 the efforts of [hugeTasks] add up to infinity, the
    quotient of the two sums is [NaN], and so is the percentage. *)
Lemma progressPercent_counterexample :
  Forall nonNegativeEffort hugeTasks
  ∧ ProjectDetail.totalEffort (A := Binary64.arith) hugeTasks = S754_infinity false
  ∧ ProjectDetail.completedEffort (A := Binary64.arith) hugeTasks = S754_infinity false
  ∧ gtb (Arith := Binary64.arith)
        (ProjectDetail.totalEffort (A := Binary64.arith) hugeTasks) (lit 0) = true
  ∧ mul (Arith := Binary64.arith)
        (div (ProjectDetail.completedEffort (A := Binary64.arith) hugeTasks)
             (ProjectDetail.totalEffort (A := Binary64.arith) hugeTasks))
        (lit 100) = S754_nan
  ∧ ProjectDetail.progressPercent (A := Binary64.arith) hugeTasks = None.
Proof.
  split; [repeat constructor; vm_compute; discriminate|].
  repeat split; vm_compute; reflexivity.
Qed.

(** An overflow need not show as [NaN]: one finished task of one hour
    beside two open ones of 1e308 hours gives an infinite total and the
    percentage 0. *)
Example progressPercent_overflow_hidden :
  let tasks :=
    [mkTask "t1" "p1" "Plan" None low "done" (Some 1%Q) false None None user;
     mkTask "t2" "p1" "Boil the ocean" None high "todo"
            (Some (inject_Z (10 ^ 308))) false None None user;
     mkTask "t3" "p1" "Boil it again" None high "todo"
            (Some (inject_Z (10 ^ 308))) false None None user] in
  ProjectDetail.totalEffort (A := Binary64.arith) tasks = S754_infinity false
  ∧ ProjectDetail.progressPercent (A := Binary64.arith) tasks = Some 0%Z.
Proof. split; vm_compute; reflexivity. Qed.

End RoundingInstances.

(* ===================================================================== *)
(** * Further properties of the pages                                     *)
(* ===================================================================== *)

(** ** Trimming *)

Section TrimFacts.

Lemma trimStart_list (s : string) :
  list_ascii_of_string (JS.trimStart s) = ltrim (list_ascii_of_string s).
Proof.
  induction s as [|c s IH]; simpl; [done|].
  destruct (JS.isWhiteSpace c); done.
Qed.

Lemma trim_list (s : string) :
  list_ascii_of_string (JS.trim s)
  = rev (ltrim (rev (ltrim (list_ascii_of_string s)))).
Proof.
  unfold JS.trim, JS.trimEnd, JS.reverse.
  rewrite list_ascii_of_string_of_list_ascii, trimStart_list.
  rewrite list_ascii_of_string_of_list_ascii, trimStart_list. done.
Qed.

Lemma ltrim_clean (l : list ascii) : clean (ltrim l).
Proof.
  induction l as [|c l IH]; simpl; [done|].
  destruct (JS.isWhiteSpace c) eqn:Hc; [done|]. simpl. done.
Qed.

Lemma ltrim_id (l : list ascii) : clean l -> ltrim l = l.
Proof. destruct l as [|c l]; simpl; [done|]. by intros ->. Qed.

Lemma ltrim_snoc (l : list ascii) (c : ascii) :
  JS.isWhiteSpace c = false -> ltrim (l ++ [c]) = ltrim l ++ [c].
Proof.
  intros Hc. induction l as [|x l IH]; simpl.
  - by rewrite Hc.
  - destruct (JS.isWhiteSpace x); done.
Qed.

Lemma ltrim_length (l : list ascii) : (length (ltrim l) <= length l)%nat.
Proof.
  induction l as [|c l IH]; simpl; [done|].
  destruct (JS.isWhiteSpace c); simpl; lia.
Qed.

(** Trimming the end keeps a clean start. *)
Lemma rtrim_clean (l : list ascii) : clean l -> clean (rev (ltrim (rev l))).
Proof.
  destruct l as [|c l]; simpl; [done|]. intros Hc.
  by rewrite ltrim_snoc, rev_app_distr.
Qed.

Lemma string_of_chars_eq (s t : string) :
  list_ascii_of_string s = list_ascii_of_string t -> s = t.
Proof.
  intros H. apply (f_equal string_of_list_ascii) in H.
  by rewrite !string_of_list_ascii_of_string in H.
Qed.

Lemma string_length_chars (s : string) :
  String.length s = length (list_ascii_of_string s).
Proof. induction s as [|c s IH]; simpl; [done|by rewrite IH]. Qed.

Lemma trim_trimmed (s : string) : trimmed (JS.trim s).
Proof.
  unfold trimmed. rewrite trim_list. split.
  - apply rtrim_clean, ltrim_clean.
  - rewrite rev_involutive. apply ltrim_clean.
Qed.

Lemma trimmed_trim (s : string) : trimmed s -> JS.trim s = s.
Proof.
  intros [Hs He]. apply string_of_chars_eq. rewrite trim_list.
  rewrite (ltrim_id _ Hs), (ltrim_id _ He). apply rev_involutive.
Qed.

Lemma trim_idempotent (s : string) : JS.trim (JS.trim s) = JS.trim s.
Proof. apply trimmed_trim, trim_trimmed. Qed.

Lemma trim_length (s : string) : (String.length (JS.trim s) <= String.length s)%nat.
Proof.
  rewrite !string_length_chars, trim_list, length_rev.
  etrans; [apply ltrim_length|]. rewrite length_rev. apply ltrim_length.
Qed.

(** A string without white space is its own trim. *)
Lemma trim_no_space (s : string) :
  Forall (fun c => JS.isWhiteSpace c = false) (list_ascii_of_string s) ->
  JS.trim s = s.
Proof.
  intros Hall. apply trimmed_trim. split.
  - destruct Hall; simpl; done.
  - apply Forall_rev in Hall. destruct Hall; simpl; done.
Qed.

End TrimFacts.

(** ** Regular expression matching *)

Section RegexFacts.

Import Regex.

Lemma append_empty (s1 s2 : string) : s1 +:+ s2 = "" -> s1 = "" ∧ s2 = "".
Proof. destruct s1; simpl; [done|discriminate]. Qed.

Lemma nullable_spec (r : re) : nullable r = true <-> Matches r "".
Proof.
  split.
  - induction r as [| |p|r1 IH1 r2 IH2|r1 IH1 r2 IH2|r IH]; simpl; intros H;
      try discriminate.
    + constructor.
    + apply andb_true_iff in H as [H1 H2].
      change "" with ("" +:+ ""). constructor; auto.
    + apply orb_true_iff in H as [H|H]; [apply MAltL|apply MAltR]; auto.
    + constructor.
  - intros H. remember "" as s eqn:Hs.
    induction H as [|p c Hp|r1 r2 s1 s2 _ IH1 _ IH2|r1 r2 s _ IH|r1 r2 s _ IH
                    |r|r s1 s2 _ _ _ _]; simpl; try done.
    + apply append_empty in Hs as [-> ->]. by rewrite IH1, IH2.
    + by rewrite IH.
    + rewrite IH by done. apply orb_true_r.
Qed.

Lemma deriv_complete (c : ascii) (r : re) (s0 : string) :
  Matches r s0 -> forall s, s0 = String c s -> Matches (deriv c r) s.
Proof.
  induction 1 as [|p x Hp|r1 r2 s1 s2 H1 IH1 H2 IH2|r1 r2 s0 _ IH|r1 r2 s0 _ IH
                  |r|r s1 s2 H1 IH1 H2 IH2]; intros s Hs; simpl.
  - discriminate.
  - injection Hs as -> <-. rewrite Hp. constructor.
  - destruct s1 as [|x s1]; simpl in Hs.
    + pose proof (proj2 (nullable_spec r1) H1) as Hn. rewrite Hn.
      apply MAltR. by apply IH2.
    + injection Hs as -> <-.
      assert (Matches (Cat (deriv c r1) r2) (s1 +:+ s2))
        by (constructor; [by apply IH1|done]).
      destruct (nullable r1); [by apply MAltL|done].
  - apply MAltL. by apply IH.
  - apply MAltR. by apply IH.
  - discriminate.
  - destruct s1 as [|x s1]; simpl in Hs.
    + by apply IH2.
    + injection Hs as -> <-. constructor; [by apply IH1|done].
Qed.

Lemma deriv_sound (c : ascii) (r : re) (s : string) :
  Matches (deriv c r) s -> Matches r (String c s).
Proof.
  revert s.
  induction r as [| |p|r1 IH1 r2 IH2|r1 IH1 r2 IH2|r IH]; simpl; intros s H.
  - inversion H.
  - inversion H.
  - destruct (p c) eqn:Hp; inversion H; subst. by constructor.
  - assert (Hcat : forall s, Matches (Cat (deriv c r1) r2) s ->
                             Matches (Cat r1 r2) (String c s)).
    { intros s' H'. inversion H' as [| |? ? s1 s2 Ha Hb| | | |]; subst.
      change (String c (s1 +:+ s2)) with (String c s1 +:+ s2).
      constructor; [by apply IH1|done]. }
    destruct (nullable r1) eqn:Hn; [|by apply Hcat].
    inversion H as [| | |? ? ? Ha|? ? ? Hb| |]; subst; [by apply Hcat|].
    change (String c s) with ("" +:+ String c s).
    constructor; [by apply nullable_spec|by apply IH2].
  - inversion H; subst; [apply MAltL|apply MAltR]; auto.
  - inversion H as [| |? ? s1 s2 Ha Hb| | | |]; subst.
    change (String c (s1 +:+ s2)) with (String c s1 +:+ s2).
    constructor; [by apply IH|done].
Qed.

(** The matcher decides the denotation. *)
Lemma test_spec (r : re) (s : string) : test r s = true <-> Matches r s.
Proof.
  revert r. induction s as [|c s IH]; intros r; simpl.
  - apply nullable_spec.
  - rewrite IH. split; [apply deriv_sound|].
    intros H. by apply (deriv_complete c r (String c s)).
Qed.

End RegexFacts.

(** ** Invitations by email *)

Section InviteFacts.

Import Regex InviteMemberForm.

Lemma chars_append (s1 s2 : string) :
  list_ascii_of_string (s1 +:+ s2)
  = list_ascii_of_string s1 ++ list_ascii_of_string s2.
Proof. induction s1 as [|c s1 IH]; simpl; [done|by rewrite IH]. Qed.

Lemma matches_class (p : ascii -> bool) (s : string) :
  Matches (Class p) s <-> exists c, s = String c "" ∧ p c = true.
Proof.
  split.
  - inversion 1; subst. eauto.
  - intros (c & -> & Hc). by constructor.
Qed.

Lemma matches_star_class (p : ascii -> bool) (s : string) :
  Matches (Star (Class p)) s
  <-> Forall (fun c => p c = true) (list_ascii_of_string s).
Proof.
  split.
  - intros H. remember (Star (Class p)) as r eqn:Hr.
    induction H as [| | | | |r0|r0 s1 s2 H1 _ H2 IH2]; try discriminate.
    + constructor.
    + injection Hr as ->. apply matches_class in H1 as (c & -> & Hc).
      simpl. constructor; [done|]. by apply IH2.
  - induction s as [|c s IH]; simpl; intros H; [constructor|].
    apply Forall_cons in H as [Hc Hs].
    change (String c s) with (String c "" +:+ s).
    constructor; [by constructor|by apply IH].
Qed.

Lemma matches_plus_class (p : ascii -> bool) (s : string) :
  Matches (Plus (Class p)) s
  <-> s ≠ "" ∧ Forall (fun c => p c = true) (list_ascii_of_string s).
Proof.
  unfold Plus. split.
  - inversion 1 as [| |? ? s1 s2 H1 H2| | | |]; subst.
    apply matches_class in H1 as (c & -> & Hc).
    apply matches_star_class in H2. simpl. split; [done|]. by constructor.
  - intros [Hne H]. destruct s as [|c s]; [done|]. simpl in H.
    apply Forall_cons in H as [Hc Hs].
    change (String c s) with (String c "" +:+ s).
    constructor; [by constructor|by apply matches_star_class].
Qed.

Lemma matches_char (x : ascii) (s : string) :
  Matches (Class (Ascii.eqb x)) s <-> s = String x "".
Proof.
  rewrite matches_class. split.
  - intros (c & -> & Hc). apply Ascii.eqb_eq in Hc. by subst.
  - intros ->. exists x. split; [done|apply Ascii.eqb_refl].
Qed.

Lemma emailRegex_matches (s : string) :
  Matches emailRegex s <-> wellFormedEmail s.
Proof.
  unfold emailRegex, wellFormedEmail, plainText. split.
  - inversion 1 as [| |? ? l s1 Hl H1| | | |]; subst.
    inversion H1 as [| |? ? at_ s2 Hat H2| | | |]; subst.
    inversion H2 as [| |? ? a s3 Ha H3| | | |]; subst.
    inversion H3 as [| |? ? dot b Hdot Hb| | | |]; subst.
    apply matches_char in Hat as ->. apply matches_char in Hdot as ->.
    apply matches_plus_class in Hl, Ha, Hb.
    exists l, a, b. done.
  - intros (l & a & b & -> & Hl & Ha & Hb).
    apply matches_plus_class in Hl, Ha, Hb.
    constructor; [done|].
    change ("@" +:+ a +:+ "." +:+ b) with (String "@" "" +:+ a +:+ "." +:+ b).
    constructor; [by apply matches_char|].
    constructor; [done|].
    change ("." +:+ b) with (String "." "" +:+ b).
    constructor; [by apply matches_char|done].
Qed.

Lemma validateEmail_wellFormed (s : string) :
  validateEmail s = true <-> wellFormedEmail s.
Proof. unfold validateEmail. rewrite test_spec. apply emailRegex_matches. Qed.

(** X1.  The email check of the invitation form accepts exactly the
    strings of the shape local@domain.tld in which the three parts are
    non-empty and hold neither white space nor an at sign. *)
Theorem validateEmail_accepts (s : string) :
  validateEmail s = true <-> wellFormedEmail s.
Proof. apply validateEmail_wellFormed. Qed.

Lemma plain_inv (c : ascii) :
  plain c = true -> JS.isWhiteSpace c = false ∧ c ≠ "@"%char.
Proof.
  unfold plain. intros H. apply andb_true_iff in H as [H1 H2].
  apply negb_true_iff in H1, H2. split; [done|].
  intros ->. by rewrite Ascii.eqb_refl in H2.
Qed.

Lemma plainText_no_space (s : string) :
  plainText s ->
  Forall (fun c => JS.isWhiteSpace c = false) (list_ascii_of_string s)
  ∧ filter (fun c => c = "@"%char) (list_ascii_of_string s) = [].
Proof.
  intros [_ H]. induction H as [|c l Hc _ [IH1 IH2]]; [done|].
  apply plain_inv in Hc as [Hw Hat]. split; [by constructor|].
  rewrite filter_cons. by rewrite decide_False.
Qed.

Lemma valid_email_shape (s : string) :
  validateEmail s = true ->
  Forall (fun c => JS.isWhiteSpace c = false) (list_ascii_of_string s)
  ∧ length (filter (fun c => c = "@"%char) (list_ascii_of_string s)) = 1%nat
  ∧ JS.trim s = s
  ∧ s ≠ "".
Proof.
  intros H. apply validateEmail_wellFormed in H as (l & a & b & -> & Hl & Ha & Hb).
  destruct (plainText_no_space l Hl) as [Hl1 Hl2].
  destruct (plainText_no_space a Ha) as [Ha1 Ha2].
  destruct (plainText_no_space b Hb) as [Hb1 Hb2].
  assert (Hall : Forall (fun c => JS.isWhiteSpace c = false)
                   (list_ascii_of_string (l +:+ "@" +:+ a +:+ "." +:+ b))).
  { rewrite !chars_append. simpl.
    apply Forall_app. split; [done|]. constructor; [done|].
    apply Forall_app. split; [done|]. by constructor. }
  split; [done|]. split; [|split; [by apply trim_no_space|]].
  - rewrite !chars_append. simpl.
    rewrite filter_app, filter_cons, decide_True by done.
    rewrite filter_app, filter_cons, decide_False by done.
    by rewrite Hl2, Ha2, Hb2.
  - destruct Hl as [Hne _]. destruct l; [done|discriminate].
Qed.

(** X2.  An accepted address holds no white space and exactly one at
    sign, so trimming it changes nothing. *)
Theorem validateEmail_shape (s : string) :
  validateEmail s = true ->
  Forall (fun c => JS.isWhiteSpace c = false) (list_ascii_of_string s)
  ∧ length (filter (fun c => c = "@"%char) (list_ascii_of_string s)) = 1%nat
  ∧ JS.trim s = s
  ∧ s ≠ "".
Proof. apply valid_email_shape. Qed.

Lemma validateEmail_shape_witness :
  Forall (fun c => JS.isWhiteSpace c = false) (list_ascii_of_string "bob@x.com")
  ∧ length (filter (fun c => c = "@"%char) (list_ascii_of_string "bob@x.com")) = 1%nat
  ∧ JS.trim "bob@x.com" = "bob@x.com"
  ∧ "bob@x.com" ≠ "".
Proof. apply (validateEmail_shape "bob@x.com"). reflexivity. Defined.

(** X3.  The invitation form sends the request exactly for the
    addresses the check accepts, with the address as typed and the role
    selected; an input that is blank after trimming is answered with
    the request for an address, any other refused input with the
    request for a valid one. *)
Theorem handleInvite_outcome (projectId : string) (st : State) :
  (validateEmail (email st) = true ->
   handleInvite projectId st = PostInvitation projectId (email st) (role st))
  ∧ (validateEmail (email st) = false -> JS.trim (email st) = "" ->
     handleInvite projectId st = Toast "Please enter an email address")
  ∧ (validateEmail (email st) = false -> JS.trim (email st) ≠ "" ->
     handleInvite projectId st = Toast "Please enter a valid email address").
Proof.
  unfold handleInvite. split; [|split].
  - intros Hv. destruct (valid_email_shape _ Hv) as (_ & _ & Ht & Hne).
    rewrite Ht, Hv. destruct (email st); [done|]. done.
  - intros _ ->. done.
  - intros Hv Hne. rewrite Hv. destruct (JS.trim (email st)); done.
Qed.

Lemma handleInvite_outcome_witness :
  handleInvite "p1" (mkState " bob@x.com" Viewer)
  = Toast "Please enter a valid email address".
Proof.
  apply (proj2 (proj2 (handleInvite_outcome "p1" (mkState " bob@x.com" Viewer)))).
  - reflexivity.
  - simpl. discriminate.
Defined.

Example validateEmail_examples :
  validateEmail "bob@x.com" = true
  ∧ validateEmail "a.b@c.d.e" = true
  ∧ validateEmail "bob@x" = false
  ∧ validateEmail "bob@.com" = false
  ∧ validateEmail "bob@x." = false
  ∧ validateEmail "@x.com" = false
  ∧ validateEmail "bob@@x.com" = false
  ∧ validateEmail "bob smith@x.com" = false
  ∧ validateEmail "" = false.
Proof. repeat split; reflexivity. Qed.

End InviteFacts.

(** ** The project dialog and the sign-in forms *)

Section FormFacts.

Lemma lengthIssues_nil (path tooShort tooLong : string) (lo hi : nat) (s : string) :
  Forms.lengthIssues path lo tooShort hi tooLong s = []
  <-> (lo <= String.length s <= hi)%nat.
Proof.
  unfold Forms.lengthIssues.
  destruct (Nat.ltb_spec (String.length s) lo);
    destruct (Nat.ltb_spec hi (String.length s)); simpl;
    split; intros; try discriminate; try lia; done.
Qed.

(** One message per field that is out of bounds. *)
Lemma lengthIssues_cases (path tooShort tooLong : string) (lo hi : nat) (s : string) :
  (lo <= hi)%nat ->
  ((lo <= String.length s <= hi)%nat
   ∧ Forms.lengthIssues path lo tooShort hi tooLong s = [])
  ∨ ((String.length s < lo)%nat
     ∧ Forms.lengthIssues path lo tooShort hi tooLong s = [(path, tooShort)])
  ∨ ((hi < String.length s)%nat
     ∧ Forms.lengthIssues path lo tooShort hi tooLong s = [(path, tooLong)]).
Proof.
  intros Hlohi. unfold Forms.lengthIssues.
  destruct (Nat.ltb_spec (String.length s) lo);
    destruct (Nat.ltb_spec hi (String.length s)); simpl.
  - lia.
  - right; left. split; [lia|done].
  - right; right. split; [lia|done].
  - left. split; [lia|done].
Qed.

End FormFacts.

Section ProjectDialogFacts.

Import CreateProjectDialog.

Lemma projectSchema_cases (f : Form) :
  exists ti de,
    projectSchema f = ti ++ de
    ∧ ((projectTitleOk f ∧ ti = [])
       ∨ (String.length (JS.trim (title f)) = 0%nat
          ∧ ti = [("title", "Title is required")])
       ∨ ((100 < String.length (JS.trim (title f)))%nat
          ∧ ti = [("title", "Title too long")]))
    ∧ ((projectDescriptionOk f ∧ de = [])
       ∨ (~ projectDescriptionOk f
          ∧ de = [("description", "Description too long")])).
Proof.
  unfold projectSchema, projectTitleOk, projectDescriptionOk.
  eexists _, _. split; [reflexivity|]. split.
  - destruct (lengthIssues_cases "title" "Title is required" "Title too long"
                1 100 (JS.trim (title f))) as [[H ->]|[[H ->]|[H ->]]]; [lia|..].
    + by left.
    + right; left. split; [lia|done].
    + right; right. done.
  - destruct (Nat.ltb_spec 1000 (String.length (JS.trim (description f)))).
    + right. split; [lia|done].
    + left. done.
Qed.

(** X4.  The project dialog sends the request exactly when the trimmed
    title has 1 to 100 characters and the trimmed description at most
    1000; the request carries the trimmed title and the trimmed
    description, or null for a blank one.  Otherwise nothing is sent
    and the errors name exactly the fields out of bounds, with the
    message of the bound that failed. *)
Theorem createProject_form (f : Form) :
  (projectTitleOk f ∧ projectDescriptionOk f ->
   handleSubmit f = PostProject (mkProjectCreate (JS.trim (title f))
                                   (JS.orNull (JS.trim (description f)))))
  ∧ (~ (projectTitleOk f ∧ projectDescriptionOk f) ->
     exists fe,
       handleSubmit f = ShowErrors fe
       ∧ (fe !! "title" = None <-> projectTitleOk f)
       ∧ (String.length (JS.trim (title f)) = 0%nat ->
          fe !! "title" = Some "Title is required")
       ∧ ((100 < String.length (JS.trim (title f)))%nat ->
          fe !! "title" = Some "Title too long")
       ∧ (fe !! "description" = None <-> projectDescriptionOk f)).
Proof.
  unfold handleSubmit.
  destruct (projectSchema_cases f) as (ti & de & -> & Hti & Hde).
  unfold projectTitleOk, projectDescriptionOk in *.
  destruct Hti as [[Ht ->]|[[Ht ->]|[Ht ->]]];
    destruct Hde as [[Hd ->]|[Hd ->]]; simpl; split;
    try (intros; done); try (intros [? ?]; lia); try (intros [? ?]; done);
    try (intros Hn; exfalso; apply Hn; split; (done || lia)).
  all: intros _; eexists; split; [reflexivity|].
  all: unfold Forms.fieldErrors; simpl.
  all: repeat split; intros; try done; try lia.
Qed.

Lemma createProject_form_witness :
  exists fe,
    handleSubmit (mkForm "   " "A launch plan") = ShowErrors fe
    ∧ (fe !! "title" = None <-> projectTitleOk (mkForm "   " "A launch plan"))
    ∧ (String.length (JS.trim "   ") = 0%nat ->
       fe !! "title" = Some "Title is required")
    ∧ ((100 < String.length (JS.trim "   "))%nat ->
       fe !! "title" = Some "Title too long")
    ∧ (fe !! "description" = None
       <-> projectDescriptionOk (mkForm "   " "A launch plan")).
Proof.
  apply (proj2 (createProject_form (mkForm "   " "A launch plan"))).
  unfold projectTitleOk. simpl. lia.
Defined.

End ProjectDialogFacts.

Section AuthFacts.

Import AuthPage.

Variable isEmail : string -> bool.

Lemma emailIssues_nil (e : string) :
  emailIssues isEmail e = []
  <-> isEmail e = true ∧ (String.length e <= 255)%nat.
Proof.
  unfold emailIssues.
  destruct (isEmail e); destruct (Nat.ltb_spec 255 (String.length e)); simpl;
    split; try discriminate; try done; intros [? ?]; (discriminate || lia).
Qed.

Lemma signInSchema_nil (d : SignInData) :
  signInSchema isEmail d = [] <-> credentialsOk isEmail (si_email d) (si_password d).
Proof.
  unfold signInSchema, credentialsOk, passwordIssues. split.
  - intros H. apply app_eq_nil in H as [He Hp].
    apply emailIssues_nil in He. apply lengthIssues_nil in Hp. tauto.
  - intros (He & Hl & Hp).
    rewrite (proj2 (emailIssues_nil _)) by done.
    by rewrite (proj2 (lengthIssues_nil _ _ _ _ _ _)).
Qed.

Lemma signUpSchema_nil (d : SignUpData) :
  signUpSchema isEmail d = []
  <-> credentialsOk isEmail (su_email d) (su_password d) ∧ usernameOk (su_username d).
Proof.
  unfold signUpSchema, credentialsOk, usernameOk, passwordIssues, usernameIssues.
  split.
  - intros H. apply app_eq_nil in H as [He H]. apply app_eq_nil in H as [Hp Hu].
    apply emailIssues_nil in He.
    apply lengthIssues_nil in Hp. apply lengthIssues_nil in Hu. tauto.
  - intros ((He & Hl & Hp) & Hu).
    rewrite (proj2 (emailIssues_nil _)) by done.
    rewrite (proj2 (lengthIssues_nil _ _ _ _ _ _)) by done.
    by rewrite (proj2 (lengthIssues_nil _ _ _ _ _ _)).
Qed.

Lemma handleSignUp_accepts (d : SignUpData) :
  handleSignUp isEmail d = SignUp (su_email d) (su_password d) (su_username d)
  <-> credentialsOk isEmail (su_email d) (su_password d) ∧ usernameOk (su_username d).
Proof.
  rewrite <- signUpSchema_nil. unfold handleSignUp.
  destruct (signUpSchema isEmail d); split; try done.
Qed.

Lemma handleSignIn_accepts (d : SignInData) :
  handleSignIn isEmail d = SignIn (si_email d) (si_password d)
  <-> credentialsOk isEmail (si_email d) (si_password d).
Proof.
  rewrite <- signInSchema_nil. unfold handleSignIn.
  destruct (signInSchema isEmail d); split; try done.
Qed.

Lemma handleSignUp_raw (d : SignUpData) (e p u : string) :
  handleSignUp isEmail d = SignUp e p u ->
  e = su_email d ∧ p = su_password d ∧ u = su_username d.
Proof.
  unfold handleSignUp. destruct (signUpSchema isEmail d); [|discriminate].
  by intros [= <- <- <-].
Qed.

(** X5.  The sign-up form calls the registration exactly when the email
    passes the email check and has at most 255 characters, the password
    has 6 to 100 characters (spaces included) and the username, once
    trimmed, has 2 to 50; the registration receives the three values as
    typed, the username untrimmed. *)
Theorem signUp_form (d : SignUpData) :
  (handleSignUp isEmail d = SignUp (su_email d) (su_password d) (su_username d)
   <-> credentialsOk isEmail (su_email d) (su_password d) ∧ usernameOk (su_username d))
  ∧ (forall e p u, handleSignUp isEmail d = SignUp e p u ->
        e = su_email d ∧ p = su_password d ∧ u = su_username d).
Proof. split; [apply handleSignUp_accepts|apply handleSignUp_raw]. Qed.

(** X6.  Credentials the sign-up form lets through are never stopped by
    the sign-in form. *)
Theorem signUp_then_signIn (d : SignUpData) (e p u : string) :
  handleSignUp isEmail d = SignUp e p u ->
  handleSignIn isEmail (mkSignInData e p) = SignIn e p.
Proof.
  intros H. destruct (handleSignUp_raw d e p u H) as (-> & -> & ->).
  apply handleSignUp_accepts in H as [Hc _].
  by apply (handleSignIn_accepts (mkSignInData (su_email d) (su_password d))).
Qed.

End AuthFacts.

Section AuthWitnesses.

Import AuthPage.

Lemma signUp_form_witness :
  handleSignUp InviteMemberForm.validateEmail
               (mkSignUpData "bob@x.com" "s3cret " "  bo  ")
  = SignUp "bob@x.com" "s3cret " "  bo  ".
Proof.
  apply (proj2 (proj1 (signUp_form InviteMemberForm.validateEmail
                         (mkSignUpData "bob@x.com" "s3cret " "  bo  ")))).
  unfold credentialsOk, usernameOk. simpl. repeat split; lia.
Defined.

Lemma signUp_then_signIn_witness :
  handleSignIn InviteMemberForm.validateEmail (mkSignInData "bob@x.com" "s3cret ")
  = SignIn "bob@x.com" "s3cret ".
Proof.
  apply (signUp_then_signIn InviteMemberForm.validateEmail
           (mkSignUpData "bob@x.com" "s3cret " "  bo  ")
           "bob@x.com" "s3cret " "  bo  ").
  reflexivity.
Defined.

End AuthWitnesses.

(** ** What the task form sends and shows *)

Section TaskFormFacts.

Import CreateTaskDialog.

Lemma Qeq_bool_inject_Z (n : Z) : Qeq_bool (inject_Z n) 0 = true <-> n = 0.
Proof.
  rewrite Qeq_bool_iff. unfold Qeq, inject_Z. simpl. lia.
Qed.

Lemma effortOf_cases (f : Form) :
  (form_effortEstimate f = "" ∧ effortOf f = None)
  ∨ (form_effortEstimate f ≠ "" ∧ JS.parseInt (form_effortEstimate f) = None
     ∧ effortOf f = Some JS.NaN)
  ∨ (exists n, form_effortEstimate f ≠ ""
               ∧ JS.parseInt (form_effortEstimate f) = Some n
               ∧ effortOf f = Some (JS.Num (inject_Z n))).
Proof.
  unfold effortOf. destruct (form_effortEstimate f) as [|c s] eqn:He; simpl.
  - by left.
  - right. destruct (JS.parseInt (String c s)) as [n|]; simpl.
    + right. exists n. done.
    + left. done.
Qed.

(** X7.  A request of the task form always carries a title that is
    trimmed and has 1 to 200 characters, the provenance "user" with no
    AI fields, and an effort estimate that is either null or a whole
    number above 0 and at most 1000: an estimate of 0, like an empty
    field, is sent as null. *)
Theorem taskForm_request (projectId : string) (f : Form) (req : Api.Request) :
  handleSubmit projectId f = Send req ->
  exists body,
    req = Api.PostTask projectId body
    ∧ tc_title body = JS.trim (form_title f)
    ∧ trimmed (tc_title body)
    ∧ (1 <= String.length (tc_title body) <= 200)%nat
    ∧ tc_description body = JS.orNull (JS.trim (form_description f))
    ∧ tc_priority body = form_priority f
    ∧ tc_created_by body = user
    ∧ tc_ai_generated body = false
    ∧ tc_ai_priority_suggestion body = None
    ∧ tc_ai_effort_suggestion body = None
    ∧ (tc_effort_estimate body = None
       <-> form_effortEstimate f = ""
           ∨ JS.parseInt (form_effortEstimate f) = Some 0)
    ∧ (forall q, tc_effort_estimate body = Some q ->
          (0 < q)%Q ∧ (q <= 1000)%Q
          ∧ exists n, JS.parseInt (form_effortEstimate f) = Some n
                      ∧ q = inject_Z n).
Proof.
  intros Hsend.
  assert (Hb : withinBounds (inputOf f)).
  { apply taskSchema_success. apply (handleSubmit_sends projectId). eauto. }
  destruct Hb as (Ht & _ & He). simpl in Ht, He.
  revert Hsend. unfold handleSubmit. fold (inputOf f).
  destruct (taskSchema (inputOf f)) as [d|errs]; [|discriminate].
  intros [= <-]. eexists. split; [reflexivity|]. simpl.
  split; [done|]. split; [apply trim_trimmed|]. split; [exact Ht|].
  do 6 (split; [done|]).
  destruct (effortOf_cases f) as [[Hf Hn]|[(Hf & Hp & Hn)|(n & Hf & Hp & Hn)]];
    rewrite Hn in *; simpl in *.
  - split; [split; [by left|done]|]. intros q [=].
  - done.
  - destruct He as [H0 H1000].
    destruct (Qeq_bool (inject_Z n) 0) eqn:Hz.
    + apply Qeq_bool_inject_Z in Hz as ->. split; [|intros q [=]].
      split; [intros _; by right|done].
    + split.
      * split; [discriminate|]. intros [Hempty|Hzero]; [done|].
        rewrite Hp in Hzero. injection Hzero as ->.
        by rewrite (proj2 (Qeq_bool_inject_Z 0)) in Hz.
      * intros q [= <-]. split; [|split; [done|eauto]].
        apply Qle_lt_or_eq in H0 as [Hlt|Heq]; [done|].
        symmetry in Heq. apply Qeq_bool_iff in Heq. congruence.
Qed.

Lemma taskForm_request_witness :
  exists body,
    Api.PostTask "p1" (mkTaskCreate "Write tests" None medium None false None None user)
    = Api.PostTask "p1" body
    ∧ tc_title body = JS.trim " Write tests "
    ∧ trimmed (tc_title body)
    ∧ (1 <= String.length (tc_title body) <= 200)%nat
    ∧ tc_description body = JS.orNull (JS.trim "  ")
    ∧ tc_priority body = medium
    ∧ tc_created_by body = user
    ∧ tc_ai_generated body = false
    ∧ tc_ai_priority_suggestion body = None
    ∧ tc_ai_effort_suggestion body = None
    ∧ (tc_effort_estimate body = None
       <-> "0" = "" ∨ JS.parseInt "0" = Some 0)
    ∧ (forall q, tc_effort_estimate body = Some q ->
          (0 < q)%Q ∧ (q <= 1000)%Q
          ∧ exists n, JS.parseInt "0" = Some n ∧ q = inject_Z n).
Proof.
  apply (taskForm_request "p1" (mkForm " Write tests " "  " medium "0")).
  reflexivity.
Defined.

End TaskFormFacts.

(** ** Editing the suggestions *)

Section SuggestionFacts.

Import AIGeneratePage.

Lemma applyUpdates_keeps (s : AISuggestion) (u : Updates) :
  suggestion_id (applyUpdates s u) = suggestion_id s
  ∧ source (applyUpdates s u) = source s
  ∧ modified (applyUpdates s u) = true.
Proof. done. Qed.

Lemma handleUpdate_lookup (l : list AISuggestion) (id : string) (u : Updates)
    (i : nat) :
  handleUpdate l id u !! i
  = (fun s => if String.eqb (suggestion_id s) id then applyUpdates s u else s)
      <$> l !! i.
Proof. unfold handleUpdate. apply list_lookup_fmap. Qed.

Lemma handleUpdate_fields (l : list AISuggestion) (id : string) (u : Updates) :
  suggestion_id <$> handleUpdate l id u = suggestion_id <$> l
  ∧ source <$> handleUpdate l id u = source <$> l.
Proof.
  unfold handleUpdate. rewrite <- !list_fmap_compose. split.
  - apply list_fmap_ext. intros _ s _. simpl. by destruct (String.eqb _ _).
  - apply list_fmap_ext. intros _ s _. simpl. by destruct (String.eqb _ _).
Qed.

Lemma count_by_source (v : string) (l1 l2 : list AISuggestion) :
  source <$> l1 = source <$> l2 ->
  length (filter (fun s => source s = v) l1)
  = length (filter (fun s => source s = v) l2).
Proof.
  revert l2. induction l1 as [|x l1 IH]; intros [|y l2] Hl; try done.
  rewrite !fmap_cons in Hl. injection Hl as Hxy Hl.
  rewrite !filter_cons, Hxy. specialize (IH l2 Hl).
  destruct (decide (source y = v)); simpl; by rewrite IH.
Qed.

Lemma handleUpdate_modified (l : list AISuggestion) (id : string) (u : Updates) :
  (modifiedCount l <= modifiedCount (handleUpdate l id u))%nat.
Proof.
  unfold modifiedCount, handleUpdate.
  induction l as [|s l IH]; [done|].
  rewrite fmap_cons, !filter_cons.
  destruct (String.eqb (suggestion_id s) id).
  - rewrite (decide_True (P := modified (applyUpdates s u) = true)) by done.
    destruct (decide (modified s = true)); simpl; lia.
  - destruct (decide (modified s = true)); simpl; lia.
Qed.

(** X8.  An edit of a suggestion changes neither the number, the order,
    the ids nor the sources of the suggestions, so the counts of AI
    generated and manual suggestions stay as they are, and the count of
    modified suggestions never goes down. *)
Theorem handleUpdate_keeps_provenance (l : list AISuggestion) (id : string)
    (u : Updates) :
  length (handleUpdate l id u) = length l
  ∧ suggestion_id <$> handleUpdate l id u = suggestion_id <$> l
  ∧ source <$> handleUpdate l id u = source <$> l
  ∧ aiGeneratedCount (handleUpdate l id u) = aiGeneratedCount l
  ∧ manualCount (handleUpdate l id u) = manualCount l
  ∧ (modifiedCount l <= modifiedCount (handleUpdate l id u))%nat.
Proof.
  destruct (handleUpdate_fields l id u) as [Hid Hsrc].
  split; [unfold handleUpdate; apply length_fmap|].
  do 2 (split; [done|]).
  split; [|split; [|apply handleUpdate_modified]].
  - unfold aiGeneratedCount.
    by apply count_by_source.
  - unfold manualCount.
    by apply count_by_source.
Qed.

(** ** Adding a task by hand *)

Lemma tasksToCreate_app (l1 l2 : list AISuggestion) :
  tasksToCreate (l1 ++ l2) = tasksToCreate l1 ++ tasksToCreate l2.
Proof. unfold tasksToCreate. by rewrite filter_app, fmap_app. Qed.

Lemma changeTitle_fresh (l : list AISuggestion) (id v : string) :
  id ∉ suggestion_id <$> l -> changeTitle l id v = l.
Proof.
  unfold changeTitle. induction l as [|s l IH]; [done|].
  rewrite !fmap_cons, not_elem_of_cons. intros [Hne Hl].
  rewrite (IH Hl).
  destruct (String.eqb_spec (suggestion_id s) id); [congruence|done].
Qed.

Lemma changeTitle_added (l : list AISuggestion) (newId v : string) :
  newId ∉ suggestion_id <$> l ->
  changeTitle (handleAddManual l newId) newId v
  = l ++ [mkAISuggestion newId v "" medium None (4 # 1) None None true "user" true].
Proof.
  intros Hfresh. unfold handleAddManual.
  assert (Happ : forall l1 l2, changeTitle (l1 ++ l2) newId v
                               = changeTitle l1 newId v ++ changeTitle l2 newId v)
    by (intros; unfold changeTitle; apply fmap_app).
  rewrite Happ, (changeTitle_fresh l newId v Hfresh).
  unfold changeTitle. rewrite fmap_cons. simpl. by rewrite String.eqb_refl.
Qed.

Lemma handleAddManual_counts (l : list AISuggestion) (newId : string) :
  length (handleAddManual l newId) = S (length l)
  ∧ manualCount (handleAddManual l newId) = S (manualCount l)
  ∧ aiGeneratedCount (handleAddManual l newId) = aiGeneratedCount l
  ∧ modifiedCount (handleAddManual l newId) = modifiedCount l.
Proof.
  unfold manualCount, aiGeneratedCount, modifiedCount, handleAddManual.
  rewrite !filter_app, !length_app. simpl. repeat split; lia.
Qed.

Lemma handleAddManual_untitled (l : list AISuggestion) (newId : string) :
  tasksToCreate (handleAddManual l newId) = tasksToCreate l
  ∧ handleConfirm (handleAddManual l newId) = handleConfirm l.
Proof.
  unfold handleConfirm, handleAddManual. rewrite tasksToCreate_app, filter_app.
  split; [apply app_nil_r|]. by rewrite app_nil_r.
Qed.

(** X9.  A task added by hand starts without a title: until it gets one
    it is counted as a manual task but is left out of what is saved.
    Once a title that is not blank is typed into it (its id being that
    of no other suggestion), the request ends with one more item: a
    user task with that title trimmed, no description, priority medium,
    4 hours and no AI fields.  Typing the title also counts the task
    among the modified ones. *)
Theorem manual_task_saved (l : list AISuggestion) (newId v : string) :
  newId ∉ suggestion_id <$> l ->
  JS.truthy (JS.trim v) = true ->
  tasksToCreate (handleAddManual l newId) = tasksToCreate l
  ∧ handleConfirm (handleAddManual l newId) = handleConfirm l
  ∧ manualCount (handleAddManual l newId) = S (manualCount l)
  ∧ aiGeneratedCount (handleAddManual l newId) = aiGeneratedCount l
  ∧ tasksToCreate (changeTitle (handleAddManual l newId) newId v)
    = tasksToCreate l
      ++ [mkTaskCreate (JS.trim v) None medium (Some (4 # 1)) false None None user]
  ∧ handleConfirm (changeTitle (handleAddManual l newId) newId v) = true
  ∧ modifiedCount (changeTitle (handleAddManual l newId) newId v)
    = S (modifiedCount l).
Proof.
  intros Hfresh Hv.
  destruct (handleAddManual_untitled l newId) as [Hreq Hconf].
  destruct (handleAddManual_counts l newId) as (_ & Hman & Hai & _).
  do 4 (split; [done|]).
  rewrite (changeTitle_added l newId v Hfresh).
  split; [|split].
  - rewrite tasksToCreate_app. f_equal.
    unfold tasksToCreate. rewrite filter_cons, decide_True by exact Hv. done.
  - unfold handleConfirm. rewrite filter_app, length_app.
    rewrite (filter_cons _ _ []), decide_True by exact Hv.
    simpl. apply negb_true_iff, Nat.eqb_neq. lia.
  - unfold modifiedCount. rewrite filter_app, length_app. simpl. lia.
Qed.

Lemma manual_task_saved_witness :
  tasksToCreate (changeTitle (handleAddManual [suggested] "manual-1") "manual-1" " Deploy ")
  = tasksToCreate [suggested]
    ++ [mkTaskCreate (JS.trim " Deploy ") None medium (Some (4 # 1)) false None None user].
Proof.
  apply (manual_task_saved [suggested] "manual-1" " Deploy ").
  - simpl. rewrite list_elem_of_singleton. discriminate.
  - reflexivity.
Defined.

(** ** Confirming and saving *)

Lemma filter_length_all {A} (P : A -> Prop) `{!forall x, Decision (P x)} (l : list A) :
  length (filter P l) = length l <-> Forall P l.
Proof.
  split.
  - intros Hlen. apply Forall_forall. intros x Hx.
    destruct (decide (P x)) as [|Hn]; [done|].
    pose proof (length_filter_lt P l x Hx Hn). lia.
  - intros Hall. by rewrite (filter_all P l Hall).
Qed.

Lemma handleConfirm_spec (l : list AISuggestion) :
  handleConfirm l = true <-> exists s, s ∈ l ∧ hasTitle s.
Proof.
  unfold handleConfirm. rewrite negb_true_iff, Nat.eqb_neq. split.
  - intros Hne. destruct (filter hasTitle l) as [|s r] eqn:E; [done|].
    assert (Hin : s ∈ filter hasTitle l) by (rewrite E; left).
    apply list_elem_of_filter in Hin as [Ht Hs]. by exists s.
  - intros (s & Hs & Ht) Hlen.
    apply length_zero_iff_nil in Hlen.
    assert (Hin : s ∈ filter hasTitle l) by by apply list_elem_of_filter.
    rewrite Hlen in Hin. by apply not_elem_of_nil in Hin.
Qed.

(** X10.  The page moves on to the confirmation step exactly when some
    suggestion has a title that is not blank, which is exactly when the
    request of the save is not empty.  The request never holds more
    tasks than there are suggestions, and holds as many (the number the
    save button shows) only when every suggestion has a title. *)
Theorem handleConfirm_and_save (l : list AISuggestion) :
  (handleConfirm l = true <-> exists s, s ∈ l ∧ hasTitle s)
  ∧ (handleConfirm l = true <-> tasksToCreate l ≠ [])
  ∧ (length (tasksToCreate l) <= length l)%nat
  ∧ (length (tasksToCreate l) = length l <-> Forall hasTitle l).
Proof.
  split; [apply handleConfirm_spec|]. unfold tasksToCreate, handleConfirm.
  rewrite length_fmap. split; [|split].
  - rewrite negb_true_iff, Nat.eqb_neq.
    destruct (filter hasTitle l); simpl; split; try done; lia.
  - apply length_filter.
  - apply filter_length_all.
Qed.

Lemma truthy_nonempty (x : string) : JS.truthy x = true <-> x ≠ "".
Proof. destruct x; simpl; split; done. Qed.

Lemma orNull_cases (x : string) (d : string) :
  JS.orNull x = Some d -> d = x ∧ d ≠ "".
Proof.
  unfold JS.orNull. destruct (JS.truthy x) eqn:E; [|discriminate].
  intros [= <-]. split; [done|]. by apply truthy_nonempty.
Qed.

(** X11.  Every task of the request built by the save has a title that
    is trimmed and not empty, a description that is absent or trimmed
    and not empty, and an estimate.  It is tagged as created by the AI
    exactly when it is flagged as AI generated; then its AI suggestion
    fields repeat the priority and the estimate it is saved with, and
    otherwise they are absent. *)
Theorem handleSave_items (l : list AISuggestion) (t : TaskCreate) :
  t ∈ tasksToCreate l ->
  trimmed (tc_title t) ∧ tc_title t ≠ ""
  ∧ (forall d, tc_description t = Some d -> trimmed d ∧ d ≠ "")
  ∧ (exists q, tc_effort_estimate t = Some q)
  ∧ (tc_ai_generated t = true <-> tc_created_by t = ai)
  ∧ (tc_ai_generated t = true ->
     tc_ai_priority_suggestion t = Some (tc_priority t)
     ∧ tc_ai_effort_suggestion t = tc_effort_estimate t)
  ∧ (tc_ai_generated t = false ->
     tc_ai_priority_suggestion t = None ∧ tc_ai_effort_suggestion t = None).
Proof.
  intros Ht. apply tasksToCreate_elem in Ht as (s & _ & Hs & ->).
  unfold toTaskCreate. simpl.
  split; [apply trim_trimmed|]. split; [by apply truthy_nonempty|].
  split.
  { intros d Hd. apply orNull_cases in Hd as [-> Hne].
    split; [apply trim_trimmed|done]. }
  split; [eauto|].
  destruct (isGemini s); repeat split; try done.
Qed.

Lemma handleSave_items_witness :
  toTaskCreate suggested ∈ tasksToCreate [suggested]
  ∧ trimmed (tc_title (toTaskCreate suggested))
  ∧ tc_title (toTaskCreate suggested) ≠ "".
Proof.
  assert (H : toTaskCreate suggested ∈ tasksToCreate [suggested])
    by (apply list_elem_of_In; vm_compute; auto).
  split; [exact H|].
  destruct (handleSave_items [suggested] (toTaskCreate suggested) H) as (H1 & H2 & _).
  split; assumption.
Defined.

(** ** Removing a suggestion *)

Lemma handleRemove_elem (l : list AISuggestion) (id : string) (s : AISuggestion) :
  s ∈ handleRemove l id <-> s ∈ l ∧ suggestion_id s ≠ id.
Proof. unfold handleRemove. rewrite list_elem_of_filter. tauto. Qed.

Lemma handleRemove_gone (l : list AISuggestion) (id : string) :
  id ∉ suggestion_id <$> handleRemove l id.
Proof.
  rewrite list_elem_of_fmap. intros (s & -> & Hs).
  apply handleRemove_elem in Hs as [_ Hne]. done.
Qed.

Lemma handleRemove_absent (l : list AISuggestion) (id : string) :
  id ∉ suggestion_id <$> l -> handleRemove l id = l.
Proof.
  intros Hfresh. unfold handleRemove. apply filter_all, Forall_forall.
  intros s Hs Heq. apply Hfresh, list_elem_of_fmap. eauto.
Qed.

Lemma handleRemove_update (l : list AISuggestion) (id id' : string) (u : Updates) :
  handleRemove (handleUpdate l id' u) id = handleUpdate (handleRemove l id) id' u.
Proof.
  unfold handleRemove, handleUpdate. induction l as [|s l IH]; [done|].
  rewrite fmap_cons, !filter_cons, IH.
  assert (Hid : suggestion_id (if String.eqb (suggestion_id s) id'
                               then applyUpdates s u else s) = suggestion_id s)
    by by destruct (String.eqb _ _).
  rewrite Hid. destruct (decide (suggestion_id s ≠ id)); [by rewrite fmap_cons|done].
Qed.

Lemma handleRemove_after_update (l : list AISuggestion) (id : string) (u : Updates) :
  handleRemove (handleUpdate l id u) id = handleRemove l id.
Proof.
  rewrite handleRemove_update. unfold handleUpdate.
  rewrite <- (list_fmap_id (handleRemove l id)) at 2.
  apply list_fmap_ext. intros i s Hs.
  apply list_elem_of_lookup_2, handleRemove_elem in Hs as [_ Hne].
  simpl. by destruct (String.eqb_spec (suggestion_id s) id).
Qed.

(** X12.  Removing a suggestion deletes every suggestion with that id
    and nothing else: the others stay, in their order, and removing an
    id that is not in the list changes nothing.  Removal and editing
    commute, and an edit of the suggestion that is then removed leaves
    no trace. *)
Theorem handleRemove_only_that_id (l : list AISuggestion) (id : string) :
  (id ∉ suggestion_id <$> handleRemove l id)
  ∧ handleRemove l id `sublist_of` l
  ∧ (forall s, s ∈ handleRemove l id <-> s ∈ l ∧ suggestion_id s ≠ id)
  ∧ (id ∉ suggestion_id <$> l -> handleRemove l id = l)
  ∧ (forall id' u,
        handleRemove (handleUpdate l id' u) id = handleUpdate (handleRemove l id) id' u)
  ∧ (forall u, handleRemove (handleUpdate l id u) id = handleRemove l id).
Proof.
  split; [apply handleRemove_gone|]. split; [apply sublist_filter|].
  split; [apply handleRemove_elem|]. split; [apply handleRemove_absent|].
  split; [apply handleRemove_update|apply handleRemove_after_update].
Qed.

Lemma handleRemove_only_that_id_witness :
  handleRemove [suggested] "s2" = [suggested].
Proof.
  apply (proj1 (proj2 (proj2 (proj2 (handleRemove_only_that_id [suggested] "s2"))))).
  simpl. rewrite list_elem_of_singleton. discriminate.
Defined.

End SuggestionFacts.

(** ** The task list of the project page *)

Section TaskListFacts.

Import ProjectDetail TaskCard.

Lemma filter_length_le {A} (P Q : A -> Prop)
    `{!forall x, Decision (P x)} `{!forall x, Decision (Q x)} (l : list A) :
  (forall x, P x -> Q x) ->
  (length (filter P l) <= length (filter Q l))%nat
  ∧ (length (filter P l) = length (filter Q l) <-> Forall (fun x => Q x -> P x) l).
Proof.
  intros HPQ. induction l as [|x l [IHle IHeq]]; [by split|].
  rewrite !filter_cons, Forall_cons.
  destruct (decide (P x)) as [HP|HP]; destruct (decide (Q x)) as [HQ|HQ]; simpl.
  - split; [lia|]. rewrite <- IHeq. split; [intros; split; [done|lia]|intros [_ ?]; lia].
  - exfalso. auto.
  - split; [lia|]. split; [lia|]. intros [Hx _]. exfalso. auto.
  - split; [lia|]. rewrite <- IHeq. split; [intros; split; [done|lia]|intros [_ ?]; lia].
Qed.

Lemma knownStatus_todo (t : Task) :
  (isTodo t -> task_status t = "todo") <-> knownStatus t.
Proof.
  unfold isTodo, knownStatus. split.
  - intros H. destruct (decide (task_status t = "done")) as [|Hd]; [tauto|].
    destruct (decide (task_status t = "in_progress")) as [|Hp]; [tauto|].
    left. auto.
  - intros [H|[H|H]] [Hd Hp]; done.
Qed.

Lemma unknown_status_hidden (tasks : list Task) (t : Task) :
  ¬ knownStatus t ->
  (t ∉ todoTasks tasks) ∧ (t ∉ inProgressTasks tasks) ∧ (t ∉ doneTasks tasks).
Proof.
  unfold knownStatus, todoTasks, inProgressTasks, doneTasks, isDone.
  intros Hn. rewrite !list_elem_of_filter. tauto.
Qed.

(** X13.  The dashboard and the project page agree on the finished
    tasks and on those in progress.  The dashboard's count of pending
    tasks is never below the length of the to-do column, and the two
    are equal exactly when every task has one of the three statuses the
    page has a column for: a task with another status is counted as
    pending by the dashboard and shown in no column of the page. *)
Theorem columns_and_counters (tasks : list Task) :
  Dashboard.completed (Dashboard.taskStats tasks) = length (doneTasks tasks)
  ∧ Dashboard.in_progress (Dashboard.taskStats tasks) = length (inProgressTasks tasks)
  ∧ (length (todoTasks tasks) <= Dashboard.todo (Dashboard.taskStats tasks))%nat
  ∧ (length (todoTasks tasks) = Dashboard.todo (Dashboard.taskStats tasks)
     <-> Forall knownStatus tasks)
  ∧ ((length (todoTasks tasks) + length (inProgressTasks tasks)
      + length (doneTasks tasks))%nat = length tasks
     <-> Forall knownStatus tasks)
  ∧ (forall t, t ∈ tasks -> ¬ knownStatus t ->
        (t ∉ todoTasks tasks) ∧ (t ∉ inProgressTasks tasks) ∧ (t ∉ doneTasks tasks)).
Proof.
  destruct (taskStats_counts tasks) as (Hc & Hp & Ht).
  pose proof (status_classes_length tasks) as Hsum.
  destruct (filter_length_le (fun t => task_status t = "todo") isTodo tasks)
    as [Hle Heq].
  { unfold isTodo. intros t ->. done. }
  assert (Hknown : Forall (fun t => isTodo t -> task_status t = "todo") tasks
                   <-> Forall knownStatus tasks).
  { rewrite !Forall_forall. split; intros H t Ht'; apply knownStatus_todo; auto. }
  rewrite Hc, Hp, Ht. unfold todoTasks, inProgressTasks, doneTasks.
  change (filter isDone tasks) with (filter isCompleted tasks).
  change (filter (fun t => task_status t = "in_progress") tasks)
    with (filter isInProgress tasks).
  split; [done|]. split; [done|]. split; [done|].
  split; [by rewrite Heq|]. split.
  - rewrite <- Hknown, <- Heq. lia.
  - intros t _. apply unknown_status_hidden.
Qed.

Lemma columns_and_counters_witness :
  let t3 := mkTask "t3" "p1" "Triage" None low "blocked" None false None None user in
  (t3 ∉ todoTasks board) ∧ (t3 ∉ inProgressTasks board) ∧ (t3 ∉ doneTasks board).
Proof.
  apply (columns_and_counters board).
  - apply list_elem_of_In. simpl. auto.
  - unfold knownStatus. simpl. intros [H|[H|H]]; discriminate.
Defined.

Lemma mergeTask_keeps (t : Task) (u : TaskUpdates) :
  task_id (mergeTask t u) = task_id t
  ∧ task_project_id (mergeTask t u) = task_project_id t
  ∧ task_ai_generated (mergeTask t u) = task_ai_generated t
  ∧ task_ai_priority_suggestion (mergeTask t u) = task_ai_priority_suggestion t
  ∧ task_ai_effort_suggestion (mergeTask t u) = task_ai_effort_suggestion t
  ∧ task_created_by (mergeTask t u) = task_created_by t.
Proof. done. Qed.

Lemma handleTaskUpdated_ids (tasks : list Task) (id : string) (u : TaskUpdates)
    (res : Api.Result unit) :
  task_id <$> handleTaskUpdated tasks id u res = task_id <$> tasks.
Proof.
  destruct res; simpl; [|done]. rewrite <- list_fmap_compose.
  apply list_fmap_ext. intros i t _. simpl. by destruct (String.eqb _ _).
Qed.

Lemma handleTaskUpdated_elem (tasks : list Task) (id : string) (u : TaskUpdates)
    (t : Task) :
  task_id t ≠ id ->
  t ∈ handleTaskUpdated tasks id u (Api.Resolved tt) <-> t ∈ tasks.
Proof.
  intros Hne. simpl. rewrite list_elem_of_fmap. split.
  - intros (t0 & -> & Ht0).
    destruct (String.eqb_spec (task_id t0) id) as [Heq|]; [|done].
    exfalso. apply Hne. done.
  - intros Ht. exists t. split; [|done].
    by destruct (String.eqb_spec (task_id t) id).
Qed.

Lemma handleTaskUpdated_status (tasks : list Task) (id v : string) (t' : Task) :
  t' ∈ handleTaskUpdated tasks id (statusUpdates v) (Api.Resolved tt) ->
  task_id t' = id -> task_status t' = v.
Proof.
  simpl. rewrite list_elem_of_fmap. intros (t0 & -> & _).
  destruct (String.eqb_spec (task_id t0) id); [done|]. intros Heq. done.
Qed.

Lemma status_keeps_rest (tasks : list Task) (id v : string) :
  (task_effort_estimate <$>
     handleTaskUpdated tasks id (statusUpdates v) (Api.Resolved tt))
  = task_effort_estimate <$> tasks
  ∧ (wasModified <$> handleTaskUpdated tasks id (statusUpdates v) (Api.Resolved tt))
    = wasModified <$> tasks
  ∧ (task_title <$> handleTaskUpdated tasks id (statusUpdates v) (Api.Resolved tt))
    = task_title <$> tasks.
Proof.
  simpl. rewrite <- !list_fmap_compose.
  repeat split; apply list_fmap_ext; intros i t _; simpl;
    by destruct (String.eqb _ _).
Qed.

Lemma sumEffort_from `{A : Arith} (l1 l2 : list Task) (acc : num) :
  task_effort_estimate <$> l1 = task_effort_estimate <$> l2 ->
  fold_left (fun sum t => add sum (effortOrZero t)) l1 acc
  = fold_left (fun sum t => add sum (effortOrZero t)) l2 acc.
Proof.
  revert l2 acc. induction l1 as [|x l1 IH]; intros [|y l2] acc Hl; try done.
  rewrite !fmap_cons in Hl. injection Hl as Hxy Hl. simpl.
  unfold effortOrZero at 2 4. rewrite Hxy. by apply IH.
Qed.

Lemma status_keeps_total `{A : Arith} (tasks : list Task) (id v : string) :
  totalEffort (handleTaskUpdated tasks id (statusUpdates v) (Api.Resolved tt))
  = totalEffort tasks.
Proof.
  unfold totalEffort, sumEffort. apply sumEffort_from.
  apply (status_keeps_rest tasks id v).
Qed.

(** X14.  When the request succeeds, choosing a status on a task card
    gives that status to every task with the card's id and leaves the
    other tasks, the number and the order of the tasks as they are; it
    changes no estimate, so the total effort stays the same, and no
    "modified" badge.  When the request is rejected the list stays as
    it is. *)
Theorem status_change_moves_card (tasks : list Task) (id v : string) :
  length (handleTaskUpdated tasks id (statusUpdates v) (Api.Resolved tt))
  = length tasks
  ∧ (task_id <$> handleTaskUpdated tasks id (statusUpdates v) (Api.Resolved tt))
    = task_id <$> tasks
  ∧ (forall t',
        t' ∈ handleTaskUpdated tasks id (statusUpdates v) (Api.Resolved tt) ->
        task_id t' = id -> task_status t' = v)
  ∧ (forall t, task_id t ≠ id ->
        t ∈ handleTaskUpdated tasks id (statusUpdates v) (Api.Resolved tt)
        <-> t ∈ tasks)
  ∧ (wasModified <$> handleTaskUpdated tasks id (statusUpdates v) (Api.Resolved tt))
    = wasModified <$> tasks
  ∧ (forall A : Arith,
        totalEffort (handleTaskUpdated tasks id (statusUpdates v) (Api.Resolved tt))
        = totalEffort tasks)
  ∧ (forall message,
        handleTaskUpdated tasks id (statusUpdates v) (Api.Rejected message) = tasks).
Proof.
  split; [simpl; apply length_fmap|].
  split; [apply handleTaskUpdated_ids|].
  split; [apply handleTaskUpdated_status|].
  split; [intros t; apply handleTaskUpdated_elem|].
  split; [apply (status_keeps_rest tasks id v)|].
  split; [intros A; apply status_keeps_total|done].
Qed.

Lemma status_change_moves_card_witness :
  task_status (mkTask "t2" "p1" "Build API" None medium "done" (Some 5%Q) false
                      None None user) = "done".
Proof.
  apply (proj1 (proj2 (proj2 (status_change_moves_card board "t2" "done")))).
  - apply list_elem_of_In. simpl. auto.
  - reflexivity.
Defined.

Lemma priorityNe_spec (a : TaskPriority) (b : option TaskPriority) :
  priorityNe a b = true <-> Some a ≠ b.
Proof.
  unfold priorityNe. rewrite negb_true_iff, bool_decide_eq_false. done.
Qed.

(** X15.  No edit made on a task card touches the AI provenance of the
    task: the flag, the two suggestion fields and the author stay.  A
    task that is not AI generated therefore never gets the "modified"
    badge; an edit that changes neither priority nor estimate leaves the
    badge as it is; an AI task whose priority is set to a value other
    than the stored suggestion gets it; and setting the priority back
    gives the task back as it was. *)
Theorem card_edits_and_badge (t : Task) (u : TaskUpdates) :
  task_ai_generated (mergeTask t u) = task_ai_generated t
  ∧ task_ai_priority_suggestion (mergeTask t u) = task_ai_priority_suggestion t
  ∧ task_ai_effort_suggestion (mergeTask t u) = task_ai_effort_suggestion t
  ∧ task_created_by (mergeTask t u) = task_created_by t
  ∧ (task_ai_generated t = false -> wasModified (mergeTask t u) = false)
  ∧ (tu_priority u = None -> tu_effort_estimate u = None ->
     wasModified (mergeTask t u) = wasModified t)
  ∧ (forall p, task_ai_generated t = true -> tu_priority u = Some p ->
        Some p ≠ task_ai_priority_suggestion t ->
        wasModified (mergeTask t u) = true)
  ∧ (forall p,
        mergeTask (mergeTask t (priorityUpdates p)) (priorityUpdates (task_priority t))
        = t).
Proof.
  do 4 (split; [done|]). split; [|split; [|split]].
  - intros Hai. unfold wasModified. simpl. by rewrite Hai.
  - intros Hp He. unfold wasModified, mergeTask. simpl. by rewrite Hp, He.
  - intros p Hai Hp Hne. unfold wasModified, mergeTask. simpl.
    rewrite Hai, Hp. simpl.
    by rewrite (proj2 (priorityNe_spec p (task_ai_priority_suggestion t)) Hne).
  - intros p. by destruct t.
Qed.

Lemma card_edits_and_badge_witness :
  wasModified
    (mergeTask (mkTask "t1" "p1" "Design schema" None high "done" (Some 3%Q) true
                       (Some high) (Some 3%Q) ai)
               (priorityUpdates low)) = true.
Proof.
  apply (proj1 (proj2 (proj2 (proj2 (proj2 (proj2 (proj2
           (card_edits_and_badge
              (mkTask "t1" "p1" "Design schema" None high "done" (Some 3%Q) true
                      (Some high) (Some 3%Q) ai)
              (priorityUpdates low)))))))) low); [reflexivity|reflexivity|discriminate].
Defined.

Lemma handleTaskDeleted_elem (tasks : list Task) (id : string) (t : Task) :
  t ∈ handleTaskDeleted tasks id (Api.Resolved tt) <-> t ∈ tasks ∧ task_id t ≠ id.
Proof. simpl. rewrite list_elem_of_filter. tauto. Qed.

Lemma filter_comm {A} (P Q : A -> Prop)
    `{!forall x, Decision (P x)} `{!forall x, Decision (Q x)} (l : list A) :
  filter P (filter Q l) = filter Q (filter P l).
Proof.
  induction l as [|x l IH]; [done|].
  rewrite !filter_cons.
  destruct (decide (Q x)); destruct (decide (P x));
    rewrite ?filter_cons, ?decide_True, ?decide_False by done; by rewrite IH.
Qed.

Lemma handleTaskDeleted_after_update (tasks : list Task) (id : string)
    (u : TaskUpdates) :
  handleTaskDeleted (handleTaskUpdated tasks id u (Api.Resolved tt)) id
                    (Api.Resolved tt)
  = handleTaskDeleted tasks id (Api.Resolved tt).
Proof.
  simpl. induction tasks as [|t tasks IH]; [done|].
  rewrite fmap_cons, !filter_cons, IH.
  destruct (String.eqb_spec (task_id t) id) as [Heq|Hne].
  - rewrite decide_False by (simpl; tauto).
    by rewrite decide_False by tauto.
  - by rewrite !decide_True by done.
Qed.

(** X16.  When the request succeeds, deleting a task takes every task
    with that id off the list and nothing else, the others keeping their
    order; each column of the page loses exactly its tasks with that id;
    and an earlier edit of the deleted task leaves no trace.  When the
    request is rejected the list stays as it is. *)
Theorem handleTaskDeleted_only_that_id (tasks : list Task) (id : string) :
  (id ∉ task_id <$> handleTaskDeleted tasks id (Api.Resolved tt))
  ∧ handleTaskDeleted tasks id (Api.Resolved tt) `sublist_of` tasks
  ∧ (forall t, t ∈ handleTaskDeleted tasks id (Api.Resolved tt)
               <-> t ∈ tasks ∧ task_id t ≠ id)
  ∧ todoTasks (handleTaskDeleted tasks id (Api.Resolved tt))
    = handleTaskDeleted (todoTasks tasks) id (Api.Resolved tt)
  ∧ inProgressTasks (handleTaskDeleted tasks id (Api.Resolved tt))
    = handleTaskDeleted (inProgressTasks tasks) id (Api.Resolved tt)
  ∧ doneTasks (handleTaskDeleted tasks id (Api.Resolved tt))
    = handleTaskDeleted (doneTasks tasks) id (Api.Resolved tt)
  ∧ (forall u,
        handleTaskDeleted (handleTaskUpdated tasks id u (Api.Resolved tt)) id
                          (Api.Resolved tt)
        = handleTaskDeleted tasks id (Api.Resolved tt))
  ∧ (forall message, handleTaskDeleted tasks id (Api.Rejected message) = tasks).
Proof.
  split.
  { rewrite list_elem_of_fmap. intros (t & -> & Ht).
    apply handleTaskDeleted_elem in Ht as [_ Hne]. done. }
  split; [apply sublist_filter|]. split; [apply handleTaskDeleted_elem|].
  unfold todoTasks, inProgressTasks, doneTasks. simpl.
  do 3 (split; [apply filter_comm|]).
  split; [apply handleTaskDeleted_after_update|done].
Qed.

End TaskListFacts.

(** ** The ends of the progress bar, and marking a task as done *)

Section ProgressEdges.

Context {R : Rounding}.

Import ProjectDetail TaskCard.

Local Open Scope Q_scope.

Lemma rnd_proper (x y : Q) : x == y -> rnd x == rnd y.
Proof.
  intros H. apply Qle_antisym; apply rnd_mono; rewrite H; apply Qle_refl.
Qed.

Lemma scaled_one (q : Q) :
  q == 1 -> Qfloor (rnd (rnd q * rnd 100) + (1 # 2)) = 100%Z.
Proof.
  intros Hq.
  assert (H100 : rnd (rnd q * rnd 100) == 100).
  { apply Qeq_trans with (rnd 100); [|apply rnd_100]. apply rnd_proper.
    rewrite (rnd_proper q 1 Hq), rnd_1, rnd_100. ring. }
  rewrite H100. reflexivity.
Qed.

Lemma scaled_zero (q : Q) :
  q == 0 -> Qfloor (rnd (rnd q * rnd 100) + (1 # 2)) = 0%Z.
Proof.
  intros Hq.
  assert (H0 : rnd (rnd q * rnd 100) == 0).
  { apply Qeq_trans with (rnd 0); [|apply rnd_0]. apply rnd_proper.
    rewrite (rnd_proper q 0 Hq), rnd_0. ring. }
  rewrite H0. reflexivity.
Qed.

Lemma progressPercent_unbounded (tasks : list Task) :
  progressPercent (A := unbounded R) tasks
  = if Qlt_le_dec (rnd 0) (totalEffort (A := unbounded R) tasks)
    then Some (Qfloor (rnd (rnd (completedEffort (A := unbounded R) tasks
                                 / totalEffort (A := unbounded R) tasks)
                            * rnd 100) + (1 # 2)))
    else Some 0%Z.
Proof.
  unfold progressPercent. cbn [gtb lit unbounded].
  by destruct (Qlt_le_dec _ _).
Qed.

Lemma progress_all_done (tasks : list Task) :
  0 < totalEffort (A := unbounded R) tasks ->
  Forall isDone tasks ->
  progressPercent (A := unbounded R) tasks = Some 100%Z.
Proof.
  intros Hpos Hall. unfold progressPercent, completedEffort, doneTasks.
  rewrite (filter_all isDone tasks Hall). fold (totalEffort (A := unbounded R) tasks).
  simpl. destruct (Qlt_le_dec _ _) as [Hgt|Hle].
  - f_equal. apply scaled_one. field.
    intros Hz. rewrite Hz in Hpos. by apply Qlt_irrefl in Hpos.
  - exfalso. rewrite rnd_0 in Hle. by apply Qle_not_lt in Hle.
Qed.

Lemma progress_none_done (tasks : list Task) :
  doneTasks tasks = [] ->
  progressPercent (A := unbounded R) tasks = Some 0%Z.
Proof.
  intros Hnone. unfold progressPercent, completedEffort. rewrite Hnone.
  simpl. destruct (Qlt_le_dec _ _) as [Hgt|Hle]; [|done].
  f_equal. apply scaled_zero.
  change (sumEffort (A := unbounded R) []) with (rnd 0).
  rewrite rnd_0. unfold Qdiv. ring.
Qed.

(** X17.  In arithmetic without overflow the progress bar shows exactly
    100 when every task is done and the total effort is positive, and
    exactly 0 when no task is done, whatever the estimates are. *)
Theorem progressPercent_ends (tasks : list Task) :
  (0 < totalEffort (A := unbounded R) tasks -> Forall isDone tasks ->
   progressPercent (A := unbounded R) tasks = Some 100%Z)
  ∧ (doneTasks tasks = [] ->
     progressPercent (A := unbounded R) tasks = Some 0%Z).
Proof. split; [apply progress_all_done|apply progress_none_done]. Qed.

(** Two task lists with the same estimates, the second with at least
    the finished tasks of the first. *)
Lemma done_sums_ordered (l1 l2 : list Task) (c1 c2 : Q) :
  Forall2 (fun a b => task_effort_estimate a = task_effort_estimate b
                      ∧ (isDone a -> isDone b)) l1 l2 ->
  Forall nonNegativeEffort l1 ->
  representable c1 -> c1 <= c2 ->
  fold_left (fun sum x => add (Arith := unbounded R) sum (effortOrZero x))
            (doneTasks l1) c1
  <= fold_left (fun sum x => add (Arith := unbounded R) sum (effortOrZero x))
               (doneTasks l2) c2.
Proof.
  intros Hrel. revert c1 c2.
  induction Hrel as [|a b l1 l2 [Heff Hdone] _ IH]; intros c1 c2 Hall Hc1 Hle.
  - done.
  - apply Forall_cons in Hall as [Ha Hall].
    pose proof (effortOrZero_nonneg a Ha) as He.
    assert (Hab : effortOrZero (A := unbounded R) b = effortOrZero (A := unbounded R) a).
    { unfold effortOrZero. by rewrite Heff. }
    unfold doneTasks. rewrite !filter_cons. fold (doneTasks l1) (doneTasks l2).
    destruct (decide (isDone a)) as [Hda|Hda].
    + rewrite decide_True by auto. simpl. rewrite Hab.
      apply IH; [done|apply rnd_idem|].
      apply rnd_mono. apply Qplus_le_compat; [done|apply Qle_refl].
    + destruct (decide (isDone b)) as [Hdb|Hdb]; simpl.
      * rewrite Hab. apply IH; [done|done|].
        apply rnd_above; [done|].
        apply Qle_trans with c2; [done|].
        rewrite <- (Qplus_0_r c2) at 1.
        apply Qplus_le_compat; [apply Qle_refl|done].
      * by apply IH.
Qed.

Lemma marked_done_related (tasks : list Task) (id : string) :
  Forall2 (fun a b => task_effort_estimate a = task_effort_estimate b
                      ∧ (isDone a -> isDone b))
          tasks
          (handleTaskUpdated tasks id (statusUpdates "done") (Api.Resolved tt)).
Proof.
  simpl. induction tasks as [|t tasks IH]; [constructor|].
  rewrite fmap_cons. constructor; [|done].
  destruct (String.eqb (task_id t) id); done.
Qed.

(** X18.  In arithmetic without overflow, for tasks whose estimates are
    absent or at least 0, marking a task as done never lowers the
    progress percentage. *)
Theorem marking_done_never_lowers_progress (tasks : list Task) (id : string) :
  Forall nonNegativeEffort tasks ->
  exists p p' : Z,
    progressPercent (A := unbounded R) tasks = Some p
    ∧ progressPercent (A := unbounded R)
        (handleTaskUpdated tasks id (statusUpdates "done") (Api.Resolved tt))
      = Some p'
    ∧ (p <= p')%Z.
Proof.
  intros Hall.
  pose proof (status_keeps_total (A := unbounded R) tasks id "done") as Htotal.
  assert (Hc : completedEffort (A := unbounded R) tasks
               <= completedEffort (A := unbounded R)
                    (handleTaskUpdated tasks id (statusUpdates "done")
                                       (Api.Resolved tt))).
  { apply done_sums_ordered;
      [apply marked_done_related|done|apply rnd_idem|apply Qle_refl]. }
  rewrite !progressPercent_unbounded, Htotal.
  destruct (Qlt_le_dec _ _) as [Hgt|Hle].
  - eexists _, _. split; [reflexivity|]. split; [reflexivity|].
    assert (Hpos : 0 < totalEffort (A := unbounded R) tasks).
    { apply Qle_lt_trans with (rnd 0); [apply rnd_nonneg, Qle_refl|done]. }
    apply Qfloor_resp_le. apply Qplus_le_compat; [|apply Qle_refl].
    apply rnd_mono. apply Qmult_le_compat_r; [|apply rnd_nonneg; done].
    apply rnd_mono. unfold Qdiv. apply Qmult_le_compat_r; [done|].
    apply Qlt_le_weak, Qinv_lt_0_compat. done.
  - exists 0%Z, 0%Z. repeat split; lia.
Qed.

End ProgressEdges.

Section ProgressWitnesses.

Import ProjectDetail TaskCard.

Lemma progressPercent_ends_witness :
  progressPercent (A := unbounded exactRounding) (doneTasks board) = Some 100%Z.
Proof.
  apply (proj1 (@progressPercent_ends exactRounding (doneTasks board))).
  - reflexivity.
  - repeat constructor.
Defined.

Lemma marking_done_never_lowers_progress_witness :
  exists p p' : Z,
    progressPercent (A := unbounded exactRounding) board = Some p
    ∧ progressPercent (A := unbounded exactRounding)
        (handleTaskUpdated board "t2" (statusUpdates "done") (Api.Resolved tt))
      = Some p'
    ∧ (p <= p')%Z.
Proof.
  apply (@marking_done_never_lowers_progress exactRounding board "t2").
  repeat constructor; vm_compute; discriminate.
Defined.

End ProgressWitnesses.

(** ** Deleting a project on the dashboard *)

Section DashboardPageFacts.

Import DashboardPage.

Lemma filter_fst {A B} (P : A -> Prop) `{!forall x, Decision (P x)}
    (l : list (A * B)) :
  filter P (fst <$> l) = fst <$> filter (fun x => P (fst x)) l.
Proof.
  induction l as [|x l IH]; [done|].
  rewrite fmap_cons, !filter_cons, IH.
  destruct (decide (P (fst x))); by rewrite ?fmap_cons.
Qed.

Lemma concat_split (id : string) (l : list (Project * list Task)) :
  length (concat (snd <$> l))
  = (length (concat (snd <$> filter (fun pt => project_id (fst pt) ≠ id) l))
     + length (concat (snd <$> filter (fun pt => project_id (fst pt) = id) l)))%nat.
Proof.
  induction l as [|x l IH]; [done|].
  rewrite fmap_cons, !filter_cons. simpl. rewrite length_app, IH.
  destruct (decide (project_id (fst x) = id)) as [HP|HP].
  - rewrite decide_False by tauto. rewrite fmap_cons. simpl.
    rewrite length_app. lia.
  - rewrite decide_True by done. rewrite fmap_cons. simpl.
    rewrite length_app. lia.
Qed.

Lemma shownTasks_dashboardOf (ps : list (Project * list Task)) :
  shownTasks (dashboardOf ps) = length (concat (snd <$> ps)).
Proof. apply (fetchTaskStats_total (snd <$> ps)). Qed.

(** X19.  When the request succeeds, deleting a project on the dashboard
    takes the project off the list but leaves the three task counters as
    they were: they go on counting the tasks of the deleted project, so
    they show more tasks than a reload would by exactly the number of
    its tasks.  When the request is rejected nothing changes. *)
Theorem handleProjectDeleted_keeps_counters (ps : list (Project * list Task))
    (id : string) :
  projects (handleProjectDeleted id (Api.Resolved tt) (dashboardOf ps))
  = projects (dashboardOf (filter (fun pt => project_id (fst pt) ≠ id) ps))
  ∧ taskStats (handleProjectDeleted id (Api.Resolved tt) (dashboardOf ps))
    = taskStats (dashboardOf ps)
  ∧ shownTasks (handleProjectDeleted id (Api.Resolved tt) (dashboardOf ps))
    = (shownTasks (dashboardOf (filter (fun pt => project_id (fst pt) ≠ id) ps))
       + length (concat (snd <$> filter (fun pt => project_id (fst pt) = id) ps)))%nat
  ∧ (forall message st, handleProjectDeleted id (Api.Rejected message) st = st).
Proof.
  split; [exact (filter_fst (fun p => project_id p ≠ id) ps)|].
  split; [done|]. split; [|done].
  change (shownTasks (handleProjectDeleted id (Api.Resolved tt) (dashboardOf ps)))
    with (shownTasks (dashboardOf ps)).
  rewrite !shownTasks_dashboardOf.
  apply concat_split.
Qed.

Example handleProjectDeleted_board :
  let ps := [(mkProject "p1" "u1" "Launch" None, board);
             (mkProject "p2" "u1" "Empty" None, [])] in
  totalProjects (handleProjectDeleted "p1" (Api.Resolved tt) (dashboardOf ps)) = 1%nat
  ∧ shownTasks (handleProjectDeleted "p1" (Api.Resolved tt) (dashboardOf ps)) = 3%nat
  ∧ shownTasks (dashboardOf (filter (fun pt => project_id (fst pt) ≠ "p1") ps)) = 0%nat.
Proof. repeat split; reflexivity. Qed.

End DashboardPageFacts.

(** ** What the invitation page shows *)

Section InvitationViewFacts.

Import InvitationPage.

Lemma view_initial_card (now : Z) (invitationRes : Api.Result (option Invitation))
    (projectRes : Api.Result Project) :
  rejectedWithMessage invitationRes -> rejectedWithMessage projectRes ->
  view (fetchInvitation now invitationRes projectRes initial) = InvitationCard
  <-> exists inv p,
        invitationRes = Api.Resolved (Some inv)
        ∧ accepted_at inv = None
        ∧ now <= expires_at inv
        ∧ projectRes = Api.Resolved p.
Proof.
  intros Hinv Hproj. unfold view, fetchInvitation, initial, setError. split.
  - destruct invitationRes as [[inv|]|msg]; simpl in *.
    + destruct (accepted_at inv) eqn:Hacc; simpl; [done|].
      destruct (Z.ltb_spec (expires_at inv) now) as [Hlt|Hge]; simpl; [done|].
      destruct projectRes as [p|msg]; simpl in *.
      * intros _. by exists inv, p.
      * by rewrite Hproj.
    + done.
    + by rewrite Hinv.
  - intros (inv & p & -> & Hacc & Hle & ->). rewrite Hacc.
    destruct (Z.ltb_spec (expires_at inv) now); [lia|done].
Qed.

Lemma card_state (now : Z) (inv : Invitation) (p : Project) :
  accepted_at inv = None -> now <= expires_at inv ->
  fetchInvitation now (Api.Resolved (Some inv)) (Api.Resolved p) initial
  = mkState (Some inv) (Some p) "".
Proof.
  intros Hacc Hle. unfold fetchInvitation. rewrite Hacc.
  destruct (Z.ltb_spec (expires_at inv) now); [lia|done].
Qed.

Lemma expired_label (now : Z) (inv : Invitation) (p : Project) :
  accepted_at inv = None ->
  view (fetchInvitation now (Api.Resolved (Some inv)) (Api.Resolved p) initial)
  = InvalidInvitation "This invitation has expired"
  <-> PendingInvitation.isExpired now (expires_at inv) = true.
Proof.
  intros Hacc. unfold fetchInvitation, PendingInvitation.isExpired. rewrite Hacc.
  destruct (expires_at inv <? now); simpl; split; done.
Qed.

(** X20.  Both requests answering or failing with a message, the
    invitation page shows the invitation exactly when the invitation was
    found, is not accepted, the current time is not past its expiry (at
    the instant of expiry it is still shown) and the project was
    fetched; the page then holds that invitation and that project.  It
    reports a pending invitation as expired exactly when the team page
    labels it as expired at that time. *)
Theorem invitation_card_shown (now : Z)
    (invitationRes : Api.Result (option Invitation))
    (projectRes : Api.Result Project) :
  rejectedWithMessage invitationRes -> rejectedWithMessage projectRes ->
  (view (fetchInvitation now invitationRes projectRes initial) = InvitationCard
   <-> exists inv p,
         invitationRes = Api.Resolved (Some inv)
         ∧ accepted_at inv = None
         ∧ now <= expires_at inv
         ∧ projectRes = Api.Resolved p)
  ∧ (forall inv p,
        accepted_at inv = None -> now <= expires_at inv ->
        fetchInvitation now (Api.Resolved (Some inv)) (Api.Resolved p) initial
        = mkState (Some inv) (Some p) "")
  ∧ (forall inv p,
        accepted_at inv = None ->
        view (fetchInvitation now (Api.Resolved (Some inv)) (Api.Resolved p) initial)
        = InvalidInvitation "This invitation has expired"
        <-> PendingInvitation.isExpired now (expires_at inv) = true).
Proof.
  intros Hinv Hproj. split; [by apply view_initial_card|].
  split; [apply card_state|apply expired_label].
Qed.

Lemma invitation_card_shown_witness :
  view (fetchInvitation 7
          (Api.Resolved (Some (mkInvitation "i1" "p1" "bob@x.com" Editor 7 None)))
          (Api.Resolved (mkProject "p1" "u1" "Launch" None)) initial)
  = InvitationCard.
Proof.
  apply (proj1 (invitation_card_shown 7
                  (Api.Resolved (Some (mkInvitation "i1" "p1" "bob@x.com" Editor 7 None)))
                  (Api.Resolved (mkProject "p1" "u1" "Launch" None)) I I)).
  eexists _, _. split; [reflexivity|]. split; [reflexivity|].
  split; [simpl; lia|reflexivity].
Defined.

End InvitationViewFacts.

(** ** Resending and cancelling a pending invitation *)

Section PendingInvitationFacts.

Import PendingInvitation.

Lemma resend_toasts (res : Api.Result unit) :
  handleResend (handleResendInvitation res)
  = match res with
    | Api.Resolved _ => [Success "Invitation resent successfully";
                         Success "Invitation resent successfully"]
    | Api.Rejected message => [Error message;
                               Success "Invitation resent successfully"]
    end.
Proof. by destruct res. Qed.

Lemma cancel_toasts (res : Api.Result unit) :
  handleCancel (handleCancelInvitation res)
  = match res with
    | Api.Resolved _ => [Success "Invitation cancelled";
                         Success "Invitation cancelled"]
    | Api.Rejected message => [Error message; Success "Invitation cancelled"]
    end.
Proof. by destruct res. Qed.

(** X21.  On the team page, a click on resend or cancel of a pending
    invitation shows two toasts by the time the handler of the card is
    through, the second being the success toast of the card, whatever
    the outcome of the request: the team page catches the error itself,
    so when the request is rejected the user sees the error message
    followed by "Invitation resent successfully" (or "Invitation
    cancelled"), and when it succeeds the success message twice. *)
Theorem pending_invitation_toasts (res : Api.Result unit) :
  last (handleResend (handleResendInvitation res))
  = Some (Success "Invitation resent successfully")
  ∧ last (handleCancel (handleCancelInvitation res))
    = Some (Success "Invitation cancelled")
  ∧ (forall data, res = Api.Resolved data ->
        handleResend (handleResendInvitation res)
        = [Success "Invitation resent successfully";
           Success "Invitation resent successfully"]
        ∧ handleCancel (handleCancelInvitation res)
          = [Success "Invitation cancelled"; Success "Invitation cancelled"])
  ∧ (forall message, res = Api.Rejected message ->
        handleResend (handleResendInvitation res)
        = [Error message; Success "Invitation resent successfully"]
        ∧ handleCancel (handleCancelInvitation res)
          = [Error message; Success "Invitation cancelled"]).
Proof.
  rewrite resend_toasts, cancel_toasts.
  split; [by destruct res|]. split; [by destruct res|].
  split; [by intros data ->|by intros message ->].
Qed.

Lemma pending_invitation_toasts_witness :
  handleResend (handleResendInvitation (Api.Rejected "Network Error"))
  = [Error "Network Error"; Success "Invitation resent successfully"].
Proof.
  apply (proj2 (proj2 (proj2 (pending_invitation_toasts (Api.Rejected "Network Error"))))
           "Network Error").
  reflexivity.
Defined.

End PendingInvitationFacts.

(** ** The team page after a fetch *)

Section TeamPageFacts.

Import TeamMemberCard TeamPage.

Lemma team_page_offers (st : State) (member : TeamMember) (r : Api.Request) :
  currentUserRole st = Owner ->
  member ∈ members st ->
  role member ≠ Owner ->
  user_id member ≠ currentUserId st ->
  r = Api.DeleteMember (projectId st) (user_id member)
  ∨ (exists newRole, r = Api.PutMember (projectId st) (user_id member) newRole) ->
  r ∈ requests st.
Proof.
  intros Hrole Hm Hnot Hself Hr.
  unfold requests. rewrite list_elem_of_In, in_flat_map.
  exists member. split; [by apply list_elem_of_In|].
  rewrite enabled_cases. unfold canManage, isOwner.
  rewrite bool_decide_eq_true_2 by done.
  rewrite (proj2 (String.eqb_neq _ _) Hself).
  rewrite bool_decide_eq_false_2 by done. simpl.
  destruct Hr as [->|[[| |] ->]]; auto 6.
Qed.

Lemma fetchData_role (me : string) (membersData : list TeamMember) (st : State) :
  currentUserRole (fetchData me membersData st)
  = match List.find (fun m => String.eqb (user_id m) me) membersData with
    | Some currentMember => role currentMember
    | None => currentUserRole st
    end
  ∧ (me ∉ user_id <$> membersData ->
     currentUserRole (fetchData me membersData st) = currentUserRole st).
Proof.
  split; [done|]. intros Hout. simpl.
  destruct (List.find _ membersData) as [m|] eqn:E; [|done].
  apply find_some in E as [Hm He]. apply String.eqb_eq in He.
  exfalso. apply Hout, list_elem_of_fmap. exists m.
  split; [done|by apply list_elem_of_In].
Qed.

(** X22.  After the team page has fetched the members, the requests it
    can send to manage them are exactly these: when the current user is
    shown as Owner, a removal and a change to each of the three roles
    for every listed member who is neither the current user nor shown
    as Owner; no request at all otherwise.  The role shown for the
    current user is the one of their first entry in the fetched list,
    and when they are not in the list the role the page held before the
    fetch stays. *)
Theorem team_page_after_fetch (me : string) (membersData : list TeamMember)
    (st : State) (r : Api.Request) :
  (r ∈ requests (fetchData me membersData st)
   <-> currentUserRole (fetchData me membersData st) = Owner
       ∧ exists member,
           member ∈ membersData
           ∧ role member ≠ Owner
           ∧ user_id member ≠ me
           ∧ (r = Api.DeleteMember (projectId st) (user_id member)
              ∨ exists newRole,
                  r = Api.PutMember (projectId st) (user_id member) newRole))
  ∧ (me ∉ user_id <$> membersData ->
     currentUserRole (fetchData me membersData st) = currentUserRole st)
  ∧ (forall m,
        List.find (fun m => String.eqb (user_id m) me) membersData = Some m ->
        currentUserRole (fetchData me membersData st) = role m).
Proof.
  split; [|split].
  - split.
    + intros Hr. apply team_page_requests in Hr
        as (member & Hm & Hnot & Hself & Hrole & Hreq).
      split; [done|]. by exists member.
    + intros (Hrole & member & Hm & Hnot & Hself & Hreq).
      by apply (team_page_offers _ member).
  - apply fetchData_role.
  - intros m Hm. simpl. by rewrite Hm.
Qed.

Lemma team_page_after_fetch_witness :
  currentUserRole
    (fetchData "u9" [mkTeamMember "u1" "a@x.com" None Owner "2024-01-01"]
               (mkState "p1" [] "u9" Owner))
  = Owner.
Proof.
  apply (proj1 (proj2 (team_page_after_fetch "u9"
                         [mkTeamMember "u1" "a@x.com" None Owner "2024-01-01"]
                         (mkState "p1" [] "u9" Owner)
                         (Api.DeleteMember "p1" "u1")))).
  simpl. rewrite list_elem_of_singleton. discriminate.
Defined.

End TeamPageFacts.

(** ** The errors the forms show *)

Section FieldErrorFacts.

Import Forms AuthPage.

Variable isEmail : string -> bool.

Lemma fieldErrors_from (errors : list Issue) (acc : gmap string string) (k : string) :
  fold_left
    (fun fe (err : Issue) => if JS.truthy err.1 then <[err.1 := err.2]> fe else fe)
    errors acc !! k
  = match last (filter (fun err : Issue => err.1 = k) errors) with
    | Some err => if JS.truthy k then Some err.2 else acc !! k
    | None => acc !! k
    end.
Proof.
  revert acc. induction errors as [|e errors IH]; intros acc; [done|].
  simpl. rewrite IH, filter_cons.
  destruct (decide (e.1 = k)) as [<-|Hne].
  - rewrite last_cons.
    destruct (last (filter _ errors)) as [e'|]; destruct (JS.truthy e.1) eqn:Ht;
      try done.
    by rewrite lookup_insert_eq.
  - assert (Hstep : (if JS.truthy e.1 then <[e.1 := e.2]> acc else acc) !! k
                     = acc !! k)
      by (destruct (JS.truthy e.1); [by rewrite lookup_insert_ne|done]).
    by rewrite Hstep.
Qed.

(** The error shown for a field is the message of the last issue
    reported for it. *)
Lemma fieldErrors_lookup (errors : list Issue) (k : string) :
  fieldErrors errors !! k
  = if JS.truthy k
    then snd <$> last (filter (fun err : Issue => err.1 = k) errors)
    else None.
Proof.
  unfold fieldErrors. rewrite fieldErrors_from.
  destruct (last _) as [e|]; destruct (JS.truthy k); done.
Qed.

(** X23.  When the sign-up form refuses the input, each field shows at
    most one error, the one of the last check that failed on it: an
    email longer than 255 characters is reported as too long even when
    it is also malformed; a field whose checks all pass shows none, and
    no error is recorded under any other name. *)
Theorem signUp_errors_shown (d : SignUpData) (fe : gmap string string) :
  handleSignUp isEmail d = ShowErrors fe ->
  fe !! "email"
  = (if (255 <? String.length (su_email d))%nat then Some "Email too long"
     else if isEmail (su_email d) then None else Some "Invalid email address")
  ∧ fe !! "password"
    = (if (100 <? String.length (su_password d))%nat then Some "Password too long"
       else if (String.length (su_password d) <? 6)%nat
            then Some "Password must be at least 6 characters" else None)
  ∧ fe !! "username"
    = (if (50 <? String.length (JS.trim (su_username d)))%nat
       then Some "Username too long"
       else if (String.length (JS.trim (su_username d)) <? 2)%nat
            then Some "Username must be at least 2 characters" else None)
  ∧ (forall k, k ≠ "email" -> k ≠ "password" -> k ≠ "username" -> fe !! k = None).
Proof.
  unfold handleSignUp. intros H.
  assert (Hfe : fe = fieldErrors (signUpSchema isEmail d)).
  { destruct (signUpSchema isEmail d); [discriminate|]. by injection H. }
  rewrite Hfe. clear H Hfe. rewrite !fieldErrors_lookup.
  unfold signUpSchema, emailIssues, passwordIssues, usernameIssues, lengthIssues.
  split; [|split; [|split]].
  1-3: destruct (isEmail _), (255 <? _)%nat, (_ <? 6)%nat, (100 <? _)%nat,
         (_ <? 2)%nat, (50 <? _)%nat; reflexivity.
  intros k Hk1 Hk2 Hk3. rewrite fieldErrors_lookup.
  destruct (JS.truthy k); [|done].
  destruct (isEmail _), (255 <? _)%nat, (_ <? 6)%nat, (100 <? _)%nat,
    (_ <? 2)%nat, (50 <? _)%nat; simpl;
    rewrite ?filter_cons, ?decide_False by (simpl; congruence); done.
Qed.

End FieldErrorFacts.

Section FieldErrorWitnesses.

Import Forms AuthPage.

Lemma signUp_errors_shown_witness :
  fieldErrors (signUpSchema InviteMemberForm.validateEmail
                 (mkSignUpData "bob@x.com" "abc" "bob"))
  !! "password" = Some "Password must be at least 6 characters".
Proof.
  apply (proj1 (proj2 (signUp_errors_shown InviteMemberForm.validateEmail
                         (mkSignUpData "bob@x.com" "abc" "bob") _ eq_refl))).
Defined.

End FieldErrorWitnesses.

(** ** The accept button *)

Section AcceptButtonFacts.

Import InvitationPage.

Lemma interceptor_rejection {A} (detail message : string) :
  rejectedWithMessage (A := A) (Api.Rejected (Api.errorMessage detail message)).
Proof. apply errorMessage_truthy. Qed.

Lemma accept_enabled (processing : bool) (user : option User) (inv : Invitation) :
  acceptDisabled processing user inv = false
  <-> processing = false
      ∧ exists u, user = Some u ∧ user_email u = invited_email inv.
Proof.
  unfold acceptDisabled. rewrite orb_false_iff. split.
  - intros [Hp Hu]. split; [done|]. destruct user as [u|]; [|done].
    exists u. split; [done|]. by apply String.eqb_eq, negb_false_iff.
  - intros [Hp (u & -> & He)]. split; [done|].
    by apply negb_false_iff, String.eqb_eq.
Qed.

(** X24.  While nothing is being processed, the accept button of the
    invitation page is enabled exactly when a click on it sends the
    accept request.  It is disabled for a visitor who is not logged in,
    so a click never ends in the redirection to the login page nor in
    the request to log in with the invited address. *)
Theorem accept_button_sends (processing : bool) (user : option User)
    (inv : Invitation) :
  (acceptDisabled processing user inv = false
   <-> processing = false
       ∧ handleAccept user inv = Send (Api.PostAcceptInvitation (id inv)))
  ∧ acceptDisabled processing None inv = true
  ∧ (acceptDisabled processing user inv = false ->
     handleAccept user inv ≠ NavigateToAuth
     ∧ forall message, handleAccept user inv ≠ Toast message).
Proof.
  assert (Hsend : handleAccept user inv = Send (Api.PostAcceptInvitation (id inv))
                  <-> exists u, user = Some u ∧ user_email u = invited_email inv).
  { destruct user as [u|]; simpl.
    - rewrite (handleAccept_sends u inv). split; [eauto|].
      by intros (u' & [= <-] & He).
    - split; [done|]. by intros (u' & Hu & _). }
  split; [by rewrite Hsend; apply accept_enabled|].
  split; [unfold acceptDisabled; apply orb_true_r|].
  intros Hen. apply accept_enabled in Hen as [_ Hu].
  apply Hsend in Hu. rewrite Hu. split; [done|]. by intros message.
Qed.

Lemma accept_button_sends_witness :
  handleAccept (Some (mkUser "u2" "bob@x.com" None))
               (mkInvitation "i1" "p1" "bob@x.com" Editor 7 None)
  ≠ NavigateToAuth.
Proof.
  apply (proj2 (proj2 (accept_button_sends false
                         (Some (mkUser "u2" "bob@x.com" None))
                         (mkInvitation "i1" "p1" "bob@x.com" Editor 7 None)))).
  reflexivity.
Defined.

End AcceptButtonFacts.
